(** * The Descriptor codec of psd_tools2, embedded in Rocq

    A shallow embedding of [psd_tools2/decoder/descriptor.py] (and of the
    element base classes of [psd_tools2/decoder/base.py]).

    - A file object opened for reading is the list of bytes still to be
      read, together with the diagnostics logged so far; a file object
      opened for writing is the list of bytes written so far.
    - A function that performs I/O is a function on that state which
      returns a value and the new state, or raises a Python exception.
    - The enumerations of [psd_tools2.constants] live outside the two
      modules embedded here; the codec is parametrised by them. *)

From Stdlib Require Import List NArith ZArith Lia Bool Arith.
From Stdlib Require Import Strings.Byte.
Import ListNotations.

Local Open Scope Z_scope.

(** ** Bytes and big-endian integers *)

Definition bytes := list byte.

Definition bytes_eq_dec : forall a b : bytes, {a = b} + {a <> b} :=
  list_eq_dec Byte.byte_eq_dec.

Definition bytes_eqb (a b : bytes) : bool :=
  if bytes_eq_dec a b then true else false.

Definition len {A : Type} (l : list A) : Z := Z.of_nat (length l).

Definition byte_to_Z (b : byte) : Z := Z.of_N (Byte.to_N b).

Definition byte_of_Z (z : Z) : byte :=
  match Byte.of_N (Z.to_N (z mod 256)) with
  | Some b => b
  | None => x00
  end.

(** [n] bytes of [v], least significant first. *)
Fixpoint le_bytes (n : nat) (v : Z) : bytes :=
  match n with
  | O => []
  | S n' => byte_of_Z (v mod 256) :: le_bytes n' (v / 256)
  end.

Fixpoint le_value (bs : bytes) : Z :=
  match bs with
  | [] => 0
  | b :: bs' => byte_to_Z b + 256 * le_value bs'
  end.

(** struct's [>] byte order: most significant byte first. *)
Definition be_bytes (n : nat) (v : Z) : bytes := rev (le_bytes n v).
Definition be_value (bs : bytes) : Z := le_value (rev bs).

(** Two's complement on [w] bits, for struct's signed formats. *)
Definition to_signed (w : Z) (u : Z) : Z :=
  if u <? 2 ^ (w - 1) then u else u - 2 ^ w.
Definition to_unsigned (w : Z) (z : Z) : Z := z mod 2 ^ w.

(** ** Exceptions, results and the I/O monad *)

(** [ValueError], [NameError], [AttributeError] and [NotImplementedError]
    are raised by the embedded modules themselves.  [FormatError] and
    [UnrepresentableValueError] are the two failures of the primitive I/O
    layer: a truncated stream and a value that does not fit its field. *)
Inductive exn :=
| ValueError
| NameError
| AttributeError
| NotImplementedError
| FormatError
| UnrepresentableValueError.

(** [OutOfFuel] is not a Python outcome: it marks a run of the model that
    was given too small a nesting bound (see [read]). *)
Inductive result (A : Type) :=
| Ok (a : A)
| Raise (e : exn)
| OutOfFuel.
Arguments Ok {A} a.
Arguments Raise {A} e.
Arguments OutOfFuel {A}.

Definition M (S A : Type) : Type := S -> result (A * S).

Definition ret {S A} (a : A) : M S A := fun s => Ok (a, s).
Definition raise {S A} (e : exn) : M S A := fun _ => Raise e.
Definition bind {S A B} (m : M S A) (k : A -> M S B) : M S B :=
  fun s => match m s with
           | Ok (a, s') => k a s'
           | Raise e => Raise e
           | OutOfFuel => OutOfFuel
           end.

Notation "x <- m ;; k" := (bind m (fun x => k))
  (at level 61, m at next level, right associativity).
Notation "m ;;; k" := (bind m (fun _ => k))
  (at level 61, right associativity).

(** ** Streams *)

(** A diagnostic of [logger.warning]. *)
Inductive diagnostic :=
| UnknownClassID (key : bytes).

(** Input: the bytes not yet read, and the log. *)
Definition istream : Type := bytes * list diagnostic.
(** Output: the bytes written so far. *)
Definition ostream : Type := bytes.

(** [fp.read(n)]: up to [n] bytes; a short read is not an error. *)
Definition fp_read (n : nat) : M istream bytes :=
  fun s => Ok (firstn n (fst s), (skipn n (fst s), snd s)).

(** [logger.warning(...)]. *)
Definition logger_warning (d : diagnostic) : M istream unit :=
  fun s => Ok (tt, (fst s, snd s ++ [d])).

(** ** The primitive I/O layer ([psd_tools2.utils]) *)

(** Modelled from the spec: [psd_tools2.utils] is not among the sources.
    A fixed-width field or a declared length that the stream cannot
    supply is a truncated stream, a fatal [FormatError]. *)
Definition read_exact (n : nat) : M istream bytes :=
  data <- fp_read n ;;
  if Nat.eqb (length data) n then ret data else raise FormatError.

(** Modelled from the spec: [write_bytes(fp, data)] appends [data] and
    returns the number of bytes written. *)
Definition write_bytes (data : bytes) : M ostream Z :=
  fun out => Ok (len data, out ++ data).

(** Modelled from the spec: [read_fmt('I', fp)[0]], a 4-byte big-endian
    unsigned integer. *)
Definition read_fmt_I : M istream Z :=
  data <- read_exact 4 ;; ret (be_value data).

(** Modelled from the spec: [read_fmt('i', fp)[0]], 4-byte signed. *)
Definition read_fmt_i : M istream Z :=
  data <- read_exact 4 ;; ret (to_signed 32 (be_value data)).

(** Modelled from the spec: [read_fmt('q', fp)[0]], 8-byte signed. *)
Definition read_fmt_q : M istream Z :=
  data <- read_exact 8 ;; ret (to_signed 64 (be_value data)).

(** Modelled from the spec: [read_fmt('?', fp)[0]], one byte, true when
    it is not zero. *)
Definition read_fmt_bool : M istream bool :=
  data <- read_exact 1 ;; ret (negb (be_value data =? 0)).

(** Modelled from the spec: [read_fmt('d', fp)[0]], an 8-byte IEEE
    float.  A Python float is modelled by its binary64 bit pattern. *)
Definition read_fmt_d : M istream Z :=
  data <- read_exact 8 ;; ret (be_value data).

(** Modelled from the spec: [read_fmt('4sd', fp)], a 4-byte code and a
    float, read as one 12-byte block. *)
Definition read_fmt_4sd : M istream (bytes * Z) :=
  data <- read_exact 12 ;;
  ret (firstn 4 data, be_value (skipn 4 data)).

(** Modelled from the spec: [read_fmt('4sI', fp)], a 4-byte code and a
    4-byte count, read as one 8-byte block. *)
Definition read_fmt_4sI : M istream (bytes * Z) :=
  data <- read_exact 8 ;;
  ret (firstn 4 data, be_value (skipn 4 data)).

Fixpoint unpack_doubles (count : nat) (data : bytes) : list Z :=
  match count with
  | O => []
  | S n => be_value (firstn 8 data) :: unpack_doubles n (skipn 8 data)
  end.

(** Modelled from the spec: [read_fmt('%dd' % count, fp)], [count]
    floats read as one block. *)
Definition read_fmt_doubles (count : nat) : M istream (list Z) :=
  data <- read_exact (8 * count) ;; ret (unpack_doubles count data).

(** Modelled from the spec: [write_fmt(fp, 'I', v)]; a value outside the
    width of the field is unrepresentable. *)
Definition write_fmt_I (v : Z) : M ostream Z :=
  if (0 <=? v) && (v <? 2 ^ 32) then write_bytes (be_bytes 4 v)
  else raise UnrepresentableValueError.

(** Modelled from the spec: [write_fmt(fp, 'i', v)]. *)
Definition write_fmt_i (v : Z) : M ostream Z :=
  if (- 2 ^ 31 <=? v) && (v <? 2 ^ 31)
  then write_bytes (be_bytes 4 (to_unsigned 32 v))
  else raise UnrepresentableValueError.

(** Modelled from the spec: [write_fmt(fp, 'q', v)]. *)
Definition write_fmt_q (v : Z) : M ostream Z :=
  if (- 2 ^ 63 <=? v) && (v <? 2 ^ 63)
  then write_bytes (be_bytes 8 (to_unsigned 64 v))
  else raise UnrepresentableValueError.

(** Modelled from the spec: [write_fmt(fp, '?', v)]. *)
Definition write_fmt_bool (v : bool) : M ostream Z :=
  write_bytes (be_bytes 1 (if v then 1 else 0)).

(** Modelled from the spec: [write_fmt(fp, 'd', v)]. *)
Definition write_fmt_d (v : Z) : M ostream Z :=
  write_bytes (be_bytes 8 v).

(** struct's [4s]: the bytes cut or zero-filled to four. *)
Definition pack_4s (b : bytes) : bytes :=
  firstn 4 (b ++ [x00; x00; x00; x00]).

(** Modelled from the spec: [write_fmt(fp, '4sd', code, v)]. *)
Definition write_fmt_4sd (code : bytes) (v : Z) : M ostream Z :=
  write_bytes (pack_4s code ++ be_bytes 8 v).

(** Modelled from the spec: [write_fmt(fp, '4sI%dd' % n, code, n, *vs)];
    the array length must fit the 4-byte count. *)
Definition write_fmt_4sI_doubles (code : bytes) (n : Z) (vs : list Z)
  : M ostream Z :=
  if (0 <=? n) && (n <? 2 ^ 32)
  then write_bytes (pack_4s code ++ be_bytes 4 n ++ flat_map (be_bytes 8) vs)
  else raise UnrepresentableValueError.

(** A text string is the list of its UTF-16 code units. *)
Definition ustr := list Z.

Fixpoint be_array_from_bytes (count : nat) (data : bytes) : ustr :=
  match count with
  | O => []
  | S n => be_value (firstn 2 data) :: be_array_from_bytes n (skipn 2 data)
  end.

(** Bytes needed to bring a block of [n] bytes to a multiple of 4. *)
Definition pad4 (n : Z) : nat := Z.to_nat ((4 - n mod 4) mod 4).

(** Modelled from the spec: [read_unicode_string(fp, padding)], a 4-byte
    character count [C] and [2*C] bytes of UTF-16 big-endian text; when
    the padding mode is active the total length is a multiple of 4. *)
Definition read_unicode_string (padding : bool) : M istream ustr :=
  num_chars <- read_fmt_I ;;
  data <- read_exact (2 * Z.to_nat num_chars) ;;
  (if padding then read_exact (pad4 (4 + 2 * num_chars)) else ret []) ;;;
  ret (be_array_from_bytes (Z.to_nat num_chars) data).

(** Modelled from the spec: [write_unicode_string(fp, value, padding)],
    the mirror of [read_unicode_string]; returns the bytes written. *)
Definition write_unicode_string (value : ustr) (padding : bool)
  : M ostream Z :=
  written <- write_fmt_I (len value) ;;
  w <- write_bytes (flat_map (be_bytes 2) value) ;;
  p <- (if padding then write_bytes (repeat x00 (pad4 (written + w)))
        else ret 0) ;;
  ret (written + w + p).

(** Modelled from the spec: [read_length_block(fp)], a 4-byte length
    prefix and that many raw bytes. *)
Definition read_length_block : M istream bytes :=
  length <- read_fmt_I ;;
  read_exact (Z.to_nat length).

(** Modelled from the spec: [write_length_block(fp, writer)], the length
    of what [writer] writes, then what it writes; returns the total. *)
Definition write_length_block (writer : M ostream Z) : M ostream Z :=
  fun out =>
    match writer [] with
    | Ok (n, body) =>
        (w1 <- write_fmt_I n ;; w2 <- write_bytes body ;; ret (w1 + w2)) out
    | Raise e => Raise e
    | OutOfFuel => OutOfFuel
    end.

(** ** Constants ([psd_tools2.constants]) *)

(** The members of [OSType] that [descriptor.py] names. *)
Inductive OSType :=
| REFERENCE | DESCRIPTOR | LIST | DOUBLE | UNIT_FLOAT | UNIT_FLOATS
| STRING | ENUMERATED | INTEGER | LARGE_INTEGER | BOOLEAN | GLOBAL_OBJECT
| CLASS1 | CLASS2 | CLASS3 | ALIAS | RAW_DATA | OBJECT_ARRAY | PATH
| PROPERTY | ENUMERATED_REFERENCE | OFFSET | IDENTIFIER | INDEX | NAME.

Scheme Equality for OSType.

Definition all_OSType : list OSType :=
  [REFERENCE; DESCRIPTOR; LIST; DOUBLE; UNIT_FLOAT; UNIT_FLOATS;
   STRING; ENUMERATED; INTEGER; LARGE_INTEGER; BOOLEAN; GLOBAL_OBJECT;
   CLASS1; CLASS2; CLASS3; ALIAS; RAW_DATA; OBJECT_ARRAY; PATH;
   PROPERTY; ENUMERATED_REFERENCE; OFFSET; IDENTIFIER; INDEX; NAME].

(** What the codec takes from [psd_tools2.constants], which is not among
    the sources: the 4-byte value of each [OSType] member, and which byte
    strings are values of a [DescriptorClassID] or [UnitFloatType]
    member.  A member of those two enumerations is identified by its
    value. *)
Record constants := {
  OSType_value : OSType -> bytes;
  DescriptorClassID_has : bytes -> bool;
  UnitFloatType_has : bytes -> bool
}.

(** What the format promises of the constants: codes are 4 bytes long and
    distinct members of [OSType] have distinct values. *)
Record constants_ok (K : constants) : Prop := {
  OSType_value_length : forall t, length (OSType_value K t) = 4%nat;
  OSType_value_inj :
    forall t u, OSType_value K t = OSType_value K u -> t = u;
  DescriptorClassID_length :
    forall b, DescriptorClassID_has K b = true -> length b = 4%nat;
  UnitFloatType_length :
    forall b, UnitFloatType_has K b = true -> length b = 4%nat
}.

(** ** Keys *)

(** A key, classID, typeID or enum field holds either a member of
    [DescriptorClassID] or a [bytes] object. *)
Inductive Key :=
| ClassID (value : bytes)
| RawKey (value : bytes).

Definition Key_eq_dec : forall a b : Key, {a = b} + {a <> b}.
Proof. decide equality; apply bytes_eq_dec. Defined.

Definition Key_eqb (a b : Key) : bool :=
  if Key_eq_dec a b then true else false.

(** ** Python classes of [descriptor.py] *)

Inductive pyclass :=
| Descriptor | List | Property | UnitFloat | UnitFloats | Double | Class
| String | EnumeratedReference | Offset | Bool | LargeInteger | Integer
| Enum | RawData
| Class1 | Class2 | Class3 | Reference | Alias | GlobalObject
| ObjectArray | Path | Identifier | Index | Name.

Scheme Equality for pyclass.

(** The base named in the [class] statement, for the classes whose base
    is a class of [descriptor.py]. *)
Definition base (cls : pyclass) : option pyclass :=
  match cls with
  | Class1 | Class2 | Class3 => Some Class
  | Reference => Some List
  | Alias | Path => Some RawData
  | GlobalObject | ObjectArray => Some Descriptor
  | Identifier | Index => Some Integer
  | Name => Some String
  | _ => None
  end.

(** Whether the class body defines [read] and [write] ([false]: the body
    is [pass]). *)
Definition defines_methods (cls : pyclass) : bool :=
  match cls with
  | Class1 | Class2 | Class3 | Reference | Alias | GlobalObject
  | ObjectArray | Path | Identifier | Index | Name => false
  | _ => true
  end.

(** Method resolution: the class whose [read] and [write] run for [cls]. *)
Definition method_owner (cls : pyclass) : pyclass :=
  if defines_methods cls then cls
  else match base cls with
       | Some b => b
       | None => cls
       end.

(** ** Dictionaries with insertion order *)

Section Dict.
Context {A B : Type}.
Variable eqb : A -> A -> bool.

(** [d[k] = v]: a new key goes last, a present key keeps its place. *)
Fixpoint dict_set (k : A) (v : B) (d : list (A * B)) : list (A * B) :=
  match d with
  | [] => [(k, v)]
  | (k', v') :: d' =>
      if eqb k k' then (k', v) :: d' else (k', v') :: dict_set k v d'
  end.

Fixpoint dict_get (k : A) (d : list (A * B)) : option B :=
  match d with
  | [] => None
  | (k', v') :: d' => if eqb k k' then Some v' else dict_get k d'
  end.

(** [OrderedDict(items)] for a list of pairs. *)
Definition OrderedDict (items : list (A * B)) : list (A * B) :=
  fold_left (fun d kv => dict_set (fst kv) (snd kv) d) items [].
End Dict.

(** ** The type registry *)

Record registry := {
  TYPES : list (OSType * pyclass);
  ostype_attr : list (pyclass * OSType)
}.

(** [register(ostype)(cls)]: [TYPES[ostype] = cls] and
    [setattr(cls, 'ostype', ostype)]. *)
Definition register (ostype : OSType) (cls : pyclass) (r : registry)
  : registry :=
  {| TYPES := dict_set OSType_beq ostype cls (TYPES r);
     ostype_attr := dict_set pyclass_beq cls ostype (ostype_attr r) |}.

(** The decorators of the module, in source order. *)
Definition module_registry : registry :=
  fold_left (fun r d => register (fst d) (snd d) r)
    [(DESCRIPTOR, Descriptor); (LIST, List); (PROPERTY, Property);
     (UNIT_FLOAT, UnitFloat); (UNIT_FLOATS, UnitFloats); (DOUBLE, Double);
     (STRING, String); (ENUMERATED_REFERENCE, EnumeratedReference);
     (OFFSET, Offset); (BOOLEAN, Bool); (LARGE_INTEGER, LargeInteger);
     (INTEGER, Integer); (ENUMERATED, Enum); (RAW_DATA, RawData);
     (CLASS1, Class1); (CLASS2, Class2); (CLASS3, Class3);
     (REFERENCE, Reference); (ALIAS, Alias); (GLOBAL_OBJECT, GlobalObject);
     (OBJECT_ARRAY, ObjectArray); (PATH, Path); (IDENTIFIER, Identifier);
     (INDEX, Index); (NAME, Name)]
    {| TYPES := []; ostype_attr := [] |}.

(** [TYPES.get(ostype)]. *)
Definition TYPES_get (ostype : OSType) : option pyclass :=
  dict_get OSType_beq ostype (TYPES module_registry).

(** The [ostype] attribute of an instance of [cls]: the class's own, else
    the one its base was given. *)
Definition getattr_ostype (cls : pyclass) : option OSType :=
  match dict_get pyclass_beq cls (ostype_attr module_registry) with
  | Some t => Some t
  | None =>
      match base cls with
      | Some b => dict_get pyclass_beq b (ostype_attr module_registry)
      | None => None
      end
  end.

(** ** The key codec *)

Section KeyCodec.
Variable K : constants.

(** [OSType(data)]: the member with that value, else [ValueError]. *)
Definition OSType_call {S} (data : bytes) : M S OSType :=
  match find (fun t => bytes_eqb (OSType_value K t) data) all_OSType with
  | Some t => ret t
  | None => raise ValueError
  end.

(** [read_length_and_key(fp)]. *)
Definition read_length_and_key : M istream Key :=
  length <- read_fmt_I ;;
  key <- fp_read (if length =? 0 then 4%nat else Z.to_nat length) ;;
  if length =? 0 then
    if DescriptorClassID_has K key then ret (ClassID key)
    else logger_warning (UnknownClassID key) ;;; ret (RawKey key)
  else ret (RawKey key).

(** [write_length_and_key(fp, value)].  [value in DescriptorClassID]
    holds of the members of the enumeration, and of nothing else: a
    [bytes] object is not a member, whatever it holds. *)
Definition write_length_and_key (value : Key) : M ostream Z :=
  match value with
  | ClassID code =>
      written <- write_fmt_I 0 ;;
      w <- write_bytes code ;;
      ret (written + w)
  | RawKey b =>
      written <- write_fmt_I (len b) ;;
      w <- write_bytes b ;;
      ret (written + w)
  end.
End KeyCodec.

(** ** Elements *)

(** An instance of a class of [descriptor.py]: its class, and the fields
    that the [attr.s] declaration of the class (or of its base) gives
    it.  A float field holds a binary64 bit pattern. *)
#[warnings="-register-all"]
Inductive element :=
| descriptor_obj (cls : pyclass) (name : ustr) (classID : Key)
                 (items : list (Key * element))
| list_obj (cls : pyclass) (items : list element)
| property_obj (cls : pyclass) (name : ustr) (classID keyID : Key)
| unit_float_obj (cls : pyclass) (unit : bytes) (value : Z)
| unit_floats_obj (cls : pyclass) (unit : bytes) (values : list Z)
| double_obj (cls : pyclass) (value : Z)
| class_obj (cls : pyclass) (name : ustr) (classID : Key)
| string_obj (cls : pyclass) (value : ustr)
| enumerated_reference_obj (cls : pyclass) (name : ustr)
                           (classID typeID enum : Key)
| offset_obj (cls : pyclass) (name : ustr) (classID : Key) (value : Z)
| bool_obj (cls : pyclass) (value : bool)
| large_integer_obj (cls : pyclass) (value : Z)
| integer_obj (cls : pyclass) (value : Z)
| enum_obj (cls : pyclass) (typeID enum : Key)
| raw_data_obj (cls : pyclass) (value : bytes).

(** [type(e)]. *)
Definition class_of (e : element) : pyclass :=
  match e with
  | descriptor_obj c _ _ _ | list_obj c _ | property_obj c _ _ _
  | unit_float_obj c _ _ | unit_floats_obj c _ _ | double_obj c _
  | class_obj c _ _ | string_obj c _
  | enumerated_reference_obj c _ _ _ _ | offset_obj c _ _ _
  | bool_obj c _ | large_integer_obj c _ | integer_obj c _
  | enum_obj c _ _ | raw_data_obj c _ => c
  end.

(** [cls(name, classID, items)] for [Descriptor] and its subclasses: the
    attribute [items] has [converter=OrderedDict]. *)
Definition new_Descriptor (cls : pyclass) (name : ustr) (classID : Key)
  (items : list (Key * element)) : element :=
  descriptor_obj cls name classID (OrderedDict Key_eqb items).

(** ** Containers, over any registry *)

(** [Descriptor.read], [List.read] and the two [write] loops, for any
    content of the dictionary [TYPES]: [D] is what the registry holds,
    [V] what a decoder returns, [is_None] tells Python's [None]. *)
Section Containers.
Variable K : constants.
Context {D V : Type}.
Variable TYPES_get' : OSType -> option D.
Variable decoder_read : D -> M istream V.
Variable is_None : V -> bool.
Variable item_ostype : V -> option OSType.
Variable item_write : V -> M ostream Z.

(** The body of the [for] loop of [Descriptor.read].  The module does
    not import [warnings]: evaluating [warnings.warn] raises
    [NameError]. *)
Fixpoint Descriptor_read_loop (count : nat) (items : list (Key * V))
  : M istream (list (Key * V)) :=
  match count with
  | O => ret items
  | S n =>
      key <- read_length_and_key K ;;
      tag <- fp_read 4 ;;
      ostype <- OSType_call K tag ;;
      match TYPES_get' ostype with
      | None => raise ValueError
      | Some decoder =>
          value <- decoder_read decoder ;;
          (if is_None value then raise NameError else ret tt) ;;;
          Descriptor_read_loop n (items ++ [(key, value)])
      end
  end.

(** [Descriptor.read(cls, fp)]; [new] is the call [cls(...)]. *)
Definition Descriptor_read {E} (new : ustr -> Key -> list (Key * V) -> E)
  : M istream E :=
  name <- read_unicode_string true ;;
  classID <- read_length_and_key K ;;
  count <- read_fmt_I ;;
  items <- Descriptor_read_loop (Z.to_nat count) [] ;;
  ret (new name classID items).

Fixpoint List_read_loop (count : nat) (items : list V)
  : M istream (list V) :=
  match count with
  | O => ret items
  | S n =>
      key <- fp_read 4 ;;
      key <- OSType_call K key ;;
      match TYPES_get' key with
      | None => raise ValueError
      | Some decoder =>
          value <- decoder_read decoder ;;
          List_read_loop n (items ++ [value])
      end
  end.

(** [List.read(cls, fp)]. *)
Definition List_read {E} (new : list V -> E) : M istream E :=
  count <- read_fmt_I ;;
  items <- List_read_loop (Z.to_nat count) [] ;;
  ret (new items).

(** [item.ostype.value]. *)
Definition ostype_value (item : V) : M ostream bytes :=
  match item_ostype item with
  | Some t => ret (OSType_value K t)
  | None => raise AttributeError
  end.

(** The [for] loop of [Descriptor.write]; the dictionary is walked in
    insertion order. *)
Fixpoint Descriptor_write_loop (items : list (Key * V)) (written : Z)
  : M ostream Z :=
  match items with
  | [] => ret written
  | (key, value) :: rest =>
      w1 <- write_length_and_key key ;;
      tag <- ostype_value value ;;
      w2 <- write_bytes tag ;;
      w3 <- item_write value ;;
      Descriptor_write_loop rest (written + w1 + w2 + w3)
  end.

(** [Descriptor.write(self, fp)]. *)
Definition Descriptor_write (name : ustr) (classID : Key)
  (items : list (Key * V)) : M ostream Z :=
  written <- write_unicode_string name true ;;
  w1 <- write_length_and_key classID ;;
  w2 <- write_fmt_I (len items) ;;
  Descriptor_write_loop items (written + w1 + w2).

Fixpoint List_write_loop (items : list V) (written : Z) : M ostream Z :=
  match items with
  | [] => ret written
  | item :: rest =>
      w1 <- (tag <- ostype_value item ;; write_bytes tag) ;;
      w2 <- item_write item ;;
      List_write_loop rest (written + w1 + w2)
  end.

(** [List.write(self, fp)]. *)
Definition List_write (items : list V) : M ostream Z :=
  written <- write_fmt_I (len items) ;;
  List_write_loop items written.
End Containers.

(** ** The scalar and structural variants *)

Section Variants.
Variable K : constants.

(** [UnitFloatType(unit)], the converter of the [unit] attribute. *)
Definition UnitFloatType_call {S} (unit : bytes) : M S bytes :=
  if UnitFloatType_has K unit then ret unit else raise ValueError.

Definition Property_read (cls : pyclass) : M istream element :=
  name <- read_unicode_string false ;;
  classID <- read_length_and_key K ;;
  keyID <- read_length_and_key K ;;
  ret (property_obj cls name classID keyID).

Definition Property_write (name : ustr) (classID keyID : Key)
  : M ostream Z :=
  written <- write_unicode_string name false ;;
  w1 <- write_length_and_key classID ;;
  w2 <- write_length_and_key keyID ;;
  ret (written + w1 + w2).

Definition UnitFloat_read (cls : pyclass) : M istream element :=
  uv <- read_fmt_4sd ;;
  unit <- UnitFloatType_call (fst uv) ;;
  ret (unit_float_obj cls unit (snd uv)).

Definition UnitFloat_write (unit : bytes) (value : Z) : M ostream Z :=
  write_fmt_4sd unit value.

Definition UnitFloats_read (cls : pyclass) : M istream element :=
  uc <- read_fmt_4sI ;;
  values <- read_fmt_doubles (Z.to_nat (snd uc)) ;;
  unit <- UnitFloatType_call (fst uc) ;;
  ret (unit_floats_obj cls unit values).

Definition UnitFloats_write (unit : bytes) (values : list Z)
  : M ostream Z :=
  write_fmt_4sI_doubles unit (len values) values.

Definition Double_read (cls : pyclass) : M istream element :=
  value <- read_fmt_d ;; ret (double_obj cls value).

Definition Double_write (value : Z) : M ostream Z := write_fmt_d value.

Definition Class_read (cls : pyclass) : M istream element :=
  name <- read_unicode_string false ;;
  classID <- read_length_and_key K ;;
  ret (class_obj cls name classID).

Definition Class_write (name : ustr) (classID : Key) : M ostream Z :=
  written <- write_unicode_string name false ;;
  w <- write_length_and_key classID ;;
  ret (written + w).

Definition String_read (cls : pyclass) : M istream element :=
  value <- read_unicode_string true ;; ret (string_obj cls value).

Definition String_write (value : ustr) : M ostream Z :=
  write_unicode_string value true.

Definition EnumeratedReference_read (cls : pyclass) : M istream element :=
  name <- read_unicode_string false ;;
  classID <- read_length_and_key K ;;
  typeID <- read_length_and_key K ;;
  enum <- read_length_and_key K ;;
  ret (enumerated_reference_obj cls name classID typeID enum).

Definition EnumeratedReference_write (name : ustr)
  (classID typeID enum : Key) : M ostream Z :=
  written <- write_unicode_string name false ;;
  w1 <- write_length_and_key classID ;;
  w2 <- write_length_and_key typeID ;;
  w3 <- write_length_and_key enum ;;
  ret (written + w1 + w2 + w3).

Definition Offset_read (cls : pyclass) : M istream element :=
  name <- read_unicode_string false ;;
  classID <- read_length_and_key K ;;
  offset <- read_fmt_I ;;
  ret (offset_obj cls name classID offset).

Definition Offset_write (name : ustr) (classID : Key) (value : Z)
  : M ostream Z :=
  written <- write_unicode_string name false ;;
  w1 <- write_length_and_key classID ;;
  w2 <- write_fmt_I value ;;
  ret (written + w1 + w2).

Definition Bool_read (cls : pyclass) : M istream element :=
  value <- read_fmt_bool ;; ret (bool_obj cls value).

Definition Bool_write (value : bool) : M ostream Z := write_fmt_bool value.

Definition LargeInteger_read (cls : pyclass) : M istream element :=
  value <- read_fmt_q ;; ret (large_integer_obj cls value).

Definition LargeInteger_write (value : Z) : M ostream Z :=
  write_fmt_q value.

Definition Integer_read (cls : pyclass) : M istream element :=
  value <- read_fmt_i ;; ret (integer_obj cls value).

Definition Integer_write (value : Z) : M ostream Z := write_fmt_i value.

Definition Enum_read (cls : pyclass) : M istream element :=
  typeID <- read_length_and_key K ;;
  enum <- read_length_and_key K ;;
  ret (enum_obj cls typeID enum).

Definition Enum_write (typeID enum : Key) : M ostream Z :=
  written <- write_length_and_key typeID ;;
  w <- write_length_and_key enum ;;
  ret (written + w).

Definition RawData_read (cls : pyclass) : M istream element :=
  value <- read_length_block ;; ret (raw_data_obj cls value).

Definition RawData_write (value : bytes) : M ostream Z :=
  write_length_block (write_bytes value).

(** ** Reading and writing any element *)

(** [cls.read(fp)].  [fuel] bounds the nesting of containers; the
    classes whose body is [pass] run the [read] of their base, which
    builds an instance of [cls].  The last branch is [BaseElement.read],
    for a class that would define no [read]: every class of the module
    has one, its own or that of its base. *)
Fixpoint read (fuel : nat) (cls : pyclass) {struct fuel}
  : M istream element :=
  match fuel with
  | O => fun _ => OutOfFuel
  | S fuel' =>
      match method_owner cls with
      | Descriptor =>
          Descriptor_read K TYPES_get (read fuel') (fun _ => false)
            (new_Descriptor cls)
      | List =>
          List_read K TYPES_get (read fuel') (list_obj cls)
      | Property => Property_read cls
      | UnitFloat => UnitFloat_read cls
      | UnitFloats => UnitFloats_read cls
      | Double => Double_read cls
      | Class => Class_read cls
      | String => String_read cls
      | EnumeratedReference => EnumeratedReference_read cls
      | Offset => Offset_read cls
      | Bool => Bool_read cls
      | LargeInteger => LargeInteger_read cls
      | Integer => Integer_read cls
      | Enum => Enum_read cls
      | RawData => RawData_read cls
      | _ => raise NotImplementedError
      end
  end.

(** [e.ostype], looked up on the class of [e]. *)
Definition element_ostype (e : element) : option OSType :=
  getattr_ostype (class_of e).

(** [e.write(fp)]. *)
Fixpoint write (e : element) : M ostream Z :=
  match e with
  | descriptor_obj _ name classID items =>
      Descriptor_write K element_ostype write name classID items
  | list_obj _ items => List_write K element_ostype write items
  | property_obj _ name classID keyID =>
      Property_write name classID keyID
  | unit_float_obj _ unit value => UnitFloat_write unit value
  | unit_floats_obj _ unit values => UnitFloats_write unit values
  | double_obj _ value => Double_write value
  | class_obj _ name classID => Class_write name classID
  | string_obj _ value => String_write value
  | enumerated_reference_obj _ name classID typeID enum =>
      EnumeratedReference_write name classID typeID enum
  | offset_obj _ name classID value => Offset_write name classID value
  | bool_obj _ value => Bool_write value
  | large_integer_obj _ value => LargeInteger_write value
  | integer_obj _ value => Integer_write value
  | enum_obj _ typeID enum => Enum_write typeID enum
  | raw_data_obj _ value => RawData_write value
  end.

(** [BaseElement.tobytes]: write to a fresh buffer, return its value. *)
Definition tobytes (e : element) : result bytes :=
  match write e [] with
  | Ok (_, out) => Ok out
  | Raise x => Raise x
  | OutOfFuel => OutOfFuel
  end.

(** [BaseElement.frombytes]: read from a buffer holding [data].  The
    nesting of containers in [data] is below its length. *)
Definition frombytes_log (cls : pyclass) (data : bytes)
  : result (element * istream) :=
  read (S (length data)) cls (data, []).

Definition frombytes (cls : pyclass) (data : bytes) : result element :=
  match frombytes_log cls data with
  | Ok (e, _) => Ok e
  | Raise x => Raise x
  | OutOfFuel => OutOfFuel
  end.
End Variants.

(** ** The base classes and the accessors *)

Section BaseWrites.
Context {V : Type}.
Variable item_write : V -> M ostream Z.

(** [sum(item.write(fp) for item in items)]: the items are written in
    order and what they return is added up, from 0. *)
Fixpoint sum_writes (items : list V) (total : Z) : M ostream Z :=
  match items with
  | [] => ret total
  | item :: rest =>
      w <- item_write item ;;
      sum_writes rest (total + w)
  end.

(** [ListElement.write(self, fp)]; [__iter__] yields the items. *)
Definition ListElement_write (items : list V) : M ostream Z :=
  sum_writes items 0.

(** [DictElement.write(self, fp)]; [__iter__] yields the keys, in
    insertion order, and each is looked up in [self.items]. *)
Definition DictElement_write (items : list (Key * V)) : M ostream Z :=
  sum_writes (map snd items) 0.
End BaseWrites.

(** [str.encode('ascii')]: one byte per character below 128, else
    [UnicodeEncodeError] ([None]). *)
Fixpoint encode_ascii (s : ustr) : option bytes :=
  match s with
  | [] => Some []
  | u :: s' =>
      if (0 <=? u) && (u <? 128)
      then option_map (cons (byte_of_Z u)) (encode_ascii s')
      else None
  end.

(** What [Descriptor.__getitem__] raises. *)
Inductive getitem_error :=
| KeyError
| UnicodeEncodeError.

(** [Descriptor.__getitem__(self, key)] for a [bytes] key ([inl]) or a
    [str] key ([inr]): a [str] is encoded to ASCII, then [self.items] is
    looked up under the [bytes]. *)
Definition Descriptor_getitem {V} (items : list (Key * V))
  (key : bytes + ustr) : getitem_error + V :=
  match (match key with
         | inl b => Some b
         | inr s => encode_ascii s
         end) with
  | None => inl UnicodeEncodeError
  | Some b =>
      match dict_get Key_eqb (RawKey b) items with
      | Some v => inr v
      | None => inl KeyError
      end
  end.

(** * Vocabulary of the properties *)

Definition is_leaf (e : element) : bool :=
  match e with
  | descriptor_obj _ _ _ _ | list_obj _ _ => false
  | _ => true
  end.

(** What a writer does to a stream that already holds [out], told from
    what it does to an empty one. *)
Definition frame {A} (r : result (A * ostream)) (out : ostream)
  : result (A * ostream) :=
  match r with
  | Ok (a, bs) => Ok (a, out ++ bs)
  | Raise e => Raise e
  | OutOfFuel => OutOfFuel
  end.

(** A writer is uniform when it only appends, the same bytes whatever the
    stream holds. *)
Definition uniform {A} (m : M ostream A) : Prop :=
  forall out, m out = frame (m []) out.

(** A writer and a reader are a codec for [v] when the reader, run on
    what the writer wrote (whatever follows it), returns [v], consumes
    exactly those bytes and logs nothing. *)
Definition codec {A B} (m : M ostream A) (r : M istream B) (v : B) : Prop :=
  forall n bs, m [] = Ok (n, bs) ->
  forall rest lg, r (bs ++ rest, lg) = Ok (v, (rest, lg)).

(** A writer tallies from [w] when the number it returns is [w] plus the
    number of bytes it wrote. *)
Definition tally (w : Z) (m : M ostream Z) : Prop :=
  forall n bs, m [] = Ok (n, bs) -> n = w + len bs.

(** The value held by a key: [value.value] of a member, the bytes
    themselves otherwise. *)
Definition key_value (k : Key) : bytes :=
  match k with
  | ClassID value => value
  | RawKey value => value
  end.

(** The compact form of a 4-byte code: length 0, then the code. *)
Definition compact_form (code : bytes) : bytes := be_bytes 4 0 ++ code.

(** The long form of a key: its length, then its bytes. *)
Definition long_form (b : bytes) : bytes := be_bytes 4 (len b) ++ b.

(** The decoder that a registry holds for the 4 bytes of a tag, if any:
    the tag must be the value of an [OSType] member and that member a key
    of [TYPES]. *)
Definition dispatch (K : constants) {D} (TYPES_get' : OSType -> option D)
  (tag : bytes) : option D :=
  match find (fun t => bytes_eqb (OSType_value K t) tag) all_OSType with
  | Some t => TYPES_get' t
  | None => None
  end.

(** An instance of the constants, to run the codec on concrete streams:
    the type tags of the file format, one class identifier ([null]) and
    one unit ([#Pxl]). *)
Definition b4 (a b c d : byte) : bytes := [a; b; c; d].

Definition psd_OSType_value (t : OSType) : bytes :=
  match t with
  | REFERENCE => b4 "o" "b" "j" " "
  | DESCRIPTOR => b4 "O" "b" "j" "c"
  | LIST => b4 "V" "l" "L" "s"
  | DOUBLE => b4 "d" "o" "u" "b"
  | UNIT_FLOAT => b4 "U" "n" "t" "F"
  | UNIT_FLOATS => b4 "U" "n" "F" "l"
  | STRING => b4 "T" "E" "X" "T"
  | ENUMERATED => b4 "e" "n" "u" "m"
  | INTEGER => b4 "l" "o" "n" "g"
  | LARGE_INTEGER => b4 "c" "o" "m" "p"
  | BOOLEAN => b4 "b" "o" "o" "l"
  | GLOBAL_OBJECT => b4 "G" "l" "b" "O"
  | CLASS1 => b4 "t" "y" "p" "e"
  | CLASS2 => b4 "G" "l" "b" "C"
  | CLASS3 => b4 "C" "l" "s" "s"
  | ALIAS => b4 "a" "l" "i" "s"
  | RAW_DATA => b4 "t" "d" "t" "a"
  | OBJECT_ARRAY => b4 "O" "b" "A" "r"
  | PATH => b4 "P" "t" "h" " "
  | PROPERTY => b4 "p" "r" "o" "p"
  | ENUMERATED_REFERENCE => b4 "E" "n" "m" "r"
  | OFFSET => b4 "r" "e" "l" "e"
  | IDENTIFIER => b4 "I" "d" "n" "t"
  | INDEX => b4 "i" "n" "d" "x"
  | NAME => b4 "n" "a" "m" "e"
  end.

Definition psd : constants :=
  {| OSType_value := psd_OSType_value;
     DescriptorClassID_has := fun b => bytes_eqb b (b4 "n" "u" "l" "l");
     UnitFloatType_has := fun b => bytes_eqb b (b4 "#" "P" "x" "l") |}.

(** A registry that a caller of [register] could build: every tag is
    given one decoder, whose [read] returns [None] and reads nothing. *)
Definition none_registry : OSType -> option unit := fun _ => Some tt.
Definition none_decoder_read (_ : unit) : M istream (option element) :=
  ret None.
Definition is_None_option (v : option element) : bool :=
  match v with
  | None => true
  | Some _ => false
  end.

(** A stream that declares two entries under the one key [Nm  ]: an
    [Integer] 5, then a [Bool] true. *)
Definition repeated_key_stream : bytes :=
  be_bytes 4 0 ++ compact_form (b4 "n" "u" "l" "l") ++ be_bytes 4 2
    ++ long_form (b4 "N" "m" " " " ") ++ b4 "l" "o" "n" "g" ++ be_bytes 4 5
    ++ long_form (b4 "N" "m" " " " ") ++ b4 "b" "o" "o" "l" ++ [x01].

(** The wire layout of a text string: the count of code units, the
    units, and in the padded mode the zero bytes that bring the block to
    a multiple of 4. *)
Definition ustr_block (value : ustr) (padding : bool) : bytes :=
  be_bytes 4 (len value) ++ flat_map (be_bytes 2) value
    ++ (if padding then repeat x00 (pad4 (4 + 2 * len value)) else []).

(** A text string holds 16-bit code units. *)
Definition ustr_ok (value : ustr) : bool :=
  forallb (fun u => (0 <=? u) && (u <? 2 ^ 16)) value.

(** A float holds a 64-bit pattern. *)
Definition float_ok (value : Z) : bool := (0 <=? value) && (value <? 2 ^ 64).

(** A key that is a member of [DescriptorClassID] holds a value of the
    enumeration. *)
Definition member_ok (K : constants) (k : Key) : bool :=
  match k with
  | ClassID value => DescriptorClassID_has K value
  | RawKey _ => true
  end.

(** A [bytes] key that is not empty. *)
Definition nonempty_key (k : Key) : bool :=
  match k with
  | RawKey [] => false
  | _ => true
  end.

Fixpoint nodupb {A} (eqb : A -> A -> bool) (l : list A) : bool :=
  match l with
  | [] => true
  | a :: l' => negb (existsb (eqb a) l') && nodupb eqb l'
  end.

(** The invariants of a tree that Python builds: every instance has the
    fields of its class, enumeration members are members, text and floats
    are in range, and a dictionary holds each key once. *)
Fixpoint valid (K : constants) (e : element) : bool :=
  match e with
  | descriptor_obj cls name classID items =>
      pyclass_beq (method_owner cls) Descriptor && ustr_ok name
      && member_ok K classID && nodupb Key_eqb (map fst items)
      && forallb (fun kv => member_ok K (fst kv) && valid K (snd kv)) items
  | list_obj cls items =>
      pyclass_beq (method_owner cls) List && forallb (valid K) items
  | property_obj cls name classID keyID =>
      pyclass_beq (method_owner cls) Property && ustr_ok name
      && member_ok K classID && member_ok K keyID
  | unit_float_obj cls unit value =>
      pyclass_beq (method_owner cls) UnitFloat && UnitFloatType_has K unit
      && float_ok value
  | unit_floats_obj cls unit values =>
      pyclass_beq (method_owner cls) UnitFloats && UnitFloatType_has K unit
      && forallb float_ok values
  | double_obj cls value =>
      pyclass_beq (method_owner cls) Double && float_ok value
  | class_obj cls name classID =>
      pyclass_beq (method_owner cls) Class && ustr_ok name
      && member_ok K classID
  | string_obj cls value =>
      pyclass_beq (method_owner cls) String && ustr_ok value
  | enumerated_reference_obj cls name classID typeID enum =>
      pyclass_beq (method_owner cls) EnumeratedReference && ustr_ok name
      && member_ok K classID && member_ok K typeID && member_ok K enum
  | offset_obj cls name classID value =>
      pyclass_beq (method_owner cls) Offset && ustr_ok name
      && member_ok K classID
  | bool_obj cls value => pyclass_beq (method_owner cls) Bool
  | large_integer_obj cls value =>
      pyclass_beq (method_owner cls) LargeInteger
  | integer_obj cls value => pyclass_beq (method_owner cls) Integer
  | enum_obj cls typeID enum =>
      pyclass_beq (method_owner cls) Enum && member_ok K typeID
      && member_ok K enum
  | raw_data_obj cls value => pyclass_beq (method_owner cls) RawData
  end.

(** No [bytes] key of the tree is empty. *)
Fixpoint keys_nonempty (e : element) : bool :=
  match e with
  | descriptor_obj _ _ classID items =>
      nonempty_key classID
      && forallb (fun kv => nonempty_key (fst kv) && keys_nonempty (snd kv))
           items
  | list_obj _ items => forallb keys_nonempty items
  | property_obj _ _ classID keyID =>
      nonempty_key classID && nonempty_key keyID
  | class_obj _ _ classID => nonempty_key classID
  | enumerated_reference_obj _ _ classID typeID enum =>
      nonempty_key classID && nonempty_key typeID && nonempty_key enum
  | offset_obj _ _ classID _ => nonempty_key classID
  | enum_obj _ typeID enum => nonempty_key typeID && nonempty_key enum
  | _ => true
  end.

(** The nesting of containers in a tree. *)
Fixpoint depth (e : element) : nat :=
  match e with
  | descriptor_obj _ _ _ items =>
      S (fold_right (fun kv d => Nat.max (depth (snd kv)) d) O items)
  | list_obj _ items => S (fold_right (fun v d => Nat.max (depth v) d) O items)
  | _ => 1%nat
  end.

(** [e] with [cls] for its class. *)
Definition set_class (cls : pyclass) (e : element) : element :=
  match e with
  | descriptor_obj _ name classID items =>
      descriptor_obj cls name classID items
  | list_obj _ items => list_obj cls items
  | property_obj _ name classID keyID => property_obj cls name classID keyID
  | unit_float_obj _ unit value => unit_float_obj cls unit value
  | unit_floats_obj _ unit values => unit_floats_obj cls unit values
  | double_obj _ value => double_obj cls value
  | class_obj _ name classID => class_obj cls name classID
  | string_obj _ value => string_obj cls value
  | enumerated_reference_obj _ name classID typeID enum =>
      enumerated_reference_obj cls name classID typeID enum
  | offset_obj _ name classID value => offset_obj cls name classID value
  | bool_obj _ value => bool_obj cls value
  | large_integer_obj _ value => large_integer_obj cls value
  | integer_obj _ value => integer_obj cls value
  | enum_obj _ typeID enum => enum_obj cls typeID enum
  | raw_data_obj _ value => raw_data_obj cls value
  end.

(** The result of a reader, with the class of the element changed. *)
Definition with_class (cls : pyclass) (r : result (element * istream))
  : result (element * istream) :=
  match r with
  | Ok (e, s) => Ok (set_class cls e, s)
  | Raise x => Raise x
  | OutOfFuel => OutOfFuel
  end.

(** The classes registered as another shape under a tag of their own:
    the class, the class whose shape it has, its tag. *)
Definition alias_table : list (pyclass * pyclass * OSType) :=
  [(Class1, Class, CLASS1); (Class2, Class, CLASS2); (Class3, Class, CLASS3);
   (Reference, List, REFERENCE); (Alias, RawData, ALIAS);
   (Path, RawData, PATH); (GlobalObject, Descriptor, GLOBAL_OBJECT);
   (ObjectArray, Descriptor, OBJECT_ARRAY); (Identifier, Integer, IDENTIFIER);
   (Index, Integer, INDEX); (Name, String, NAME)].

(** The bytes of a key on the wire. *)
Definition key_form (k : Key) : bytes :=
  match k with
  | ClassID value => compact_form value
  | RawKey value => long_form value
  end.

(** What [e.write] writes, when it succeeds. *)
Definition body_bytes (K : constants) (e : element) : bytes :=
  match write K e [] with
  | Ok (_, bs) => bs
  | _ => []
  end.

(** One entry of a Descriptor on the wire: key, tag, body. *)
Definition entry_bytes (K : constants) (kv : Key * element) : bytes :=
  key_form (fst kv)
    ++ match element_ostype (snd kv) with
       | Some t => OSType_value K t
       | None => []
       end
    ++ body_bytes K (snd kv).

(** A Descriptor on the wire: padded name, classID, entry count,
    entries. *)
Definition Descriptor_layout (K : constants) (name : ustr) (classID : Key)
  (items : list (Key * element)) : bytes :=
  ustr_block name true ++ key_form classID ++ be_bytes 4 (len items)
    ++ flat_map (entry_bytes K) items.

(** A tree with two levels of containers, for the examples. *)
Definition sample_descriptor : element :=
  descriptor_obj Descriptor [] (ClassID (b4 "n" "u" "l" "l"))
    [(RawKey (b4 "N" "m" " " " "), string_obj String [76; 49]);
     (RawKey (b4 "a" "b" "c" "d"),
      list_obj List
        [integer_obj Integer 5; bool_obj Bool true; string_obj String [120];
         descriptor_obj GlobalObject [78] (RawKey [x01])
           [(ClassID (b4 "n" "u" "l" "l"), double_obj Double 1)]])].

(** The number of bytes still to be read. *)
Definition remaining (s : istream) : nat := length (fst s).

(** A reader is steady when it returns or raises, and what it leaves of
    the stream is no longer than what it was given. *)
Definition steady_at {A} (m : M istream A) (s : istream) : Prop :=
  match m s with
  | Ok (_, s') => (remaining s' <= remaining s)%nat
  | Raise _ => True
  | OutOfFuel => False
  end.

Definition steady {A} (m : M istream A) : Prop := forall s, steady_at m s.

(** Steady on the streams shorter than [n]. *)
Definition steady_below {A} (n : nat) (m : M istream A) : Prop :=
  forall s, (remaining s < n)%nat -> steady_at m s.

(** A reader is strict when it returns only after reading something. *)
Definition strict {A} (m : M istream A) : Prop :=
  forall s a s', m s = Ok (a, s') -> (remaining s' < remaining s)%nat.

(** One item of a List on the wire: tag, body. *)
Definition item_bytes (K : constants) (v : element) : bytes :=
  match element_ostype v with
  | Some t => OSType_value K t
  | None => []
  end ++ body_bytes K v.

(** A List on the wire: item count, items. *)
Definition List_layout (K : constants) (items : list element) : bytes :=
  be_bytes 4 (len items) ++ flat_map (item_bytes K) items.

(** A reader consumes [k] when, each time it returns, it has read at
    least [k] bytes off the front of the stream and has only added to the
    log. *)
Definition consumes {A} (k : nat) (m : M istream A) : Prop :=
  forall s a s',
    m s = Ok (a, s') ->
    exists c d,
      fst s = c ++ fst s' /\ (k <= length c)%nat /\ snd s' = snd s ++ d.

(** A key whose length fits the 4-byte length field. *)
Definition key_fits (k : Key) : bool :=
  match k with
  | ClassID _ => true
  | RawKey b => len b <? 2 ^ 32
  end.

(** The class of [v] has an [ostype]. *)
Definition has_tag (v : element) : bool :=
  match element_ostype v with
  | Some _ => true
  | None => false
  end.

(** What [write] asks of a tree: every length and integer fits its
    field, and every child of a container has a tag. *)
Fixpoint encodable (e : element) : bool :=
  match e with
  | descriptor_obj _ name classID items =>
      (len name <? 2 ^ 32) && key_fits classID && (len items <? 2 ^ 32)
      && forallb (fun kv => key_fits (fst kv)
                            && (has_tag (snd kv) && encodable (snd kv)))
           items
  | list_obj _ items =>
      (len items <? 2 ^ 32)
      && forallb (fun v => has_tag v && encodable v) items
  | property_obj _ name classID keyID =>
      (len name <? 2 ^ 32) && key_fits classID && key_fits keyID
  | unit_float_obj _ _ _ => true
  | unit_floats_obj _ _ values => len values <? 2 ^ 32
  | double_obj _ _ => true
  | class_obj _ name classID => (len name <? 2 ^ 32) && key_fits classID
  | string_obj _ value => len value <? 2 ^ 32
  | enumerated_reference_obj _ name classID typeID enum =>
      (len name <? 2 ^ 32) && key_fits classID && key_fits typeID
      && key_fits enum
  | offset_obj _ name classID value =>
      (len name <? 2 ^ 32) && key_fits classID
      && ((0 <=? value) && (value <? 2 ^ 32))
  | bool_obj _ _ => true
  | large_integer_obj _ value => (- 2 ^ 63 <=? value) && (value <? 2 ^ 63)
  | integer_obj _ value => (- 2 ^ 31 <=? value) && (value <? 2 ^ 31)
  | enum_obj _ typeID enum => key_fits typeID && key_fits enum
  | raw_data_obj _ value => len value <? 2 ^ 32
  end.

(** A writer succeeds when, on an empty stream, it returns. *)
Definition succeeds {A} (m : M ostream A) : Prop :=
  exists a bs, m [] = Ok (a, bs).

(** * Properties of the codec *)

(** ** Induction on elements *)

Section ElementInduction.
Variable P : element -> Prop.
Hypothesis Hdescriptor :
  forall cls name classID items,
    Forall (fun kv => P (snd kv)) items ->
    P (descriptor_obj cls name classID items).
Hypothesis Hlist :
  forall cls items, Forall P items -> P (list_obj cls items).
Hypothesis Hleaf : forall e, is_leaf e = true -> P e.

Fixpoint element_nested_ind (e : element) : P e :=
  match e as e0 return P e0 with
  | descriptor_obj cls name classID items =>
      Hdescriptor cls name classID items
        ((fix go (l : list (Key * element))
           : Forall (fun kv => P (snd kv)) l :=
            match l with
            | [] => Forall_nil _
            | kv :: l' =>
                Forall_cons kv (element_nested_ind (snd kv)) (go l')
            end) items)
  | list_obj cls items =>
      Hlist cls items
        ((fix go (l : list element) : Forall P l :=
            match l with
            | [] => Forall_nil _
            | v :: l' => Forall_cons v (element_nested_ind v) (go l')
            end) items)
  | x => Hleaf x eq_refl
  end.
End ElementInduction.

(** ** Bytes and integers *)

Lemma byte_to_of_Z z : 0 <= z < 256 -> byte_to_Z (byte_of_Z z) = z.
Proof.
  intros Hz. unfold byte_to_Z, byte_of_Z.
  rewrite Z.mod_small by lia.
  destruct (Byte.of_N (Z.to_N z)) as [b|] eqn:E.
  - apply Byte.to_of_N in E. rewrite E. lia.
  - apply Byte.of_N_None_iff in E. lia.
Qed.

Lemma le_bytes_length n v : length (le_bytes n v) = n.
Proof. revert v; induction n; simpl; intros; auto. Qed.

Lemma le_value_le_bytes n v :
  le_value (le_bytes n v) = v mod 256 ^ Z.of_nat n.
Proof.
  revert v; induction n; intros v.
  - simpl. now rewrite Z.mod_1_r.
  - cbn [le_bytes le_value].
    rewrite IHn, byte_to_of_Z by (apply Z.mod_pos_bound; lia).
    rewrite Nat2Z.inj_succ, Z.pow_succ_r by lia.
    rewrite Z.rem_mul_r by lia. lia.
Qed.

Lemma be_bytes_length n v : length (be_bytes n v) = n.
Proof. unfold be_bytes. now rewrite length_rev, le_bytes_length. Qed.

Lemma be_value_be_bytes n v :
  0 <= v < 256 ^ Z.of_nat n -> be_value (be_bytes n v) = v.
Proof.
  intros H. unfold be_value, be_bytes.
  rewrite rev_involutive, le_value_le_bytes. now apply Z.mod_small.
Qed.

Lemma len_app {A} (a b : list A) : len (a ++ b) = len a + len b.
Proof. unfold len. rewrite length_app. lia. Qed.

Lemma len_nonneg {A} (a : list A) : 0 <= len a.
Proof. unfold len. lia. Qed.

Lemma bytes_eqb_refl a : bytes_eqb a a = true.
Proof. unfold bytes_eqb. now destruct (bytes_eq_dec a a). Qed.

Lemma bytes_eqb_eq a b : bytes_eqb a b = true <-> a = b.
Proof.
  unfold bytes_eqb. destruct (bytes_eq_dec a b); split; congruence.
Qed.

Lemma Key_eqb_eq a b : Key_eqb a b = true <-> a = b.
Proof. unfold Key_eqb. destruct (Key_eq_dec a b); split; congruence. Qed.

(** ** Reading a known prefix *)

Lemma fp_read_app a rest lg n :
  length a = n -> fp_read n (a ++ rest, lg) = Ok (a, (rest, lg)).
Proof.
  intros <-. unfold fp_read. cbn [fst snd].
  rewrite firstn_app, Nat.sub_diag, firstn_all, firstn_O, app_nil_r.
  rewrite skipn_app, Nat.sub_diag, skipn_all. reflexivity.
Qed.

Lemma read_exact_app a rest lg n :
  length a = n -> read_exact n (a ++ rest, lg) = Ok (a, (rest, lg)).
Proof.
  intros H. unfold read_exact, bind. rewrite fp_read_app by exact H.
  rewrite H, Nat.eqb_refl. reflexivity.
Qed.

Lemma read_exact_short n s :
  (length (fst s) < n)%nat -> read_exact n s = Raise FormatError.
Proof.
  destruct s as [b lg]. cbn [fst]. intros H.
  unfold read_exact, bind, fp_read. cbn [fst snd].
  rewrite length_firstn.
  match goal with
  | |- context [Nat.eqb ?a ?b] => destruct (Nat.eqb_spec a b)
  end; [lia|reflexivity].
Qed.

(** ** Writers append *)

Lemma uniform_ret {A} (a : A) : uniform (ret a).
Proof. intros out. cbn. now rewrite app_nil_r. Qed.

Lemma uniform_raise {A} e : uniform (@raise ostream A e).
Proof. intros out. reflexivity. Qed.

Lemma uniform_write_bytes data : uniform (write_bytes data).
Proof. intros out. reflexivity. Qed.

Lemma uniform_bind {A B} (m : M ostream A) (k : A -> M ostream B) :
  uniform m -> (forall a, uniform (k a)) -> uniform (bind m k).
Proof.
  intros Hm Hk out. unfold bind. rewrite (Hm out).
  destruct (m []) as [[a bs]| |]; cbn; try reflexivity.
  rewrite (Hk a (out ++ bs)), (Hk a bs).
  destruct (k a []) as [[b cs]| |]; cbn; try reflexivity.
  now rewrite app_assoc.
Qed.

Lemma uniform_if {A} (b : bool) (m1 m2 : M ostream A) :
  uniform m1 -> uniform m2 -> uniform (if b then m1 else m2).
Proof. now destruct b. Qed.

Create HintDb uniform.
#[local] Hint Resolve uniform_ret uniform_raise uniform_write_bytes
  uniform_if : uniform.
#[local] Hint Extern 2 (uniform (bind _ _)) =>
  apply uniform_bind; [ | intro ] : uniform.

Lemma uniform_write_fmt_I v : uniform (write_fmt_I v).
Proof. unfold write_fmt_I. auto with uniform. Qed.

Lemma uniform_write_unicode_string v p :
  uniform (write_unicode_string v p).
Proof.
  unfold write_unicode_string. pose proof uniform_write_fmt_I.
  auto 8 with uniform.
Qed.

Lemma uniform_write_length_and_key k : uniform (write_length_and_key k).
Proof.
  pose proof uniform_write_fmt_I.
  destruct k; unfold write_length_and_key; auto 8 with uniform.
Qed.

Lemma uniform_write_length_block writer :
  uniform (write_length_block writer).
Proof.
  intros out. unfold write_length_block.
  destruct (writer []) as [[n body]| |]; try reflexivity.
  pose proof uniform_write_fmt_I.
  assert (U : uniform (w1 <- write_fmt_I n ;;
                       w2 <- write_bytes body ;; ret (w1 + w2)))
    by auto 8 with uniform.
  apply U.
Qed.

#[local] Hint Resolve uniform_write_fmt_I uniform_write_unicode_string
  uniform_write_length_and_key uniform_write_length_block : uniform.

Section ContainerWriters.
Variable K : constants.
Context {V : Type}.
Variable item_ostype : V -> option OSType.
Variable item_write : V -> M ostream Z.

Lemma uniform_ostype_value v : uniform (ostype_value K item_ostype v).
Proof. unfold ostype_value. destruct (item_ostype v); auto with uniform. Qed.

Lemma uniform_Descriptor_write_loop items :
  Forall (fun kv => uniform (item_write (snd kv))) items ->
  forall written,
    uniform (Descriptor_write_loop K item_ostype item_write items written).
Proof.
  pose proof uniform_ostype_value.
  induction 1 as [|[k v] items Hv _ IH]; intros written; cbn.
  - auto with uniform.
  - cbn in Hv. auto 10 with uniform.
Qed.

Lemma uniform_List_write_loop items :
  Forall (fun v => uniform (item_write v)) items ->
  forall written,
    uniform (List_write_loop K item_ostype item_write items written).
Proof.
  pose proof uniform_ostype_value.
  induction 1 as [|v items Hv _ IH]; intros written; cbn.
  - auto with uniform.
  - auto 10 with uniform.
Qed.
End ContainerWriters.

Lemma uniform_write K e : uniform (write K e).
Proof.
  induction e as [cls name classID items IH|cls items IH|e Hleaf]
    using element_nested_ind.
  - cbn. unfold Descriptor_write.
    pose proof (uniform_Descriptor_write_loop K element_ostype (write K)
                  items IH).
    auto 10 with uniform.
  - cbn. unfold List_write.
    pose proof (uniform_List_write_loop K element_ostype (write K)
                  items IH).
    auto 10 with uniform.
  - destruct e; try discriminate Hleaf; cbn;
      unfold Property_write, UnitFloat_write, UnitFloats_write,
        Double_write, Class_write, String_write,
        EnumeratedReference_write, Offset_write, Bool_write,
        LargeInteger_write, Integer_write, Enum_write, RawData_write,
        write_fmt_4sd, write_fmt_4sI_doubles, write_fmt_d, write_fmt_bool,
        write_fmt_q, write_fmt_i;
      auto 12 with uniform.
Qed.

(** ** The key codec *)

Lemma read_fmt_I_app hdr rest lg :
  length hdr = 4%nat ->
  read_fmt_I (hdr ++ rest, lg) = Ok (be_value hdr, (rest, lg)).
Proof.
  intros H. unfold read_fmt_I, bind. now rewrite read_exact_app.
Qed.

Lemma write_fmt_I_ok v out :
  0 <= v < 2 ^ 32 -> write_fmt_I v out = Ok (4, out ++ be_bytes 4 v).
Proof.
  intros H. unfold write_fmt_I.
  destruct (Z.leb_spec 0 v); [|lia].
  destruct (Z.ltb_spec v (2 ^ 32)); [|lia].
  cbn [andb]. unfold write_bytes, len. now rewrite be_bytes_length.
Qed.

Lemma write_fmt_I_inv v out n out' :
  write_fmt_I v out = Ok (n, out') ->
  0 <= v < 2 ^ 32 /\ n = 4 /\ out' = out ++ be_bytes 4 v.
Proof.
  unfold write_fmt_I.
  destruct (Z.leb_spec 0 v); destruct (Z.ltb_spec v (2 ^ 32));
    cbn [andb]; try discriminate.
  unfold write_bytes, len. rewrite be_bytes_length.
  intros E; inversion E; subst. repeat split; lia.
Qed.

Lemma write_length_and_key_member code out :
  write_length_and_key (ClassID code) out
  = Ok (4 + len code, out ++ compact_form code).
Proof.
  unfold write_length_and_key, bind, compact_form.
  rewrite write_fmt_I_ok by lia. unfold write_bytes, ret.
  now rewrite <- app_assoc.
Qed.

Lemma write_length_and_key_bytes b out :
  len b < 2 ^ 32 ->
  write_length_and_key (RawKey b) out = Ok (4 + len b, out ++ long_form b).
Proof.
  intros Hb. unfold write_length_and_key, bind, long_form.
  rewrite write_fmt_I_ok by (pose proof (len_nonneg b); lia).
  unfold write_bytes, ret. now rewrite <- app_assoc.
Qed.

(** C2, as the code has it: a member of the enumeration is written in the
    compact form; a [bytes] key is written in the long form, also when
    its bytes are the code of a member. *)
Theorem write_length_and_key_by_type :
  forall (code b : bytes) (out : ostream),
    write_length_and_key (ClassID code) out
      = Ok (4 + len code, out ++ compact_form code)
    /\ (len b < 2 ^ 32 ->
        write_length_and_key (RawKey b) out
          = Ok (4 + len b, out ++ long_form b)).
Proof.
  intros code b out. split.
  - apply write_length_and_key_member.
  - apply write_length_and_key_bytes.
Qed.

Lemma write_length_and_key_by_type_witness :
  write_length_and_key (RawKey (b4 "N" "m" " " " ")) []
  = Ok (8, long_form (b4 "N" "m" " " " ")).
Proof.
  apply (proj2 (write_length_and_key_by_type [] (b4 "N" "m" " " " ") [])).
  vm_compute. reflexivity.
Defined.

(** C2, as stated, fails: the [bytes] key [b'null'] holds the code of a
    member of the enumeration and is written in the long form. *)
Lemma write_length_and_key_not_canonical :
  ~ (forall (k : Key) (out : ostream),
       DescriptorClassID_has psd (key_value k) = true ->
       write_length_and_key k out
         = Ok (8, out ++ compact_form (key_value k))).
Proof.
  intros H.
  specialize (H (RawKey (b4 "n" "u" "l" "l")) [] eq_refl).
  vm_compute in H. discriminate H.
Qed.

Lemma read_length_and_key_unknown K hdr key rest lg :
  length hdr = 4%nat -> be_value hdr = 0 -> length key = 4%nat ->
  DescriptorClassID_has K key = false ->
  read_length_and_key K (hdr ++ key ++ rest, lg)
  = Ok (RawKey key, (rest, lg ++ [UnknownClassID key])).
Proof.
  intros Hhdr H0 Hkey Hno. unfold read_length_and_key, bind.
  rewrite read_fmt_I_app by exact Hhdr. rewrite H0. cbn [Z.eqb].
  rewrite fp_read_app by exact Hkey. rewrite Hno. reflexivity.
Qed.

Lemma read_length_and_key_sized K hdr key rest lg :
  length hdr = 4%nat -> be_value hdr <> 0 ->
  length key = Z.to_nat (be_value hdr) ->
  read_length_and_key K (hdr ++ key ++ rest, lg) = Ok (RawKey key, (rest, lg)).
Proof.
  intros Hhdr HL Hkey. unfold read_length_and_key, bind.
  rewrite read_fmt_I_app by exact Hhdr.
  destruct (Z.eqb_spec (be_value hdr) 0); [contradiction|].
  rewrite fp_read_app by exact Hkey. reflexivity.
Qed.

(** C4: a length of 0 followed by 4 bytes that are no member's code gives
    those bytes as a [bytes] key and one diagnostic, and the decode that
    called goes on; a length [L <> 0] gives the next [L] bytes. *)
Theorem read_length_and_key_fallback :
  forall (K : constants) (hdr key rest : bytes) (lg : list diagnostic),
    length hdr = 4%nat ->
    (be_value hdr = 0 -> length key = 4%nat ->
     DescriptorClassID_has K key = false ->
     read_length_and_key K (hdr ++ key ++ rest, lg)
       = Ok (RawKey key, (rest, lg ++ [UnknownClassID key]))
     /\ forall (B : Type) (k : Key -> M istream B),
         bind (read_length_and_key K) k (hdr ++ key ++ rest, lg)
         = k (RawKey key) (rest, lg ++ [UnknownClassID key]))
    /\ (be_value hdr <> 0 -> length key = Z.to_nat (be_value hdr) ->
        read_length_and_key K (hdr ++ key ++ rest, lg)
          = Ok (RawKey key, (rest, lg))).
Proof.
  intros K hdr key rest lg Hhdr. split.
  - intros H0 Hkey Hno.
    pose proof (read_length_and_key_unknown K hdr key rest lg
                  Hhdr H0 Hkey Hno) as E.
    split; [exact E|]. intros B k. unfold bind. now rewrite E.
  - intros HL Hkey. now apply read_length_and_key_sized.
Qed.

Lemma read_length_and_key_fallback_witness :
  read_length_and_key psd
    (be_bytes 4 0 ++ b4 "a" "b" "c" "d" ++ [x01], [])
  = Ok (RawKey (b4 "a" "b" "c" "d"),
        ([x01], [UnknownClassID (b4 "a" "b" "c" "d")]))
  /\ read_length_and_key psd (be_bytes 4 2 ++ ["h"; "i"]%byte ++ [x01], [])
     = Ok (RawKey ["h"; "i"]%byte, ([x01], [])).
Proof.
  split.
  - apply (read_length_and_key_fallback psd (be_bytes 4 0)
             (b4 "a" "b" "c" "d") [x01] []); reflexivity.
  - apply (read_length_and_key_fallback psd (be_bytes 4 2)
             ["h"; "i"]%byte [x01] []).
    + reflexivity.
    + vm_compute. discriminate.
    + reflexivity.
Defined.

(** ** Unregistered tags and [None] values *)

Section ContainerReaders.
Variable K : constants.
Context {D V : Type}.
Variable TYPES_get' : OSType -> option D.
Variable decoder_read : D -> M istream V.
Variable is_None : V -> bool.

Lemma OSType_call_dispatch tag (s : istream) :
  dispatch K TYPES_get' tag = None ->
  match OSType_call K tag s with
  | Ok (t, _) => TYPES_get' t = None
  | Raise e => e = ValueError
  | OutOfFuel => False
  end.
Proof.
  unfold dispatch, OSType_call.
  destruct (find _ all_OSType); cbn; auto.
Qed.

(** The first [i] turns of the loop, then the others. *)
Lemma Descriptor_read_loop_split i n :
  forall items s,
    Descriptor_read_loop K TYPES_get' decoder_read is_None (i + n) items s
    = match Descriptor_read_loop K TYPES_get' decoder_read is_None
              i items s with
      | Ok (items', s') =>
          Descriptor_read_loop K TYPES_get' decoder_read is_None
            n items' s'
      | Raise e => Raise e
      | OutOfFuel => OutOfFuel
      end.
Proof.
  induction i as [|i IH]; intros items s; [reflexivity|].
  cbn [Nat.add Descriptor_read_loop]. unfold bind.
  destruct (read_length_and_key K s) as [[key s1]| |]; try reflexivity.
  destruct (fp_read 4 s1) as [[tag s2]| |]; try reflexivity.
  destruct (OSType_call K tag s2) as [[t s3]| |]; try reflexivity.
  destruct (TYPES_get' t) as [d|]; try reflexivity.
  destruct (decoder_read d s3) as [[v s4]| |]; try reflexivity.
  destruct (is_None v); try reflexivity.
  apply IH.
Qed.

Lemma List_read_loop_split i n :
  forall items s,
    List_read_loop K TYPES_get' decoder_read (i + n) items s
    = match List_read_loop K TYPES_get' decoder_read i items s with
      | Ok (items', s') =>
          List_read_loop K TYPES_get' decoder_read n items' s'
      | Raise e => Raise e
      | OutOfFuel => OutOfFuel
      end.
Proof.
  induction i as [|i IH]; intros items s; [reflexivity|].
  cbn [Nat.add List_read_loop]. unfold bind.
  destruct (fp_read 4 s) as [[tag s2]| |]; try reflexivity.
  destruct (OSType_call K tag s2) as [[t s3]| |]; try reflexivity.
  destruct (TYPES_get' t) as [d|]; try reflexivity.
  destruct (decoder_read d s3) as [[v s4]| |]; try reflexivity.
  apply IH.
Qed.

Lemma Descriptor_read_loop_unknown_tag n items key s s1 :
  read_length_and_key K s = Ok (key, s1) ->
  dispatch K TYPES_get' (firstn 4 (fst s1)) = None ->
  Descriptor_read_loop K TYPES_get' decoder_read is_None (S n) items s
  = Raise ValueError.
Proof.
  intros Hkey Hno. cbn [Descriptor_read_loop]. unfold bind.
  rewrite Hkey. unfold fp_read.
  pose proof (OSType_call_dispatch (firstn 4 (fst s1))
                (skipn 4 (fst s1), snd s1) Hno) as H.
  destruct (OSType_call K (firstn 4 (fst s1)) _) as [[t s3]|e|].
  - cbv beta. destruct (TYPES_get' t); [discriminate H|reflexivity].
  - now subst e.
  - contradiction.
Qed.

Lemma List_read_loop_unknown_tag n items (s : istream) :
  dispatch K TYPES_get' (firstn 4 (fst s)) = None ->
  List_read_loop K TYPES_get' decoder_read (S n) items s
  = Raise ValueError.
Proof.
  intros Hno. cbn [List_read_loop]. unfold bind, fp_read.
  pose proof (OSType_call_dispatch (firstn 4 (fst s))
                (skipn 4 (fst s), snd s) Hno) as H.
  destruct (OSType_call K (firstn 4 (fst s)) _) as [[t s3]|e|].
  - cbv beta. destruct (TYPES_get' t); [discriminate H|reflexivity].
  - now subst e.
  - contradiction.
Qed.

(** C3: when the entries before it decode and an entry of a Descriptor
    (an item of a List) declares a tag that the registry does not hold,
    the decode raises [ValueError], the exception of the code for an
    unknown tag. *)
Theorem unknown_tag_rejected :
  forall (E : Type) (newD : ustr -> Key -> list (Key * V) -> E)
         (newL : list V -> E) (i : nat),
    (forall s name s1 classID s2 count s3 items si key st,
        read_unicode_string true s = Ok (name, s1) ->
        read_length_and_key K s1 = Ok (classID, s2) ->
        read_fmt_I s2 = Ok (count, s3) ->
        (i < Z.to_nat count)%nat ->
        Descriptor_read_loop K TYPES_get' decoder_read is_None i [] s3
          = Ok (items, si) ->
        read_length_and_key K si = Ok (key, st) ->
        dispatch K TYPES_get' (firstn 4 (fst st)) = None ->
        Descriptor_read K TYPES_get' decoder_read is_None newD s
        = Raise ValueError)
    /\ (forall s count s1 items si,
           read_fmt_I s = Ok (count, s1) ->
           (i < Z.to_nat count)%nat ->
           List_read_loop K TYPES_get' decoder_read i [] s1
             = Ok (items, si) ->
           dispatch K TYPES_get' (firstn 4 (fst si)) = None ->
           List_read K TYPES_get' decoder_read newL s = Raise ValueError).
Proof.
  intros E newD newL i. split.
  - intros s name s1 classID s2 count s3 items si key st
      Hname Hcls Hcount Hi Hloop Hkey Hno.
    unfold Descriptor_read, bind. rewrite Hname, Hcls, Hcount.
    replace (Z.to_nat count) with (i + S (Z.to_nat count - S i))%nat
      by lia.
    rewrite Descriptor_read_loop_split, Hloop.
    now rewrite (Descriptor_read_loop_unknown_tag _ _ key si st).
  - intros s count s1 items si Hcount Hi Hloop Hno.
    unfold List_read, bind. rewrite Hcount.
    replace (Z.to_nat count) with (i + S (Z.to_nat count - S i))%nat
      by lia.
    rewrite List_read_loop_split, Hloop.
    now rewrite List_read_loop_unknown_tag.
Qed.

(** C5, what the code does: when the decoder of an entry returns
    [None], the loop of [Descriptor.read] raises [NameError]; the
    entry is not recorded. *)
Theorem None_value_raises_NameError :
  forall n items s key (s1 : istream) d v s2,
    read_length_and_key K s = Ok (key, s1) ->
    dispatch K TYPES_get' (firstn 4 (fst s1)) = Some d ->
    decoder_read d (skipn 4 (fst s1), snd s1) = Ok (v, s2) ->
    is_None v = true ->
    Descriptor_read_loop K TYPES_get' decoder_read is_None (S n) items s
    = Raise NameError.
Proof.
  intros n items s key s1 d v s2 Hkey Hd Hv Hnone.
  cbn [Descriptor_read_loop]. unfold bind.
  rewrite Hkey. unfold fp_read at 1, OSType_call. cbv beta iota.
  unfold dispatch in Hd.
  destruct (find _ all_OSType) as [t|]; [|discriminate Hd].
  unfold ret at 1. rewrite Hd, Hv, Hnone. reflexivity.
Qed.
End ContainerReaders.

Lemma unknown_tag_rejected_witness :
  Descriptor_read psd TYPES_get (read psd 3) (fun _ => false)
    (new_Descriptor Descriptor)
    (be_bytes 4 0 ++ compact_form (b4 "n" "u" "l" "l") ++ be_bytes 4 2
       ++ long_form (b4 "N" "m" " " " ") ++ b4 "l" "o" "n" "g"
       ++ be_bytes 4 5
       ++ long_form (b4 "a" "b" "c" "d") ++ b4 "X" "X" "X" "X", [])
  = Raise ValueError
  /\ List_read psd TYPES_get (read psd 3) (list_obj List)
       (be_bytes 4 2 ++ b4 "b" "o" "o" "l" ++ [x01]
          ++ b4 "X" "X" "X" "X", [])
     = Raise ValueError.
Proof.
  split.
  - eapply (proj1 (unknown_tag_rejected psd TYPES_get (read psd 3)
                     (fun _ => false) element (new_Descriptor Descriptor)
                     (list_obj List) 1)).
    + vm_compute; reflexivity.
    + vm_compute; reflexivity.
    + vm_compute; reflexivity.
    + vm_compute; lia.
    + vm_compute; reflexivity.
    + vm_compute; reflexivity.
    + vm_compute; reflexivity.
  - eapply (proj2 (unknown_tag_rejected psd TYPES_get (read psd 3)
                     (fun _ => false) element (new_Descriptor Descriptor)
                     (list_obj List) 1)).
    + vm_compute; reflexivity.
    + vm_compute; lia.
    + vm_compute; reflexivity.
    + vm_compute; reflexivity.
Defined.

Lemma None_value_raises_NameError_witness :
  Descriptor_read_loop psd none_registry none_decoder_read is_None_option
    1 [] (long_form (b4 "N" "m" " " " ") ++ b4 "l" "o" "n" "g", [])
  = Raise NameError.
Proof.
  eapply (None_value_raises_NameError psd none_registry none_decoder_read
            is_None_option 0 []).
  - vm_compute; reflexivity.
  - vm_compute; reflexivity.
  - vm_compute; reflexivity.
  - reflexivity.
Defined.

(** ** Unit codes *)

(** C10: a unit code that is no member of [UnitFloatType] makes
    [UnitFloat.read] and [UnitFloats.read] fail: they never return an
    element, and once the fields are read the converter of [unit] raises
    [ValueError]. *)
Theorem unknown_unit_is_fatal :
  forall (K : constants) (cls : pyclass) (code rest : bytes)
         (lg : list diagnostic),
    length code = 4%nat ->
    UnitFloatType_has K code = false ->
    (forall r, UnitFloat_read K cls (code ++ rest, lg) <> Ok r)
    /\ (forall r, UnitFloats_read K cls (code ++ rest, lg) <> Ok r)
    /\ (forall fuel r,
           read K fuel UnitFloat (code ++ rest, lg) <> Ok r
           /\ read K fuel UnitFloats (code ++ rest, lg) <> Ok r)
    /\ ((8 <= length rest)%nat ->
        UnitFloat_read K cls (code ++ rest, lg) = Raise ValueError)
    /\ ((4 + 8 * Z.to_nat (be_value (firstn 4 rest)) <= length rest)%nat ->
        UnitFloats_read K cls (code ++ rest, lg) = Raise ValueError).
Proof.
  intros K cls code rest lg Hlen Hno.
  assert (F4 : forall data : bytes, firstn 4 (code ++ data) = code).
  { intros data. rewrite firstn_app, Hlen, Nat.sub_diag, firstn_O,
      app_nil_r. rewrite <- Hlen. apply firstn_all. }
  assert (U1 : forall c r, UnitFloat_read K c (code ++ rest, lg) <> Ok r).
  { intros c r. unfold UnitFloat_read, read_fmt_4sd, read_exact, bind,
      fp_read. cbn [fst snd].
    destruct (Nat.eqb _ 12); [|discriminate].
    unfold ret at 1. cbn [fst snd].
    rewrite firstn_firstn. change (Nat.min 4 12) with 4%nat. rewrite F4.
    unfold UnitFloatType_call, ret. cbn [fst snd]. rewrite Hno.
    discriminate. }
  assert (U2 : forall c r, UnitFloats_read K c (code ++ rest, lg) <> Ok r).
  { intros c r. unfold UnitFloats_read, read_fmt_4sI, read_exact, bind,
      fp_read at 1. cbn [fst snd].
    destruct (Nat.eqb _ 8); [|discriminate].
    unfold ret at 1. cbn [fst snd].
    rewrite firstn_firstn. change (Nat.min 4 8) with 4%nat. rewrite F4.
    unfold ret at 1. cbn [fst snd].
    destruct (read_fmt_doubles _ _) as [[vs s']| |]; try discriminate.
    unfold UnitFloatType_call. rewrite Hno. discriminate. }
  split; [apply U1|]. split; [apply U2|]. split; [|split].
  - intros fuel r. destruct fuel; cbn; split; try discriminate;
      [apply U1|apply U2].
  - intros Hrest. specialize (U1 cls).
    unfold UnitFloat_read, bind in *.
    destruct (read_fmt_4sd (code ++ rest, lg)) as [[uv s']|e|] eqn:E.
    + unfold UnitFloatType_call in *.
      destruct (UnitFloatType_has K (fst uv)); [|reflexivity].
      exfalso. eapply U1. reflexivity.
    + exfalso. unfold read_fmt_4sd, bind in E.
      rewrite <- (firstn_skipn 12 (code ++ rest)) in E.
      rewrite read_exact_app in E; [discriminate E|].
      rewrite length_firstn, length_app. lia.
    + unfold read_fmt_4sd, read_exact, bind, fp_read in E.
      destruct (Nat.eqb _ 12) in E; discriminate E.
  - intros Hrest.
    set (cnt := firstn 4 rest) in *. set (tl := skipn 4 rest).
    assert (Hcnt : length cnt = 4%nat)
      by (unfold cnt; rewrite length_firstn; lia).
    assert (E1 : read_fmt_4sI (code ++ rest, lg)
                 = Ok ((code, be_value cnt), (tl, lg))).
    { unfold read_fmt_4sI, bind.
      replace (code ++ rest) with ((code ++ cnt) ++ tl)
        by (rewrite <- app_assoc; unfold cnt, tl;
            now rewrite firstn_skipn).
      rewrite read_exact_app by (rewrite length_app; lia).
      unfold ret. rewrite F4, skipn_app, Hlen, Nat.sub_diag.
      rewrite <- Hlen, skipn_all. reflexivity. }
    assert (E2 : exists vs s', read_fmt_doubles (Z.to_nat (be_value cnt))
                                 (tl, lg) = Ok (vs, s')).
    { set (m := (8 * Z.to_nat (be_value cnt))%nat).
      assert (E : read_exact m (firstn m tl ++ skipn m tl, lg)
                  = Ok (firstn m tl, (skipn m tl, lg))).
      { apply read_exact_app. rewrite length_firstn. unfold tl.
        rewrite length_skipn. lia. }
      rewrite firstn_skipn in E.
      unfold read_fmt_doubles, bind. fold m. rewrite E.
      unfold ret. eauto. }
    destruct E2 as (vs & s' & E2).
    unfold UnitFloats_read, bind. rewrite E1. cbn [fst snd].
    rewrite E2. unfold UnitFloatType_call. now rewrite Hno.
Qed.

Lemma unknown_unit_is_fatal_witness :
  UnitFloat_read psd UnitFloat (b4 "A" "B" "C" "D" ++ be_bytes 8 0, [])
  = Raise ValueError.
Proof.
  apply (unknown_unit_is_fatal psd UnitFloat (b4 "A" "B" "C" "D")
           (be_bytes 8 0) []).
  - reflexivity.
  - reflexivity.
  - vm_compute. lia.
Defined.

(** ** Dictionaries keep one entry per key *)

Section DictFacts.
Context {A B : Type}.
Variable eqb : A -> A -> bool.
Hypothesis eqb_eq : forall a b, eqb a b = true <-> a = b.

Lemma eqb_neq a b : eqb a b = false <-> a <> b.
Proof.
  destruct (eqb a b) eqn:E.
  - apply eqb_eq in E. split; [discriminate|contradiction].
  - split; [|reflexivity]. intros _ H. apply eqb_eq in H. congruence.
Qed.

Lemma dict_set_keys k (v : B) d :
  map fst (dict_set eqb k v d)
  = if existsb (eqb k) (map fst d) then map fst d else map fst d ++ [k].
Proof.
  induction d as [|[k' v'] d IH]; [reflexivity|].
  cbn. destruct (eqb k k') eqn:E; cbn; [reflexivity|].
  rewrite IH. now destruct (existsb (eqb k) (map fst d)).
Qed.

Lemma dict_set_NoDup k (v : B) d :
  NoDup (map fst d) -> NoDup (map fst (dict_set eqb k v d)).
Proof.
  intros H. rewrite dict_set_keys.
  destruct (existsb (eqb k) (map fst d)) eqn:E; [exact H|].
  apply NoDup_app; [exact H|repeat constructor; intros []|].
  intros x Hx [Hkx|[]]. subst x.
  assert (existsb (eqb k) (map fst d) = true); [|congruence].
  apply existsb_exists. exists k. split; [exact Hx|now apply eqb_eq].
Qed.

Lemma dict_set_length k (v : B) d :
  (length (dict_set eqb k v d) <= S (length d))%nat.
Proof.
  induction d as [|[k' v'] d IH]; cbn; [lia|].
  destruct (eqb k k'); cbn; lia.
Qed.

Lemma dict_get_set k k' (v : B) d :
  dict_get eqb k (dict_set eqb k' v d)
  = if eqb k k' then Some v else dict_get eqb k d.
Proof.
  induction d as [|[k2 v2] d IH]; cbn.
  - reflexivity.
  - destruct (eqb k' k2) eqn:E2; cbn.
    + apply eqb_eq in E2; subst k2.
      now destruct (eqb k k').
    + rewrite IH. destruct (eqb k k') eqn:E1; [|reflexivity].
      apply eqb_eq in E1; subst k'. now rewrite E2.
Qed.

Lemma OrderedDict_fold_NoDup (items : list (A * B)) :
  forall d, NoDup (map fst d) ->
  NoDup (map fst (fold_left
                    (fun d kv => dict_set eqb (fst kv) (snd kv) d)
                    items d)).
Proof.
  induction items as [|[k v] items IH]; intros d Hd; cbn; [exact Hd|].
  apply IH. now apply dict_set_NoDup.
Qed.

Lemma OrderedDict_NoDup (items : list (A * B)) :
  NoDup (map fst (OrderedDict eqb items)).
Proof. apply OrderedDict_fold_NoDup. constructor. Qed.

Lemma OrderedDict_fold_length items :
  forall d : list (A * B),
    (length (fold_left (fun d kv => dict_set eqb (fst kv) (snd kv) d)
               items d) <= length d + length items)%nat.
Proof.
  induction items as [|[k v] items IH]; intros d; cbn; [lia|].
  specialize (IH (dict_set eqb k v d)).
  pose proof (dict_set_length k v d). lia.
Qed.

Lemma OrderedDict_length (items : list (A * B)) :
  (length (OrderedDict eqb items) <= length items)%nat.
Proof. apply (OrderedDict_fold_length items []). Qed.

Lemma OrderedDict_fold_get (items : list (A * B)) :
  forall d k, ~ In k (map fst items) ->
    dict_get eqb k (fold_left
                      (fun d kv => dict_set eqb (fst kv) (snd kv) d)
                      items d)
    = dict_get eqb k d.
Proof.
  induction items as [|[k' v'] items IH]; intros d k Hk; cbn;
    [reflexivity|].
  cbn in Hk. rewrite IH by tauto. rewrite dict_get_set.
  destruct (eqb k k') eqn:E; [|reflexivity].
  apply eqb_eq in E. subst. tauto.
Qed.

(** The last pair given for a key is the one the dictionary holds. *)
Lemma OrderedDict_last_wins (pre : list (A * B)) k v post :
  ~ In k (map fst post) ->
  dict_get eqb k (OrderedDict eqb (pre ++ (k, v) :: post)) = Some v.
Proof.
  intros Hk. unfold OrderedDict. rewrite fold_left_app. cbn.
  rewrite OrderedDict_fold_get by exact Hk.
  rewrite dict_get_set.
  now rewrite (proj2 (eqb_eq k k) eq_refl).
Qed.

(** Pairs with distinct keys are kept as they are. *)
Lemma OrderedDict_fold_id (items : list (A * B)) :
  forall d, NoDup (map fst (d ++ items)) ->
    fold_left (fun d kv => dict_set eqb (fst kv) (snd kv) d) items d
    = d ++ items.
Proof.
  induction items as [|[k v] items IH]; intros d Hd; cbn.
  - now rewrite app_nil_r.
  - assert (E : dict_set eqb k v d = d ++ [(k, v)]).
    { rewrite map_app in Hd. cbn in Hd.
      apply NoDup_remove_2 in Hd.
      assert (Hk : ~ In k (map fst d))
        by (intros H; apply Hd, in_or_app; now left).
      clear - Hk eqb_eq. induction d as [|[k' v'] d IH]; [reflexivity|].
      cbn in *. destruct (eqb k k') eqn:E.
      - apply eqb_eq in E. subst. tauto.
      - rewrite IH by tauto. reflexivity. }
    rewrite E. rewrite IH; rewrite <- app_assoc; [reflexivity|exact Hd].
Qed.

Lemma OrderedDict_id (items : list (A * B)) :
  NoDup (map fst items) -> OrderedDict eqb items = items.
Proof. intros H. apply (OrderedDict_fold_id items [] H). Qed.
End DictFacts.

(** ** Text strings and the two padding modes *)

Lemma flat_map_be_bytes_length n (vs : list Z) :
  length (flat_map (be_bytes n) vs) = (n * length vs)%nat.
Proof.
  induction vs as [|v vs IH]; cbn; [lia|].
  rewrite length_app, be_bytes_length, IH. lia.
Qed.

Lemma be_array_from_bytes_units (v : ustr) :
  ustr_ok v = true ->
  be_array_from_bytes (length v) (flat_map (be_bytes 2) v) = v.
Proof.
  induction v as [|u v IH]; [reflexivity|].
  cbn [ustr_ok forallb]. intros H.
  apply andb_true_iff in H. destruct H as [Hu Hv].
  apply andb_true_iff in Hu. destruct Hu as [H0 H1].
  apply Z.leb_le in H0. apply Z.ltb_lt in H1.
  cbn [length flat_map be_array_from_bytes].
  rewrite firstn_app, be_bytes_length, Nat.sub_diag, firstn_O, app_nil_r.
  rewrite <- (be_bytes_length 2 u) at 1. rewrite firstn_all.
  rewrite be_value_be_bytes by (change (256 ^ Z.of_nat 2) with (2 ^ 16); lia).
  rewrite skipn_app, be_bytes_length, Nat.sub_diag.
  rewrite <- (be_bytes_length 2 u) at 1. rewrite skipn_all.
  cbn [skipn app]. f_equal. apply IH, Hv.
Qed.

Lemma pad4_total n : 0 <= n -> (n + Z.of_nat (pad4 n)) mod 4 = 0.
Proof.
  intros H. unfold pad4. rewrite Z2Nat.id by (apply Z.mod_pos_bound; lia).
  Z.div_mod_to_equations. lia.
Qed.

Lemma ustr_block_length v p :
  len (ustr_block v p)
  = 4 + 2 * len v
    + (if p then Z.of_nat (pad4 (4 + 2 * len v)) else 0).
Proof.
  unfold ustr_block, len.
  rewrite !length_app, be_bytes_length, flat_map_be_bytes_length.
  destruct p; [rewrite repeat_length|cbn [length]]; lia.
Qed.

Lemma write_unicode_string_ok v p out :
  len v < 2 ^ 32 ->
  write_unicode_string v p out
  = Ok (len (ustr_block v p), out ++ ustr_block v p).
Proof.
  intros Hv. unfold write_unicode_string, bind.
  rewrite write_fmt_I_ok by (pose proof (len_nonneg v); lia).
  unfold write_bytes at 1. rewrite ustr_block_length.
  assert (L : len (flat_map (be_bytes 2) v) = 2 * len v).
  { unfold len. rewrite flat_map_be_bytes_length. lia. }
  rewrite L. unfold ustr_block.
  destruct p; unfold write_bytes, ret.
  - unfold len at 2. rewrite repeat_length.
    rewrite <- !app_assoc. reflexivity.
  - rewrite <- !app_assoc, app_nil_r. do 2 f_equal; lia.
Qed.

Lemma write_unicode_string_inv v p out n out' :
  write_unicode_string v p out = Ok (n, out') ->
  len v < 2 ^ 32 /\ n = len (ustr_block v p)
  /\ out' = out ++ ustr_block v p.
Proof.
  intros H.
  assert (Hv : len v < 2 ^ 32).
  { unfold write_unicode_string, bind in H.
    destruct (write_fmt_I (len v) out) as [[w o]| |] eqn:E;
      try discriminate H.
    apply write_fmt_I_inv in E. lia. }
  rewrite write_unicode_string_ok in H by exact Hv.
  inversion H. auto.
Qed.

Lemma read_unicode_string_block v p rest lg :
  ustr_ok v = true -> len v < 2 ^ 32 ->
  read_unicode_string p (ustr_block v p ++ rest, lg) = Ok (v, (rest, lg)).
Proof.
  intros Hok Hv. unfold read_unicode_string, ustr_block, bind.
  rewrite <- !app_assoc.
  rewrite read_fmt_I_app by apply be_bytes_length.
  rewrite be_value_be_bytes
    by (change (256 ^ Z.of_nat 4) with (2 ^ 32);
        pose proof (len_nonneg v); lia).
  assert (E : Z.to_nat (len v) = length v) by apply Nat2Z.id.
  rewrite !E.
  rewrite read_exact_app by apply flat_map_be_bytes_length.
  destruct p.
  - rewrite read_exact_app by apply repeat_length.
    unfold ret. now rewrite be_array_from_bytes_units.
  - cbn [app]. unfold ret. now rewrite be_array_from_bytes_units.
Qed.

Lemma read_length_and_key_long K b rest lg :
  b <> [] -> len b < 2 ^ 32 ->
  read_length_and_key K (long_form b ++ rest, lg) = Ok (RawKey b, (rest, lg)).
Proof.
  intros Hb Hlen. unfold long_form. rewrite <- app_assoc.
  assert (Hv : be_value (be_bytes 4 (len b)) = len b).
  { apply be_value_be_bytes. change (256 ^ Z.of_nat 4) with (2 ^ 32).
    pose proof (len_nonneg b). lia. }
  apply read_length_and_key_sized.
  - apply be_bytes_length.
  - rewrite Hv. unfold len. destruct b; [congruence|cbn; lia].
  - rewrite Hv. unfold len. now rewrite Nat2Z.id.
Qed.

Lemma read_length_and_key_compact K code rest lg :
  length code = 4%nat -> DescriptorClassID_has K code = true ->
  read_length_and_key K (compact_form code ++ rest, lg)
  = Ok (ClassID code, (rest, lg)).
Proof.
  intros Hlen Hhas. unfold compact_form, read_length_and_key, bind.
  rewrite <- app_assoc.
  rewrite read_fmt_I_app by apply be_bytes_length.
  change (be_value (be_bytes 4 0)) with 0. cbn [Z.eqb].
  rewrite fp_read_app by exact Hlen. now rewrite Hhas.
Qed.

(** C7: the text of a String and the name of a Descriptor are written
    and read as a block padded to a multiple of 4 bytes; the names of
    Property, Class, Offset and EnumeratedReference are written and read
    as the bare block, and the two keys of Enum carry no padding. *)
Theorem string_padding_modes :
  forall (K : constants) (cls : pyclass) (value : ustr),
    ustr_ok value = true -> len value < 2 ^ 32 ->
    len (ustr_block value true) mod 4 = 0
    /\ len (ustr_block value false) = 4 + 2 * len value
    /\ (forall out,
           String_write value out
           = Ok (len (ustr_block value true), out ++ ustr_block value true))
    /\ (forall rest lg,
           String_read cls (ustr_block value true ++ rest, lg)
           = Ok (string_obj cls value, (rest, lg)))
    /\ (forall V (ostype : V -> option OSType) (wr : V -> M ostream Z)
               classID (items : list (Key * V)) out,
           Descriptor_write K ostype wr value classID items out
           = (w1 <- write_length_and_key classID ;;
              w2 <- write_fmt_I (len items) ;;
              Descriptor_write_loop K ostype wr items
                (len (ustr_block value true) + w1 + w2))
               (out ++ ustr_block value true))
    /\ (forall D V (get : OSType -> option D) (rd : D -> M istream V)
               (isn : V -> bool)
               (new : ustr -> Key -> list (Key * V) -> element) rest lg,
           Descriptor_read K get rd isn new
             (ustr_block value true ++ rest, lg)
           = (classID <- read_length_and_key K ;;
              count <- read_fmt_I ;;
              items <- Descriptor_read_loop K get rd isn
                         (Z.to_nat count) [] ;;
              ret (new value classID items)) (rest, lg))
    /\ (forall classID keyID out rest lg,
           Property_write value classID keyID out
           = (w1 <- write_length_and_key classID ;;
              w2 <- write_length_and_key keyID ;;
              ret (len (ustr_block value false) + w1 + w2))
               (out ++ ustr_block value false)
           /\ Property_read K cls (ustr_block value false ++ rest, lg)
              = (classID <- read_length_and_key K ;;
                 keyID <- read_length_and_key K ;;
                 ret (property_obj cls value classID keyID)) (rest, lg))
    /\ (forall classID out rest lg,
           Class_write value classID out
           = (w <- write_length_and_key classID ;;
              ret (len (ustr_block value false) + w))
               (out ++ ustr_block value false)
           /\ Class_read K cls (ustr_block value false ++ rest, lg)
              = (classID <- read_length_and_key K ;;
                 ret (class_obj cls value classID)) (rest, lg))
    /\ (forall classID offset out rest lg,
           Offset_write value classID offset out
           = (w1 <- write_length_and_key classID ;;
              w2 <- write_fmt_I offset ;;
              ret (len (ustr_block value false) + w1 + w2))
               (out ++ ustr_block value false)
           /\ Offset_read K cls (ustr_block value false ++ rest, lg)
              = (classID <- read_length_and_key K ;;
                 offset <- read_fmt_I ;;
                 ret (offset_obj cls value classID offset)) (rest, lg))
    /\ (forall classID typeID enum out rest lg,
           EnumeratedReference_write value classID typeID enum out
           = (w1 <- write_length_and_key classID ;;
              w2 <- write_length_and_key typeID ;;
              w3 <- write_length_and_key enum ;;
              ret (len (ustr_block value false) + w1 + w2 + w3))
               (out ++ ustr_block value false)
           /\ EnumeratedReference_read K cls
                (ustr_block value false ++ rest, lg)
              = (classID <- read_length_and_key K ;;
                 typeID <- read_length_and_key K ;;
                 enum <- read_length_and_key K ;;
                 ret (enumerated_reference_obj cls value classID typeID
                        enum)) (rest, lg))
    /\ (forall a b out rest lg,
           a <> [] -> b <> [] -> len a < 2 ^ 32 -> len b < 2 ^ 32 ->
           Enum_write (RawKey a) (RawKey b) out
           = Ok (8 + len a + len b, out ++ long_form a ++ long_form b)
           /\ Enum_read K cls (long_form a ++ long_form b ++ rest, lg)
              = Ok (enum_obj cls (RawKey a) (RawKey b), (rest, lg))).
Proof.
  intros K cls value Hok Hlen.
  pose proof (len_nonneg value) as Hnn.
  split.
  { rewrite ustr_block_length. apply pad4_total. lia. }
  split. { rewrite ustr_block_length. lia. }
  split.
  { intros out. unfold String_write. now apply write_unicode_string_ok. }
  split.
  { intros rest lg. unfold String_read, bind.
    now rewrite read_unicode_string_block. }
  split.
  { intros. unfold Descriptor_write. unfold bind at 1.
    now rewrite write_unicode_string_ok. }
  split.
  { intros. unfold Descriptor_read. unfold bind at 1.
    now rewrite read_unicode_string_block. }
  split.
  { intros. split.
    - unfold Property_write. unfold bind at 1.
      now rewrite write_unicode_string_ok.
    - unfold Property_read. unfold bind at 1.
      now rewrite read_unicode_string_block. }
  split.
  { intros. split.
    - unfold Class_write. unfold bind at 1.
      now rewrite write_unicode_string_ok.
    - unfold Class_read. unfold bind at 1.
      now rewrite read_unicode_string_block. }
  split.
  { intros. split.
    - unfold Offset_write. unfold bind at 1.
      now rewrite write_unicode_string_ok.
    - unfold Offset_read. unfold bind at 1.
      now rewrite read_unicode_string_block. }
  split.
  { intros. split.
    - unfold EnumeratedReference_write. unfold bind at 1.
      now rewrite write_unicode_string_ok.
    - unfold EnumeratedReference_read. unfold bind at 1.
      now rewrite read_unicode_string_block. }
  intros a b out rest lg Ha Hb La Lb. split.
  - unfold Enum_write, bind.
    rewrite !write_length_and_key_bytes by assumption.
    unfold ret. rewrite <- app_assoc. do 2 f_equal. lia.
  - unfold Enum_read, bind.
    rewrite read_length_and_key_long by assumption.
    rewrite read_length_and_key_long by assumption. reflexivity.
Qed.

Lemma string_padding_modes_witness :
  len (ustr_block [120] true) mod 4 = 0
  /\ len (ustr_block [120] false) = 4 + 2 * len [120].
Proof.
  destruct (string_padding_modes psd String [120] eq_refl eq_refl)
    as (H1 & H2 & _).
  split; [exact H1|exact H2].
Defined.

(** ** Classes that reuse the shape of another *)

Ltac destruct_reads :=
  repeat match goal with
    | |- context [match ?m ?s with Ok _ => _ | Raise _ => _
                                | OutOfFuel => _ end] =>
        destruct (m s) as [[? ?]| |]; cbn [with_class set_class];
        try reflexivity
    end.

Lemma read_same_owner K a p fuel s :
  method_owner a = method_owner p ->
  read K fuel a s = with_class a (read K fuel p s).
Proof.
  intros H. destruct fuel as [|fuel]; [reflexivity|].
  cbn [read]. rewrite H.
  destruct (method_owner p); try reflexivity;
    unfold Descriptor_read, List_read, Property_read, UnitFloat_read,
      UnitFloats_read, Double_read, Class_read, String_read,
      EnumeratedReference_read, Offset_read, Bool_read, LargeInteger_read,
      Integer_read, Enum_read, RawData_read, bind;
    destruct_reads.
Qed.

Lemma write_set_class K cls e : write K (set_class cls e) = write K e.
Proof. destruct e; reflexivity. Qed.

Lemma psd_ok : constants_ok psd.
Proof.
  constructor.
  - intros t. now destruct t.
  - intros t u. destruct t, u; intros H; try reflexivity; discriminate H.
  - intros b H. apply bytes_eqb_eq in H. now subst b.
  - intros b H. apply bytes_eqb_eq in H. now subst b.
Qed.

(** ** The number that [write] returns *)

Lemma bind_Ok_inv {S A B} (m : M S A) (k : A -> M S B) s b s' :
  bind m k s = Ok (b, s') ->
  exists a s1, m s = Ok (a, s1) /\ k a s1 = Ok (b, s').
Proof.
  unfold bind. destruct (m s) as [[a s1]| |]; try discriminate. eauto.
Qed.

Lemma uniform_Ok_inv {A} (m : M ostream A) out a out' :
  uniform m -> m out = Ok (a, out') ->
  exists bs, m [] = Ok (a, bs) /\ out' = out ++ bs.
Proof.
  intros U H. rewrite (U out) in H.
  destruct (m []) as [[a0 bs]| |]; try discriminate H.
  inversion H; subst. eauto.
Qed.

Lemma tally_ret w w' : w = w' -> tally w (ret w').
Proof.
  intros -> n bs H. inversion H; subst. unfold len; cbn. lia.
Qed.

Lemma tally_raise w e : tally w (raise e).
Proof. intros n bs H. discriminate H. Qed.

Lemma tally_write_bytes data : tally 0 (write_bytes data).
Proof. intros n bs H. inversion H; subst. cbn. lia. Qed.

Lemma tally_if w (b : bool) m1 m2 :
  tally w m1 -> tally w m2 -> tally w (if b then m1 else m2).
Proof. now destruct b. Qed.

Lemma tally_bind w (m : M ostream Z) (k : Z -> M ostream Z) :
  tally 0 m -> (forall x, uniform (k x)) ->
  (forall x, tally (w + x) (k x)) -> tally w (bind m k).
Proof.
  intros Hm Uk Hk n bs H.
  apply bind_Ok_inv in H. destruct H as (x & bs1 & H1 & H2).
  apply (uniform_Ok_inv _ _ _ _ (Uk x)) in H2.
  destruct H2 as (bs2 & H2 & ->).
  apply Hm in H1. apply Hk in H2. rewrite len_app. lia.
Qed.

Create HintDb tally.
#[local] Hint Resolve tally_raise tally_write_bytes tally_if : tally.
#[local] Hint Extern 1 (tally _ (ret _)) => apply tally_ret; lia : tally.
#[local] Hint Extern 2 (tally _ (bind _ _)) =>
  apply tally_bind; [ | intro; auto 12 with uniform | intro ] : tally.

Lemma tally_write_fmt_I v : tally 0 (write_fmt_I v).
Proof. unfold write_fmt_I. auto with tally. Qed.

Lemma tally_write_unicode_string v p : tally 0 (write_unicode_string v p).
Proof.
  intros n bs H. apply write_unicode_string_inv in H.
  destruct H as (_ & -> & ->). cbn. lia.
Qed.

Lemma tally_write_length_and_key k : tally 0 (write_length_and_key k).
Proof.
  pose proof tally_write_fmt_I.
  destruct k; unfold write_length_and_key; auto 8 with tally.
Qed.

Lemma tally_write_length_block writer :
  tally 0 writer -> tally 0 (write_length_block writer).
Proof.
  intros Hw n bs H. unfold write_length_block in H.
  destruct (writer []) as [[w body]| |] eqn:E; try discriminate H.
  pose proof tally_write_fmt_I.
  assert (T : tally 0 (w1 <- write_fmt_I w ;;
                       w2 <- write_bytes body ;; ret (w1 + w2)))
    by auto 8 with tally.
  now apply T.
Qed.

#[local] Hint Resolve tally_write_fmt_I tally_write_unicode_string
  tally_write_length_and_key tally_write_length_block : tally.

Section ContainerTally.
Variable K : constants.
Context {V : Type}.
Variable item_ostype : V -> option OSType.
Variable item_write : V -> M ostream Z.
Hypothesis item_uniform : forall v, uniform (item_write v).

Lemma uniform_Descriptor_write_loop_any items written :
  uniform (Descriptor_write_loop K item_ostype item_write items written).
Proof.
  apply uniform_Descriptor_write_loop. apply Forall_forall. auto.
Qed.

Lemma tally_tag v :
  tally 0 (tag <- ostype_value K item_ostype v ;; write_bytes tag).
Proof.
  intros n bs H. unfold bind, ostype_value in H.
  destruct (item_ostype v); [|discriminate H].
  cbn in H. inversion H; subst. lia.
Qed.

Lemma tally_Descriptor_write_loop items :
  Forall (fun kv => tally 0 (item_write (snd kv))) items ->
  forall written,
    tally written
      (Descriptor_write_loop K item_ostype item_write items written).
Proof.
  induction 1 as [|[k v] items Hv _ IH]; intros written;
    cbn [Descriptor_write_loop].
  - auto with tally.
  - cbn in Hv. intros n bs H.
    apply bind_Ok_inv in H. destruct H as (w1 & o1 & H1 & H).
    apply bind_Ok_inv in H. destruct H as (tag & o2 & H2 & H).
    apply bind_Ok_inv in H. destruct H as (w2 & o3 & H3 & H).
    apply bind_Ok_inv in H. destruct H as (w3 & o4 & H4 & H).
    apply tally_write_length_and_key in H1.
    unfold ostype_value in H2.
    destruct (item_ostype v); [|discriminate H2].
    inversion H2; subst tag o2; clear H2.
    inversion H3; subst w2 o3; clear H3.
    apply (uniform_Ok_inv _ _ _ _ (item_uniform v)) in H4.
    destruct H4 as (b4 & H4 & ->). apply Hv in H4.
    apply (uniform_Ok_inv _ _ _ _
             (uniform_Descriptor_write_loop_any items _)) in H.
    destruct H as (b5 & H & ->). apply IH in H.
    rewrite !len_app. lia.
Qed.

Lemma tally_List_write_loop items :
  Forall (fun v => tally 0 (item_write v)) items ->
  forall written,
    tally written (List_write_loop K item_ostype item_write items written).
Proof.
  induction 1 as [|v items Hv Hall IH]; intros written;
    cbn [List_write_loop].
  - auto with tally.
  - intros n bs H.
    apply bind_Ok_inv in H. destruct H as (w1 & o1 & H1 & H).
    apply bind_Ok_inv in H. destruct H as (w2 & o2 & H2 & H).
    apply tally_tag in H1.
    apply (uniform_Ok_inv _ _ _ _ (item_uniform v)) in H2.
    destruct H2 as (b2 & H2 & ->). apply Hv in H2.
    assert (U : uniform (List_write_loop K item_ostype item_write items
                           (written + w1 + w2))).
    { apply uniform_List_write_loop. apply Forall_forall. auto. }
    apply (uniform_Ok_inv _ _ _ _ U) in H.
    destruct H as (b3 & H & ->). apply IH in H.
    rewrite !len_app. lia.
Qed.
End ContainerTally.

Lemma tally_write K e : tally 0 (write K e).
Proof.
  induction e as [cls name classID items IH|cls items IH|e Hleaf]
    using element_nested_ind.
  - cbn [write]. unfold Descriptor_write.
    pose proof (tally_Descriptor_write_loop K element_ostype (write K)
                  (uniform_write K) items IH) as T.
    pose proof (uniform_Descriptor_write_loop_any K element_ostype
                  (write K) (uniform_write K) items) as U.
    apply tally_bind; [auto with tally|intro; auto 12 with uniform|intro].
    apply tally_bind; [auto with tally|intro; auto 12 with uniform|intro].
    apply tally_bind; [auto with tally|intro; auto 12 with uniform|intro].
    replace (0 + x + x0 + x1) with (x + x0 + x1) by lia. apply T.
  - cbn [write]. unfold List_write.
    pose proof (tally_List_write_loop K element_ostype (write K)
                  (uniform_write K) items IH) as T.
    apply tally_bind; [auto with tally| |intro].
    + intro. apply uniform_List_write_loop. apply Forall_forall.
      intros; apply uniform_write.
    + replace (0 + x) with x by lia. apply T.
  - destruct e; try discriminate Hleaf; cbn [write];
      unfold Property_write, UnitFloat_write, UnitFloats_write,
        Double_write, Class_write, String_write,
        EnumeratedReference_write, Offset_write, Bool_write,
        LargeInteger_write, Integer_write, Enum_write, RawData_write,
        write_fmt_4sd, write_fmt_4sI_doubles, write_fmt_d, write_fmt_bool,
        write_fmt_q, write_fmt_i;
      auto 12 with tally.
Qed.

Lemma write_length_and_key_inv k out n out' :
  write_length_and_key k out = Ok (n, out') ->
  out' = out ++ key_form k
  /\ match k with
     | ClassID _ => True
     | RawKey b => len b < 2 ^ 32
     end.
Proof.
  destruct k as [code|b]; intros H.
  - rewrite write_length_and_key_member in H. inversion H; subst. auto.
  - assert (Hb : len b < 2 ^ 32).
    { cbn [write_length_and_key] in H. apply bind_Ok_inv in H.
      destruct H as (w & o & H & _). apply write_fmt_I_inv in H. lia. }
    rewrite write_length_and_key_bytes in H by exact Hb.
    inversion H; subst. auto.
Qed.

Lemma write_body_bytes K e out n out' :
  write K e out = Ok (n, out') -> out' = out ++ body_bytes K e.
Proof.
  intros H. apply (uniform_Ok_inv _ _ _ _ (uniform_write K e)) in H.
  destruct H as (bs & H & ->). unfold body_bytes. now rewrite H.
Qed.

Lemma Descriptor_write_loop_layout K items :
  forall written out n out',
    Descriptor_write_loop K element_ostype (write K) items written out
    = Ok (n, out') ->
    out' = out ++ flat_map (entry_bytes K) items.
Proof.
  induction items as [|[k v] items IH]; intros written out n out' H;
    cbn [Descriptor_write_loop flat_map] in *.
  - inversion H. now rewrite app_nil_r.
  - apply bind_Ok_inv in H. destruct H as (w1 & o1 & H1 & H).
    apply bind_Ok_inv in H. destruct H as (tag & o2 & H2 & H).
    apply bind_Ok_inv in H. destruct H as (w2 & o3 & H3 & H).
    apply bind_Ok_inv in H. destruct H as (w3 & o4 & H4 & H).
    apply write_length_and_key_inv in H1. destruct H1 as [-> _].
    unfold entry_bytes. cbn [fst snd]. unfold ostype_value in H2.
    destruct (element_ostype v); [|discriminate H2].
    inversion H2; subst tag o2; clear H2.
    inversion H3; subst w2 o3; clear H3.
    apply write_body_bytes in H4. subst o4.
    apply IH in H. subst out'. now rewrite <- !app_assoc.
Qed.

Lemma Descriptor_write_layout K cls name classID items out n out' :
  write K (descriptor_obj cls name classID items) out = Ok (n, out') ->
  out' = out ++ Descriptor_layout K name classID items.
Proof.
  intros H0. cbn [write] in H0. unfold Descriptor_write in H0.
  apply bind_Ok_inv in H0. destruct H0 as (w0 & o0 & H1 & H0).
  apply bind_Ok_inv in H0. destruct H0 as (w1 & o1 & H2 & H0).
  apply bind_Ok_inv in H0. destruct H0 as (w2 & o2 & H3 & H0).
  apply write_unicode_string_inv in H1. destruct H1 as (_ & _ & ->).
  apply write_length_and_key_inv in H2. destruct H2 as [-> _].
  apply write_fmt_I_inv in H3. destruct H3 as (_ & _ & ->).
  apply Descriptor_write_loop_layout in H0. rewrite H0.
  unfold Descriptor_layout. now rewrite <- !app_assoc.
Qed.

(** C8: what [write] returns is the number of bytes it appended to the
    stream; for a Descriptor these are the padded name, the classID, the
    entry count and, for each entry, its key, its tag and its body. *)
Theorem write_returns_bytes_written :
  forall (K : constants) (e : element) (out out' : ostream) (n : Z),
    write K e out = Ok (n, out') ->
    (exists bs, out' = out ++ bs /\ n = len bs)
    /\ len out' = len out + n
    /\ forall cls name classID items,
         e = descriptor_obj cls name classID items ->
         out' = out ++ Descriptor_layout K name classID items
         /\ n = len (Descriptor_layout K name classID items).
Proof.
  intros K e out out' n H.
  pose proof H as H0.
  apply (uniform_Ok_inv _ _ _ _ (uniform_write K e)) in H.
  destruct H as (bs & H & ->). apply tally_write in H.
  split; [exists bs; split; [reflexivity|lia]|].
  split; [rewrite len_app; lia|].
  intros cls name classID items ->.
  pose proof (Descriptor_write_layout _ _ _ _ _ _ _ _ H0) as E.
  split; [exact E|]. apply app_inv_head in E. subst bs. lia.
Qed.

Lemma write_returns_bytes_written_witness :
  exists bs, body_bytes psd sample_descriptor = [] ++ bs /\ 118 = len bs.
Proof.
  apply (write_returns_bytes_written psd sample_descriptor []
           (body_bytes psd sample_descriptor) 118).
  vm_compute. reflexivity.
Defined.

(** ** Writers and readers that undo each other *)

Lemma bind_nil_inv {A B} (m : M ostream A) (k : A -> M ostream B) b bs :
  (forall a, uniform (k a)) ->
  bind m k [] = Ok (b, bs) ->
  exists a bs1 bs2,
    m [] = Ok (a, bs1) /\ k a [] = Ok (b, bs2) /\ bs = bs1 ++ bs2.
Proof.
  intros U H. apply bind_Ok_inv in H. destruct H as (a & bs1 & H1 & H2).
  apply (uniform_Ok_inv _ _ _ _ (U a)) in H2.
  destruct H2 as (bs2 & H2 & ->). eauto 6.
Qed.

Lemma write_bytes_inv data out n out' :
  write_bytes data out = Ok (n, out') -> n = len data /\ out' = out ++ data.
Proof. intros H. inversion H. auto. Qed.

Lemma ret_inv {S A} (a b : A) (s s' : S) :
  ret a s = Ok (b, s') -> b = a /\ s' = s.
Proof. intros H. inversion H. auto. Qed.

Lemma codec_ret {A B} (a : A) (v : B) : codec (ret a) (ret v) v.
Proof. intros n bs H rest lg. inversion H; subst. reflexivity. Qed.

Lemma codec_raise {A B} e (r : M istream B) v :
  codec (@raise ostream A e) r v.
Proof. intros n bs H. discriminate H. Qed.

Lemma codec_bind {A B C D} (m1 : M ostream A) (k1 : A -> M ostream B)
  (r1 : M istream C) (k2 : C -> M istream D) (v1 : C) (v : D) :
  codec m1 r1 v1 -> (forall a, uniform (k1 a)) ->
  (forall a, codec (k1 a) (k2 v1) v) ->
  codec (bind m1 k1) (bind r1 k2) v.
Proof.
  intros H1 U H2 n bs H rest lg.
  apply bind_nil_inv in H; [|exact U].
  destruct H as (a & bs1 & bs2 & Hm & Hk & ->).
  rewrite <- app_assoc. unfold bind.
  rewrite (H1 _ _ Hm). now apply (H2 a _ _ Hk).
Qed.

(** The reader may rebuild the value from what it read. *)
Lemma codec_map {A C D} (m : M ostream A) (r : M istream C) (f : C -> D)
  (v1 : C) (v : D) :
  codec m r v1 -> f v1 = v -> codec m (x <- r ;; ret (f x)) v.
Proof.
  intros H1 <- n bs H rest lg. unfold bind. now rewrite (H1 _ _ H).
Qed.

Lemma codec_write_fmt_I v : codec (write_fmt_I v) read_fmt_I v.
Proof.
  intros n bs H rest lg. apply write_fmt_I_inv in H.
  destruct H as (Hv & _ & ->). cbn [app].
  rewrite read_fmt_I_app by apply be_bytes_length.
  now rewrite be_value_be_bytes.
Qed.

Lemma codec_write_unicode_string v p :
  ustr_ok v = true ->
  codec (write_unicode_string v p) (read_unicode_string p) v.
Proof.
  intros Hok n bs H rest lg. apply write_unicode_string_inv in H.
  destruct H as (Hv & _ & ->). cbn [app].
  now apply read_unicode_string_block.
Qed.

Lemma codec_write_length_and_key K k :
  constants_ok K -> member_ok K k = true -> nonempty_key k = true ->
  codec (write_length_and_key k) (read_length_and_key K) k.
Proof.
  intros HK Hm Hne n bs H rest lg.
  apply write_length_and_key_inv in H. destruct H as [-> Hlen].
  cbn [app]. destruct k as [code|b]; cbn [key_form].
  - cbn in Hm. apply read_length_and_key_compact; [|exact Hm].
    now apply (DescriptorClassID_length K HK).
  - apply read_length_and_key_long; [|exact Hlen].
    destruct b; [discriminate Hne|discriminate].
Qed.

Lemma to_signed_unsigned w v :
  0 < w -> - 2 ^ (w - 1) <= v < 2 ^ (w - 1) ->
  to_signed w (to_unsigned w v) = v.
Proof.
  intros Hw Hv. unfold to_signed, to_unsigned.
  assert (E : 2 ^ w = 2 * 2 ^ (w - 1)).
  { rewrite <- Z.pow_succ_r by lia. f_equal. lia. }
  pose proof (Z.pow_pos_nonneg 2 (w - 1) ltac:(lia) ltac:(lia)) as Hp.
  destruct (Z.le_gt_cases 0 v) as [Hpos|Hneg].
  - rewrite Z.mod_small by lia.
    destruct (Z.ltb_spec v (2 ^ (w - 1))); lia.
  - replace (v mod 2 ^ w) with (v + 2 ^ w).
    + destruct (Z.ltb_spec (v + 2 ^ w) (2 ^ (w - 1))); lia.
    + apply Z.mod_unique with (q := -1); lia.
Qed.

Lemma to_unsigned_range w v : 0 < w -> 0 <= to_unsigned w v < 2 ^ w.
Proof.
  intros Hw. unfold to_unsigned. apply Z.mod_pos_bound.
  apply Z.pow_pos_nonneg; lia.
Qed.

Lemma read_be_block {B} n (f : Z -> B) v rest lg :
  0 <= v < 256 ^ Z.of_nat n ->
  (data <- read_exact n ;; ret (f (be_value data)))
    (be_bytes n v ++ rest, lg)
  = Ok (f v, (rest, lg)).
Proof.
  intros Hv. unfold bind.
  rewrite read_exact_app by apply be_bytes_length.
  unfold ret. now rewrite be_value_be_bytes.
Qed.

Lemma codec_write_fmt_i v : codec (write_fmt_i v) read_fmt_i v.
Proof.
  intros n bs H rest lg. unfold write_fmt_i in H.
  destruct (Z.leb_spec (- 2 ^ 31) v); destruct (Z.ltb_spec v (2 ^ 31));
    cbn [andb] in H; try discriminate H.
  inversion H; subst. cbn [app]. unfold read_fmt_i.
  rewrite (read_be_block 4 (to_signed 32))
    by (apply (to_unsigned_range 32); lia).
  rewrite to_signed_unsigned by (cbn; lia). reflexivity.
Qed.

Lemma codec_write_fmt_q v : codec (write_fmt_q v) read_fmt_q v.
Proof.
  intros n bs H rest lg. unfold write_fmt_q in H.
  destruct (Z.leb_spec (- 2 ^ 63) v); destruct (Z.ltb_spec v (2 ^ 63));
    cbn [andb] in H; try discriminate H.
  inversion H; subst. cbn [app]. unfold read_fmt_q.
  rewrite (read_be_block 8 (to_signed 64))
    by (apply (to_unsigned_range 64); lia).
  rewrite to_signed_unsigned by (cbn; lia). reflexivity.
Qed.

Lemma codec_write_fmt_bool v : codec (write_fmt_bool v) read_fmt_bool v.
Proof.
  intros n bs H rest lg. inversion H; subst. cbn [app].
  unfold read_fmt_bool.
  rewrite (read_be_block 1 (fun z => negb (z =? 0)))
    by (destruct v; cbn; lia).
  now destruct v.
Qed.

Lemma float_ok_range v : float_ok v = true -> 0 <= v < 256 ^ Z.of_nat 8.
Proof.
  unfold float_ok. intros H. apply andb_true_iff in H.
  destruct H as [H0 H1]. apply Z.leb_le in H0. apply Z.ltb_lt in H1.
  change (256 ^ Z.of_nat 8) with (2 ^ 64). lia.
Qed.

Lemma codec_write_fmt_d v :
  float_ok v = true -> codec (write_fmt_d v) read_fmt_d v.
Proof.
  intros Hv n bs H rest lg. inversion H; subst. cbn [app].
  unfold read_fmt_d.
  now rewrite (read_be_block 8 (fun z => z)) by now apply float_ok_range.
Qed.

Lemma codec_write_length_block value :
  codec (write_length_block (write_bytes value)) read_length_block value.
Proof.
  intros n bs H rest lg. unfold write_length_block in H.
  cbn [write_bytes app] in H.
  apply bind_Ok_inv in H. destruct H as (w1 & o1 & H1 & H).
  apply write_fmt_I_inv in H1. destruct H1 as (Hv & _ & ->).
  apply bind_Ok_inv in H. destruct H as (w2 & o2 & H2 & H).
  apply write_bytes_inv in H2. destruct H2 as [_ ->].
  apply ret_inv in H. destruct H as [_ ->].
  rewrite app_nil_l, <- app_assoc.
  unfold read_length_block, bind.
  rewrite read_fmt_I_app by apply be_bytes_length.
  rewrite be_value_be_bytes by exact Hv.
  apply read_exact_app. unfold len. now rewrite Nat2Z.id.
Qed.

Lemma pack_4s_id b : length b = 4%nat -> pack_4s b = b.
Proof.
  intros H. unfold pack_4s.
  rewrite firstn_app, H, Nat.sub_diag, firstn_O, app_nil_r.
  rewrite <- H. apply firstn_all.
Qed.

Lemma unpack_doubles_values (vs : list Z) :
  forallb float_ok vs = true ->
  unpack_doubles (length vs) (flat_map (be_bytes 8) vs) = vs.
Proof.
  induction vs as [|v vs IH]; [reflexivity|].
  cbn [forallb]. intros H. apply andb_true_iff in H. destruct H as [Hv Hvs].
  cbn [length flat_map unpack_doubles].
  rewrite firstn_app, be_bytes_length, Nat.sub_diag, firstn_O, app_nil_r.
  rewrite <- (be_bytes_length 8 v) at 1. rewrite firstn_all.
  rewrite be_value_be_bytes by now apply float_ok_range.
  rewrite skipn_app, be_bytes_length, Nat.sub_diag.
  rewrite <- (be_bytes_length 8 v) at 1. rewrite skipn_all.
  cbn [skipn app]. f_equal. apply IH, Hvs.
Qed.

(** ** The registry finds the class of each tag it wrote *)

Lemma find_unique {A} (f : A -> bool) (l : list A) (t : A) :
  In t l -> f t = true -> (forall x, f x = true -> x = t) ->
  find f l = Some t.
Proof.
  intros Hin Ht Hu. induction l as [|x l IH]; [contradiction|].
  cbn. destruct (f x) eqn:E.
  - f_equal. now apply Hu.
  - destruct Hin as [->|Hin]; [congruence|now apply IH].
Qed.

Lemma all_OSType_complete t : In t all_OSType.
Proof.
  destruct t; cbn; repeat (try (left; reflexivity); right).
Qed.

Lemma OSType_call_value K t (s : istream) :
  constants_ok K -> OSType_call K (OSType_value K t) s = Ok (t, s).
Proof.
  intros HK. unfold OSType_call.
  rewrite (find_unique _ all_OSType t); [reflexivity| | |].
  - apply all_OSType_complete.
  - apply bytes_eqb_refl.
  - intros x H. apply bytes_eqb_eq in H.
    now apply (OSType_value_inj K HK).
Qed.

Lemma TYPES_get_ostype cls t :
  getattr_ostype cls = Some t -> TYPES_get t = Some cls.
Proof.
  destruct cls; vm_compute; intros H; inversion H; reflexivity.
Qed.

Lemma pyclass_beq_eq a b : pyclass_beq a b = true -> a = b.
Proof. apply internal_pyclass_dec_bl. Qed.

(** ** Round trip of the scalar and structural variants *)

Create HintDb codec.
#[local] Hint Resolve codec_write_fmt_I codec_write_unicode_string
  codec_write_length_and_key codec_write_fmt_i codec_write_fmt_q
  codec_write_fmt_bool codec_write_fmt_d codec_write_length_block : codec.

Ltac split_andb :=
  repeat match goal with
    | H : andb _ _ = true |- _ =>
        apply andb_true_iff in H; destruct H
    end.

Ltac codec_chain :=
  repeat first
    [ apply codec_ret
    | eapply codec_bind;
      [ solve [eauto with codec]
      | intro; auto 12 with uniform
      | intro; cbv beta ] ].

Lemma firstn_app_exact {A} (a b : list A) n :
  length a = n -> firstn n (a ++ b) = a.
Proof.
  intros <-. rewrite firstn_app, Nat.sub_diag, firstn_O, app_nil_r.
  apply firstn_all.
Qed.

Lemma skipn_app_exact {A} (a b : list A) n :
  length a = n -> skipn n (a ++ b) = b.
Proof.
  intros <-. rewrite skipn_app, Nat.sub_diag, skipn_all. reflexivity.
Qed.

Lemma codec_UnitFloat K cls unit value :
  constants_ok K -> UnitFloatType_has K unit = true ->
  float_ok value = true ->
  codec (UnitFloat_write unit value) (UnitFloat_read K cls)
    (unit_float_obj cls unit value).
Proof.
  intros HK Hu Hv n bs H rest lg.
  apply write_bytes_inv in H. destruct H as [_ ->].
  rewrite app_nil_l, pack_4s_id by now apply (UnitFloatType_length K HK).
  pose proof (UnitFloatType_length K HK unit Hu) as Hlen.
  unfold UnitFloat_read, read_fmt_4sd, bind.
  rewrite read_exact_app by (rewrite length_app, be_bytes_length; lia).
  unfold ret at 1. cbn [fst snd].
  rewrite firstn_app_exact, skipn_app_exact by exact Hlen.
  unfold UnitFloatType_call. rewrite Hu. unfold ret.
  now rewrite be_value_be_bytes by now apply float_ok_range.
Qed.

Lemma codec_UnitFloats K cls unit values :
  constants_ok K -> UnitFloatType_has K unit = true ->
  forallb float_ok values = true ->
  codec (UnitFloats_write unit values) (UnitFloats_read K cls)
    (unit_floats_obj cls unit values).
Proof.
  intros HK Hu Hv n bs H rest lg.
  unfold UnitFloats_write, write_fmt_4sI_doubles in H.
  destruct (Z.leb_spec 0 (len values));
    destruct (Z.ltb_spec (len values) (2 ^ 32));
    cbn [andb] in H; try discriminate H.
  apply write_bytes_inv in H. destruct H as [_ ->].
  pose proof (UnitFloatType_length K HK unit Hu) as Hlen.
  rewrite app_nil_l, pack_4s_id by exact Hlen.
  unfold UnitFloats_read, read_fmt_4sI, bind.
  replace ((unit ++ be_bytes 4 (len values)
              ++ flat_map (be_bytes 8) values) ++ rest)
    with ((unit ++ be_bytes 4 (len values))
            ++ flat_map (be_bytes 8) values ++ rest)
    by now rewrite <- !app_assoc.
  rewrite read_exact_app by (rewrite length_app, be_bytes_length; lia).
  unfold ret at 1. cbn [fst snd].
  rewrite firstn_app_exact, skipn_app_exact by exact Hlen.
  rewrite be_value_be_bytes by (change (256 ^ Z.of_nat 4) with (2 ^ 32); lia).
  assert (E : Z.to_nat (len values) = length values) by apply Nat2Z.id.
  rewrite E. unfold read_fmt_doubles, bind.
  rewrite read_exact_app by apply flat_map_be_bytes_length.
  unfold ret at 1. unfold UnitFloatType_call. rewrite Hu. unfold ret.
  now rewrite unpack_doubles_values.
Qed.

Lemma codec_leaf K e fuel :
  constants_ok K -> is_leaf e = true ->
  valid K e = true -> keys_nonempty e = true ->
  codec (write K e) (read K (S fuel) (class_of e)) e.
Proof.
  intros HK Hleaf Hvalid Hkeys.
  destruct e; try discriminate Hleaf;
    cbn [valid keys_nonempty] in Hvalid, Hkeys; split_andb;
    cbn [class_of write read];
    match goal with
    | H : pyclass_beq _ _ = true |- _ =>
        apply pyclass_beq_eq in H; rewrite H
    end.
  - unfold Property_write, Property_read. codec_chain.
  - now apply codec_UnitFloat.
  - now apply codec_UnitFloats.
  - unfold Double_write, Double_read.
    eapply codec_map; [eauto with codec|reflexivity].
  - unfold Class_write, Class_read. codec_chain.
  - unfold String_write, String_read.
    eapply codec_map; [eauto with codec|reflexivity].
  - unfold EnumeratedReference_write, EnumeratedReference_read.
    codec_chain.
  - unfold Offset_write, Offset_read. codec_chain.
  - unfold Bool_write, Bool_read.
    eapply codec_map; [eauto with codec|reflexivity].
  - unfold LargeInteger_write, LargeInteger_read.
    eapply codec_map; [eauto with codec|reflexivity].
  - unfold Integer_write, Integer_read.
    eapply codec_map; [eauto with codec|reflexivity].
  - unfold Enum_write, Enum_read. codec_chain.
  - unfold RawData_write, RawData_read.
    eapply codec_map; [eauto with codec|reflexivity].
Qed.

(** ** Round trip of the containers *)

Lemma uniform_Descriptor_write_loop_all K items written :
  uniform (Descriptor_write_loop K element_ostype (write K) items written).
Proof.
  apply uniform_Descriptor_write_loop, Forall_forall.
  intros; apply uniform_write.
Qed.

Lemma uniform_List_write_loop_all K items written :
  uniform (List_write_loop K element_ostype (write K) items written).
Proof.
  apply uniform_List_write_loop, Forall_forall.
  intros; apply uniform_write.
Qed.

#[local] Hint Resolve uniform_write uniform_ostype_value
  uniform_Descriptor_write_loop_all uniform_List_write_loop_all : uniform.

Lemma nodupb_NoDup {A} (eqb : A -> A -> bool) (l : list A) :
  (forall a b, eqb a b = true <-> a = b) ->
  nodupb eqb l = true -> NoDup l.
Proof.
  intros Heq. induction l as [|a l IH]; cbn; [constructor|].
  intros H. apply andb_true_iff in H. destruct H as [Ha Hl].
  constructor; [|now apply IH].
  intros Hin. apply negb_true_iff in Ha.
  assert (existsb (eqb a) l = true); [|congruence].
  apply existsb_exists. exists a. split; [exact Hin|now apply Heq].
Qed.

Lemma depth_pos e : (1 <= depth e)%nat.
Proof. destruct e; cbn; lia. Qed.

Lemma fold_max_le {A} (g : A -> nat) (l : list A) x :
  In x l -> (g x <= fold_right (fun y d => Nat.max (g y) d) O l)%nat.
Proof.
  induction l as [|y l IH]; [contradiction|].
  intros [->|Hin]; cbn; [lia|]. specialize (IH Hin). lia.
Qed.

(** Reading the tag that a child was written under finds its class. *)
Lemma read_tag_of_child K v t (rest : bytes) (lg : list diagnostic) :
  constants_ok K -> element_ostype v = Some t ->
  (tag <- fp_read 4 ;; OSType_call K tag) (OSType_value K t ++ rest, lg)
  = Ok (t, (rest, lg))
  /\ TYPES_get t = Some (class_of v).
Proof.
  intros HK Ht. split.
  - unfold bind.
    rewrite fp_read_app by apply (OSType_value_length K HK).
    now apply OSType_call_value.
  - now apply TYPES_get_ostype.
Qed.

Lemma codec_Descriptor_loop K fuel items :
  constants_ok K ->
  Forall (fun kv =>
            member_ok K (fst kv) = true /\ nonempty_key (fst kv) = true
            /\ codec (write K (snd kv)) (read K fuel (class_of (snd kv)))
                 (snd kv)) items ->
  forall acc written,
    codec (Descriptor_write_loop K element_ostype (write K) items written)
      (Descriptor_read_loop K TYPES_get (read K fuel) (fun _ => false)
         (length items) acc)
      (acc ++ items).
Proof.
  intros HK. induction 1 as [|[k v] items (Hm & Hne & Hv) _ IH];
    intros acc written.
  - cbn. rewrite app_nil_r. apply codec_ret.
  - cbn [fst snd] in *.
    cbn [Descriptor_write_loop Descriptor_read_loop length].
    eapply codec_bind;
      [now apply codec_write_length_and_key
      |intro; auto 12 with uniform|intro w1].
    intros n bs Hw rest lg.
    apply bind_nil_inv in Hw; [|intro; auto 12 with uniform].
    destruct Hw as (tag & bs1 & bs2 & Htag & Hw & ->).
    unfold ostype_value in Htag.
    destruct (element_ostype v) as [t|] eqn:Et; [|discriminate Htag].
    apply ret_inv in Htag. destruct Htag as [-> ->].
    apply bind_nil_inv in Hw; [|intro; auto 12 with uniform].
    destruct Hw as (w2 & bs3 & bs4 & Hb & Hw & ->).
    apply write_bytes_inv in Hb. destruct Hb as [_ ->].
    apply bind_nil_inv in Hw; [|intro; auto 12 with uniform].
    destruct Hw as (w3 & body & bs5 & Hbody & Hloop & ->).
    destruct (read_tag_of_child K v t (body ++ bs5 ++ rest) lg HK Et)
      as [Hread Hreg].
    rewrite !app_nil_l, <- !app_assoc.
    unfold bind in Hread |- *.
    destruct (fp_read 4 (OSType_value K t ++ body ++ bs5 ++ rest, lg))
      as [[tag s1]| |]; try discriminate Hread.
    rewrite Hread, Hreg.
    rewrite (Hv _ _ Hbody). cbn [ret].
    rewrite (IH _ _ _ _ Hloop). now rewrite <- app_assoc.
Qed.

Lemma codec_List_loop K fuel items :
  constants_ok K ->
  Forall (fun v => codec (write K v) (read K fuel (class_of v)) v) items ->
  forall acc written,
    codec (List_write_loop K element_ostype (write K) items written)
      (List_read_loop K TYPES_get (read K fuel) (length items) acc)
      (acc ++ items).
Proof.
  intros HK. induction 1 as [|v items Hv _ IH]; intros acc written.
  - cbn. rewrite app_nil_r. apply codec_ret.
  - cbn [List_write_loop List_read_loop length].
    intros n bs Hw rest lg.
    apply bind_nil_inv in Hw; [|intro; auto 12 with uniform].
    destruct Hw as (w1 & bs1 & bs2 & Htag & Hw & ->).
    apply bind_Ok_inv in Htag. destruct Htag as (tag & o & Htag & Hb).
    unfold ostype_value in Htag.
    destruct (element_ostype v) as [t|] eqn:Et; [|discriminate Htag].
    apply ret_inv in Htag. destruct Htag as [-> ->].
    apply write_bytes_inv in Hb. destruct Hb as [_ ->].
    apply bind_nil_inv in Hw; [|intro; auto 12 with uniform].
    destruct Hw as (w3 & body & bs5 & Hbody & Hloop & ->).
    destruct (read_tag_of_child K v t (body ++ bs5 ++ rest) lg HK Et)
      as [Hread Hreg].
    rewrite !app_nil_l, <- !app_assoc.
    unfold bind in Hread |- *.
    destruct (fp_read 4 (OSType_value K t ++ body ++ bs5 ++ rest, lg))
      as [[tag s1]| |]; try discriminate Hread.
    rewrite Hread, Hreg.
    rewrite (Hv _ _ Hbody).
    rewrite (IH _ _ _ _ Hloop). now rewrite <- app_assoc.
Qed.

Lemma codec_element K e :
  constants_ok K -> valid K e = true -> keys_nonempty e = true ->
  forall fuel, (depth e <= fuel)%nat ->
  codec (write K e) (read K fuel (class_of e)) e.
Proof.
  intros HK.
  induction e as [cls name classID items IH|cls items IH|e Hleaf]
    using element_nested_ind;
    intros Hvalid Hkeys fuel Hfuel.
  - destruct fuel as [|fuel]; [cbn in Hfuel; lia|].
    cbn [valid keys_nonempty] in Hvalid, Hkeys. split_andb.
    cbn [class_of write read].
    match goal with
    | H : pyclass_beq _ _ = true |- _ =>
        apply pyclass_beq_eq in H; rewrite H
    end.
    unfold Descriptor_write, Descriptor_read.
    eapply codec_bind;
      [now apply codec_write_unicode_string
      |intro; auto 12 with uniform|intro w0].
    eapply codec_bind;
      [now apply codec_write_length_and_key
      |intro; auto 12 with uniform|intro w1].
    eapply codec_bind;
      [apply codec_write_fmt_I|intro; auto 12 with uniform|intro w2].
    assert (E : Z.to_nat (len items) = length items) by apply Nat2Z.id.
    rewrite E.
    eapply codec_map.
    + apply (codec_Descriptor_loop K fuel items HK).
      rewrite Forall_forall in IH |- *. intros [k v] Hin.
      match goal with
      | H : forallb _ items = true |- _ =>
          rewrite forallb_forall in H; pose proof (H _ Hin) as Hv1;
          clear H
      end.
      match goal with
      | H : forallb _ items = true |- _ =>
          rewrite forallb_forall in H; pose proof (H _ Hin) as Hv2;
          clear H
      end.
      cbn [fst snd] in *. split_andb.
      repeat split; try assumption.
      apply (IH _ Hin); try assumption.
      cbn [depth] in Hfuel.
      pose proof (fold_max_le (fun kv => depth (snd kv)) items (k, v) Hin)
        as Hd.
      cbv beta in Hd. cbn [snd] in Hd |- *. lia.
    + cbn [app]. unfold new_Descriptor. f_equal.
      apply OrderedDict_id; [apply Key_eqb_eq|].
      eapply nodupb_NoDup; [apply Key_eqb_eq|eassumption].
  - destruct fuel as [|fuel]; [cbn in Hfuel; lia|].
    cbn [valid keys_nonempty] in Hvalid, Hkeys. split_andb.
    cbn [class_of write read].
    match goal with
    | H : pyclass_beq _ _ = true |- _ =>
        apply pyclass_beq_eq in H; rewrite H
    end.
    unfold List_write, List_read.
    eapply codec_bind;
      [apply codec_write_fmt_I|intro; auto 12 with uniform|intro w2].
    assert (E : Z.to_nat (len items) = length items) by apply Nat2Z.id.
    rewrite E.
    eapply codec_map.
    + apply (codec_List_loop K fuel items HK).
      rewrite Forall_forall in IH |- *. intros v Hin.
      match goal with
      | H : forallb (valid K) items = true |- _ =>
          rewrite forallb_forall in H; pose proof (H _ Hin) as Hv1
      end.
      rewrite forallb_forall in Hkeys.
      apply (IH _ Hin); auto.
      cbn [depth] in Hfuel.
      pose proof (fold_max_le depth items v Hin). lia.
    + reflexivity.
  - pose proof (depth_pos e).
    destruct fuel as [|fuel]; [lia|]. now apply codec_leaf.
Qed.

(** ** The nesting of a tree is below the length of its encoding *)

Lemma Descriptor_write_loop_depth K items :
  Forall (fun kv => forall n bs,
              write K (snd kv) [] = Ok (n, bs) ->
              (depth (snd kv) <= S (length bs))%nat) items ->
  forall written n bs,
    Descriptor_write_loop K element_ostype (write K) items written []
    = Ok (n, bs) ->
    (fold_right (fun kv d => Nat.max (depth (snd kv)) d) O items
     <= S (length bs))%nat.
Proof.
  induction 1 as [|[k v] items Hv _ IH]; intros written n bs Hw.
  - cbn. lia.
  - cbn [Descriptor_write_loop] in Hw. cbn [fold_right snd] in *.
    apply bind_nil_inv in Hw; [|intro; auto 12 with uniform].
    destruct Hw as (w1 & bs1 & bs2 & _ & Hw & ->).
    apply bind_nil_inv in Hw; [|intro; auto 12 with uniform].
    destruct Hw as (tag & bs3 & bs4 & _ & Hw & ->).
    apply bind_nil_inv in Hw; [|intro; auto 12 with uniform].
    destruct Hw as (w2 & bs5 & bs6 & _ & Hw & ->).
    apply bind_nil_inv in Hw; [|intro; auto 12 with uniform].
    destruct Hw as (w3 & body & bs7 & Hbody & Hloop & ->).
    apply Hv in Hbody. apply IH in Hloop.
    rewrite !length_app. lia.
Qed.

Lemma List_write_loop_depth K items :
  Forall (fun v => forall n bs,
              write K v [] = Ok (n, bs) ->
              (depth v <= S (length bs))%nat) items ->
  forall written n bs,
    List_write_loop K element_ostype (write K) items written []
    = Ok (n, bs) ->
    (fold_right (fun v d => Nat.max (depth v) d) O items
     <= S (length bs))%nat.
Proof.
  induction 1 as [|v items Hv _ IH]; intros written n bs Hw.
  - cbn. lia.
  - cbn [List_write_loop] in Hw. cbn [fold_right] in *.
    apply bind_nil_inv in Hw; [|intro; auto 12 with uniform].
    destruct Hw as (w1 & bs1 & bs2 & _ & Hw & ->).
    apply bind_nil_inv in Hw; [|intro; auto 12 with uniform].
    destruct Hw as (w3 & body & bs7 & Hbody & Hloop & ->).
    apply Hv in Hbody. apply IH in Hloop.
    rewrite !length_app. lia.
Qed.

Lemma depth_below_length K e n bs :
  write K e [] = Ok (n, bs) -> (depth e <= S (length bs))%nat.
Proof.
  revert n bs.
  induction e as [cls name classID items IH|cls items IH|e Hleaf]
    using element_nested_ind; intros n bs Hw.
  - cbn [write] in Hw. unfold Descriptor_write in Hw.
    apply bind_nil_inv in Hw; [|intro; auto 12 with uniform].
    destruct Hw as (w0 & bs0 & bs1 & _ & Hw & ->).
    apply bind_nil_inv in Hw; [|intro; auto 12 with uniform].
    destruct Hw as (w1 & bs2 & bs3 & _ & Hw & ->).
    apply bind_nil_inv in Hw; [|intro; auto 12 with uniform].
    destruct Hw as (w2 & bs4 & bs5 & Hcount & Hw & ->).
    apply write_fmt_I_inv in Hcount. destruct Hcount as (_ & _ & ->).
    apply (Descriptor_write_loop_depth K items IH) in Hw.
    cbn [depth]. rewrite !length_app, be_bytes_length. cbn [length]. lia.
  - cbn [write] in Hw. unfold List_write in Hw.
    apply bind_nil_inv in Hw; [|intro; auto 12 with uniform].
    destruct Hw as (w2 & bs4 & bs5 & Hcount & Hw & ->).
    apply write_fmt_I_inv in Hcount. destruct Hcount as (_ & _ & ->).
    apply (List_write_loop_depth K items IH) in Hw.
    cbn [depth]. rewrite !length_app, be_bytes_length. cbn [length]. lia.
  - destruct e; try discriminate Hleaf; cbn; lia.
Qed.

(** ** Round trip *)

(** C1, as the code has it: a tree of Python values in which no [bytes]
    key is empty and which [write] encodes is decoded from those bytes to
    the same tree: same classes, same fields, same keys in the same
    order, same items under the same tags.  The decode reads all the
    bytes and logs nothing. *)
Theorem decode_encode_roundtrip :
  forall (K : constants) (e : element) (bs : bytes),
    constants_ok K ->
    valid K e = true ->
    keys_nonempty e = true ->
    tobytes K e = Ok bs ->
    frombytes K (class_of e) bs = Ok e
    /\ frombytes_log K (class_of e) bs = Ok (e, ([], [])).
Proof.
  intros K e bs HK Hvalid Hkeys Hto.
  unfold tobytes in Hto.
  destruct (write K e []) as [[n out]| |] eqn:Hw; try discriminate Hto.
  inversion Hto; subst out; clear Hto.
  assert (E : frombytes_log K (class_of e) bs = Ok (e, ([], []))).
  { unfold frombytes_log.
    pose proof (codec_element K e HK Hvalid Hkeys (S (length bs))
                  (depth_below_length K e n bs Hw) n bs Hw [] []) as H.
    now rewrite app_nil_r in H. }
  split; [|exact E]. unfold frombytes. now rewrite E.
Qed.

Lemma decode_encode_roundtrip_witness :
  frombytes psd Descriptor (body_bytes psd sample_descriptor)
  = Ok sample_descriptor.
Proof.
  apply (decode_encode_roundtrip psd sample_descriptor
           (body_bytes psd sample_descriptor) psd_ok).
  - vm_compute. reflexivity.
  - vm_compute. reflexivity.
  - vm_compute. reflexivity.
Defined.

(** C1, as stated, fails: an Enum whose typeID is the empty [bytes] key
    is a tree of supported values, it is encoded, and the bytes decode to
    another Enum. *)
Lemma roundtrip_fails_on_empty_key :
  ~ (forall (e : element) (bs : bytes),
        valid psd e = true ->
        tobytes psd e = Ok bs ->
        frombytes psd (class_of e) bs = Ok e).
Proof.
  intros H.
  specialize (H (enum_obj Enum (RawKey [])
                   (RawKey [x00; x00; x00; x01; "A"%byte]))
                (be_bytes 4 0 ++ be_bytes 4 5 ++ be_bytes 4 1 ++ ["A"%byte])
                eq_refl eq_refl).
  vm_compute in H. discriminate H.
Qed.

(** ** Dictionaries of the Descriptors that are read *)

Lemma Descriptor_read_loop_length K {D V} (get : OSType -> option D)
  (rd : D -> M istream V) (isn : V -> bool) count :
  forall acc s items s',
    Descriptor_read_loop K get rd isn count acc s = Ok (items, s') ->
    length items = (length acc + count)%nat.
Proof.
  induction count as [|count IH]; intros acc s items s' H.
  - apply ret_inv in H. destruct H as [-> _]. lia.
  - cbn [Descriptor_read_loop] in H.
    apply bind_Ok_inv in H. destruct H as (key & s1 & _ & H).
    apply bind_Ok_inv in H. destruct H as (tag & s2 & _ & H).
    apply bind_Ok_inv in H. destruct H as (t & s3 & _ & H).
    destruct (get t) as [d|]; [|discriminate H].
    apply bind_Ok_inv in H. destruct H as (v & s4 & _ & H).
    apply bind_Ok_inv in H. destruct H as (u & s5 & _ & H).
    apply IH in H. rewrite length_app in H. cbn in H. lia.
Qed.

Lemma read_Descriptor_inv K fuel cls s e s' :
  method_owner cls = Descriptor ->
  read K fuel cls s = Ok (e, s') ->
  exists name s1 classID s2 count s3 raw,
    read_unicode_string true s = Ok (name, s1)
    /\ read_length_and_key K s1 = Ok (classID, s2)
    /\ read_fmt_I s2 = Ok (count, s3)
    /\ length raw = Z.to_nat count
    /\ e = new_Descriptor cls name classID raw.
Proof.
  intros Hown H. destruct fuel as [|fuel]; [discriminate H|].
  cbn [read] in H. rewrite Hown in H. unfold Descriptor_read in H.
  apply bind_Ok_inv in H. destruct H as (name & s1 & H1 & H).
  apply bind_Ok_inv in H. destruct H as (classID & s2 & H2 & H).
  apply bind_Ok_inv in H. destruct H as (count & s3 & H3 & H).
  apply bind_Ok_inv in H. destruct H as (raw & s4 & H4 & H).
  apply ret_inv in H. destruct H as [-> _].
  apply Descriptor_read_loop_length in H4. cbn in H4.
  exists name, s1, classID, s2, count, s3, raw. auto.
Qed.

(** C9: the map of a Descriptor holds each key once, whether it was built
    by the constructor or by [read]; of the pairs given under one key the
    last is kept, so the map can be shorter than the entry count that the
    stream declares, and [write] emits the length of the map as the
    entry count. *)
Theorem Descriptor_keys_unique :
  (forall cls name classID raw,
      exists items,
        new_Descriptor cls name classID raw
          = descriptor_obj cls name classID items
        /\ NoDup (map fst items)
        /\ (length items <= length raw)%nat
        /\ forall pre k v post,
             raw = pre ++ (k, v) :: post -> ~ In k (map fst post) ->
             dict_get Key_eqb k items = Some v)
  /\ (forall K fuel cls s e s',
         method_owner cls = Descriptor ->
         read K fuel cls s = Ok (e, s') ->
         exists name s1 classID s2 count s3 raw items,
           read_unicode_string true s = Ok (name, s1)
           /\ read_length_and_key K s1 = Ok (classID, s2)
           /\ read_fmt_I s2 = Ok (count, s3)
           /\ length raw = Z.to_nat count
           /\ new_Descriptor cls name classID raw = e
           /\ e = descriptor_obj cls name classID items
           /\ NoDup (map fst items)
           /\ (length items <= Z.to_nat count)%nat)
  /\ (forall K cls name classID items out n out',
         write K (descriptor_obj cls name classID items) out = Ok (n, out') ->
         out' = out ++ ustr_block name true ++ key_form classID
                  ++ be_bytes 4 (len items)
                  ++ flat_map (entry_bytes K) items)
  /\ (let d := descriptor_obj Descriptor [] (ClassID (b4 "n" "u" "l" "l"))
                 [(RawKey (b4 "N" "m" " " " "), bool_obj Bool true)] in
      frombytes psd Descriptor repeated_key_stream = Ok d
      /\ tobytes psd d
         = Ok (be_bytes 4 0 ++ compact_form (b4 "n" "u" "l" "l")
                 ++ be_bytes 4 1
                 ++ long_form (b4 "N" "m" " " " ") ++ b4 "b" "o" "o" "l"
                 ++ [x01])).
Proof.
  split; [|split; [|split]].
  - intros cls name classID raw.
    exists (OrderedDict Key_eqb raw). split; [reflexivity|].
    split; [apply OrderedDict_NoDup, Key_eqb_eq|].
    split; [apply OrderedDict_length|].
    intros pre k v post -> Hk.
    now apply OrderedDict_last_wins; [apply Key_eqb_eq|].
  - intros K fuel cls s e s' Hown H.
    destruct (read_Descriptor_inv K fuel cls s e s' Hown H)
      as (name & s1 & classID & s2 & count & s3 & raw
          & H1 & H2 & H3 & Hlen & ->).
    exists name, s1, classID, s2, count, s3, raw,
      (OrderedDict Key_eqb raw).
    repeat split; try assumption.
    + apply OrderedDict_NoDup, Key_eqb_eq.
    + rewrite <- Hlen. apply OrderedDict_length.
  - intros K cls name classID items out n out' H.
    now apply Descriptor_write_layout in H.
  - vm_compute. split; reflexivity.
Qed.

Lemma Descriptor_keys_unique_witness :
  exists items,
    descriptor_obj Descriptor [] (ClassID (b4 "n" "u" "l" "l"))
      [(RawKey (b4 "N" "m" " " " "), bool_obj Bool true)]
    = descriptor_obj Descriptor [] (ClassID (b4 "n" "u" "l" "l")) items
    /\ NoDup (map fst items) /\ (length items <= 2)%nat.
Proof.
  destruct (proj1 (proj2 Descriptor_keys_unique) psd
              (S (length repeated_key_stream)) Descriptor
              (repeated_key_stream, [])
              (descriptor_obj Descriptor [] (ClassID (b4 "n" "u" "l" "l"))
                 [(RawKey (b4 "N" "m" " " " "), bool_obj Bool true)])
              ([], []) eq_refl)
    as (name & s1 & classID & s2 & count & s3 & raw & items
        & H1 & H2 & H3 & Hlen & Hnew & He & Hnodup & Hle).
  - vm_compute. reflexivity.
  - exists items.
    assert (Hname : name = []) by (vm_compute in H1; congruence).
    assert (Hs1 : s1 = (skipn 4 repeated_key_stream, []))
      by (vm_compute in H1; inversion H1; reflexivity).
    subst name s1.
    assert (Hcls : classID = ClassID (b4 "n" "u" "l" "l"))
      by (vm_compute in H2; congruence).
    assert (Hs2 : s2 = (skipn 12 repeated_key_stream, []))
      by (vm_compute in H2; inversion H2; reflexivity).
    subst classID s2.
    assert (Hcount : count = 2) by (vm_compute in H3; congruence).
    subst count. auto.
Defined.

(** ** Decoding always ends *)

Lemma steady_ret {A} (a : A) : steady (ret a).
Proof. intros s. unfold steady_at, ret. apply le_n. Qed.

Lemma steady_raise {A} e : steady (@raise istream A e).
Proof. intros s. exact I. Qed.

Lemma steady_fp_read n : steady (fp_read n).
Proof.
  intros [b lg]. unfold steady_at, fp_read, remaining. cbn [fst snd].
  rewrite length_skipn. lia.
Qed.

Lemma steady_logger_warning d : steady (logger_warning d).
Proof. intros [b lg]. unfold steady_at, logger_warning. cbn. apply le_n. Qed.

Lemma steady_below_bind {A B} n (m : M istream A) (k : A -> M istream B) :
  steady_below n m -> (forall a, steady_below n (k a)) ->
  steady_below n (bind m k).
Proof.
  intros Hm Hk s Hs. specialize (Hm s Hs). unfold steady_at, bind in *.
  destruct (m s) as [[a s1]| |]; [|exact I|contradiction].
  assert (Hs1 : (remaining s1 < n)%nat) by lia.
  specialize (Hk a s1 Hs1). unfold steady_at in Hk.
  destruct (k a s1) as [[b s2]| |]; [lia|exact I|contradiction].
Qed.

Lemma steady_bind {A B} (m : M istream A) (k : A -> M istream B) :
  steady m -> (forall a, steady (k a)) -> steady (bind m k).
Proof.
  intros Hm Hk s.
  apply (steady_below_bind (S (remaining s)) m k);
    [intros s' _; apply Hm|intros a s' _; apply Hk|lia].
Qed.

Lemma steady_if {A} (b : bool) (m1 m2 : M istream A) :
  steady m1 -> steady m2 -> steady (if b then m1 else m2).
Proof. now destruct b. Qed.

Lemma steady_is_below {A} n (m : M istream A) : steady m -> steady_below n m.
Proof. intros H s _. apply H. Qed.

Create HintDb steady.
#[local] Hint Resolve steady_ret steady_raise steady_fp_read
  steady_logger_warning steady_if : steady.
#[local] Hint Extern 2 (steady (bind _ _)) =>
  apply steady_bind; [ | intro ] : steady.

Lemma steady_read_exact n : steady (read_exact n).
Proof. unfold read_exact. auto 8 with steady. Qed.

#[local] Hint Resolve steady_read_exact : steady.

Lemma steady_read_fmt_I : steady read_fmt_I.
Proof. unfold read_fmt_I. auto 8 with steady. Qed.

#[local] Hint Resolve steady_read_fmt_I : steady.

Lemma steady_read_unicode_string p : steady (read_unicode_string p).
Proof. unfold read_unicode_string. auto 12 with steady. Qed.

Lemma steady_read_length_and_key K : steady (read_length_and_key K).
Proof. unfold read_length_and_key. auto 12 with steady. Qed.

Lemma steady_OSType_call K tag : steady (OSType_call K tag).
Proof.
  unfold OSType_call. destruct (find _ all_OSType); auto with steady.
Qed.

Lemma steady_UnitFloatType_call K unit : steady (UnitFloatType_call K unit).
Proof. unfold UnitFloatType_call. auto with steady. Qed.

#[local] Hint Resolve steady_read_unicode_string steady_read_length_and_key
  steady_OSType_call steady_UnitFloatType_call : steady.

Lemma strict_read_fmt_I : strict read_fmt_I.
Proof.
  intros [b lg] a s' H. unfold read_fmt_I, read_exact, bind, fp_read in H.
  unfold remaining. cbn [fst snd] in *.
  destruct (Nat.eqb_spec (length (firstn 4 b)) 4) as [E|E];
    [|discriminate H].
  apply ret_inv in H. destruct H as [_ ->]. cbn [fst].
  rewrite length_firstn in E. rewrite length_skipn. lia.
Qed.

Lemma strict_bind {A B} (m : M istream A) (k : A -> M istream B) :
  strict m -> (forall a, steady (k a)) -> strict (bind m k).
Proof.
  intros Hm Hk s b s' H. apply bind_Ok_inv in H.
  destruct H as (a & s1 & H1 & H2). apply Hm in H1.
  specialize (Hk a s1). unfold steady_at in Hk. rewrite H2 in Hk. lia.
Qed.

Lemma strict_read_unicode_string p : strict (read_unicode_string p).
Proof.
  unfold read_unicode_string.
  apply strict_bind; [apply strict_read_fmt_I|intro; auto 12 with steady].
Qed.

(** After a strict reader, what follows sees a shorter stream. *)
Lemma steady_below_after_strict {A B} n (m : M istream A)
  (k : A -> M istream B) :
  steady m -> strict m -> (forall a, steady_below n (k a)) ->
  steady_below (S n) (bind m k).
Proof.
  intros Hm Hstrict Hk s Hs.
  specialize (Hm s). unfold steady_at, bind in *.
  destruct (m s) as [[a s1]| |] eqn:E; [|exact I|contradiction].
  apply Hstrict in E.
  assert (Hs1 : (remaining s1 < n)%nat) by lia.
  specialize (Hk a s1 Hs1). unfold steady_at in Hk.
  destruct (k a s1) as [[b s2]| |]; [lia|exact I|contradiction].
Qed.

Section ContainerSteady.
Variable K : constants.
Context {D V : Type}.
Variable TYPES_get' : OSType -> option D.
Variable decoder_read : D -> M istream V.
Variable is_None : V -> bool.
Variable n : nat.
Hypothesis decoder_steady : forall d, steady_below n (decoder_read d).

Lemma steady_Descriptor_read_loop count :
  forall items,
    steady_below n
      (Descriptor_read_loop K TYPES_get' decoder_read is_None count items).
Proof.
  induction count as [|count IH]; intros items; cbn [Descriptor_read_loop].
  - apply steady_is_below, steady_ret.
  - apply steady_below_bind; [apply steady_is_below; auto with steady|].
    intros key.
    apply steady_below_bind; [apply steady_is_below; auto with steady|].
    intros tag.
    apply steady_below_bind; [apply steady_is_below; auto with steady|].
    intros t. destruct (TYPES_get' t) as [d|];
      [|apply steady_is_below, steady_raise].
    apply steady_below_bind; [apply decoder_steady|]. intros v.
    apply steady_below_bind; [apply steady_is_below; auto with steady|].
    intros _. apply IH.
Qed.

Lemma steady_List_read_loop count :
  forall items,
    steady_below n
      (List_read_loop K TYPES_get' decoder_read count items).
Proof.
  induction count as [|count IH]; intros items; cbn [List_read_loop].
  - apply steady_is_below, steady_ret.
  - apply steady_below_bind; [apply steady_is_below; auto with steady|].
    intros tag.
    apply steady_below_bind; [apply steady_is_below; auto with steady|].
    intros t. destruct (TYPES_get' t) as [d|];
      [|apply steady_is_below, steady_raise].
    apply steady_below_bind; [apply decoder_steady|]. intros v.
    apply IH.
Qed.

Lemma steady_Descriptor_read {E}
  (new : ustr -> Key -> list (Key * V) -> E) :
  steady_below (S n)
    (Descriptor_read K TYPES_get' decoder_read is_None new).
Proof.
  unfold Descriptor_read.
  apply steady_below_after_strict;
    [auto with steady|apply strict_read_unicode_string|].
  intros name.
  apply steady_below_bind; [apply steady_is_below; auto with steady|].
  intros classID.
  apply steady_below_bind; [apply steady_is_below; auto with steady|].
  intros count.
  apply steady_below_bind; [apply steady_Descriptor_read_loop|].
  intros items. apply steady_is_below, steady_ret.
Qed.

Lemma steady_List_read {E} (new : list V -> E) :
  steady_below (S n) (List_read K TYPES_get' decoder_read new).
Proof.
  unfold List_read.
  apply steady_below_after_strict;
    [auto with steady|apply strict_read_fmt_I|].
  intros count.
  apply steady_below_bind; [apply steady_List_read_loop|].
  intros items. apply steady_is_below, steady_ret.
Qed.
End ContainerSteady.

Lemma steady_read K fuel : forall cls, steady_below fuel (read K fuel cls).
Proof.
  induction fuel as [|fuel IH]; intros cls.
  - intros s Hs. lia.
  - cbn [read].
    destruct (method_owner cls);
      try solve
        [apply steady_is_below;
         unfold Property_read, UnitFloat_read, UnitFloats_read,
           Double_read, Class_read, String_read,
           EnumeratedReference_read, Offset_read, Bool_read,
           LargeInteger_read, Integer_read, Enum_read, RawData_read,
           read_fmt_4sd, read_fmt_4sI, read_fmt_doubles, read_fmt_d,
           read_fmt_bool, read_fmt_q, read_fmt_i, read_length_block;
         auto 12 with steady].
    + now apply steady_Descriptor_read.
    + now apply steady_List_read.
Qed.

(** [frombytes] returns an element or raises, whatever the bytes: the
    bound on nesting that it takes from the length of the data is never
    reached. *)
Theorem frombytes_total :
  forall (K : constants) (cls : pyclass) (data : bytes),
    frombytes_log K cls data <> OutOfFuel
    /\ frombytes K cls data <> OutOfFuel.
Proof.
  intros K cls data.
  pose proof (steady_read K (S (length data)) cls (data, [])) as H.
  unfold steady_at, remaining in H. cbn [fst] in H.
  specialize (H ltac:(lia)).
  unfold frombytes, frombytes_log.
  destruct (read K (S (length data)) cls (data, [])) as [[e s]| |];
    [split; discriminate|split; discriminate|contradiction].
Qed.

(** ** A larger bound on nesting changes nothing *)

Section ContainerStable.
Variable K : constants.
Context {D V : Type}.
Variable TYPES_get' : OSType -> option D.
Variables decoder_read decoder_read' : D -> M istream V.
Variable is_None : V -> bool.
Hypothesis decoder_stable :
  forall d s, decoder_read d s <> OutOfFuel ->
              decoder_read' d s = decoder_read d s.

Lemma Descriptor_read_loop_stable count :
  forall items s,
    Descriptor_read_loop K TYPES_get' decoder_read is_None count items s
      <> OutOfFuel ->
    Descriptor_read_loop K TYPES_get' decoder_read' is_None count items s
    = Descriptor_read_loop K TYPES_get' decoder_read is_None count items s.
Proof.
  induction count as [|count IH]; intros items s H; [reflexivity|].
  cbn [Descriptor_read_loop] in *. unfold bind in *.
  destruct (read_length_and_key K s) as [[key s1]| |]; try reflexivity.
  destruct (fp_read 4 s1) as [[tag s2]| |]; try reflexivity.
  destruct (OSType_call K tag s2) as [[t s3]| |]; try reflexivity.
  destruct (TYPES_get' t) as [d|]; try reflexivity.
  rewrite decoder_stable
    by (intros E; apply H; now rewrite E).
  destruct (decoder_read d s3) as [[v s4]| |]; try reflexivity.
  destruct (is_None v); try reflexivity.
  cbn in *. now apply IH.
Qed.

Lemma List_read_loop_stable count :
  forall items s,
    List_read_loop K TYPES_get' decoder_read count items s <> OutOfFuel ->
    List_read_loop K TYPES_get' decoder_read' count items s
    = List_read_loop K TYPES_get' decoder_read count items s.
Proof.
  induction count as [|count IH]; intros items s H; [reflexivity|].
  cbn [List_read_loop] in *. unfold bind in *.
  destruct (fp_read 4 s) as [[tag s2]| |]; try reflexivity.
  destruct (OSType_call K tag s2) as [[t s3]| |]; try reflexivity.
  destruct (TYPES_get' t) as [d|]; try reflexivity.
  rewrite decoder_stable
    by (intros E; apply H; now rewrite E).
  destruct (decoder_read d s3) as [[v s4]| |]; try reflexivity.
  now apply IH.
Qed.

Lemma Descriptor_read_stable {E}
  (new : ustr -> Key -> list (Key * V) -> E) s :
  Descriptor_read K TYPES_get' decoder_read is_None new s <> OutOfFuel ->
  Descriptor_read K TYPES_get' decoder_read' is_None new s
  = Descriptor_read K TYPES_get' decoder_read is_None new s.
Proof.
  unfold Descriptor_read, bind. intros H.
  destruct (read_unicode_string true s) as [[name s1]| |]; try reflexivity.
  destruct (read_length_and_key K s1) as [[classID s2]| |];
    try reflexivity.
  destruct (read_fmt_I s2) as [[count s3]| |]; try reflexivity.
  rewrite Descriptor_read_loop_stable; [reflexivity|].
  intros E0. apply H. now rewrite E0.
Qed.

Lemma List_read_stable {E} (new : list V -> E) s :
  List_read K TYPES_get' decoder_read new s <> OutOfFuel ->
  List_read K TYPES_get' decoder_read' new s
  = List_read K TYPES_get' decoder_read new s.
Proof.
  unfold List_read, bind. intros H.
  destruct (read_fmt_I s) as [[count s3]| |]; try reflexivity.
  rewrite List_read_loop_stable; [reflexivity|].
  intros E0. apply H. now rewrite E0.
Qed.
End ContainerStable.

Lemma read_unfold K fuel cls :
  read K (S fuel) cls
  = match method_owner cls with
    | Descriptor =>
        Descriptor_read K TYPES_get (read K fuel) (fun _ => false)
          (new_Descriptor cls)
    | List => List_read K TYPES_get (read K fuel) (list_obj cls)
    | Property => Property_read K cls
    | UnitFloat => UnitFloat_read K cls
    | UnitFloats => UnitFloats_read K cls
    | Double => Double_read cls
    | Class => Class_read K cls
    | String => String_read cls
    | EnumeratedReference => EnumeratedReference_read K cls
    | Offset => Offset_read K cls
    | Bool => Bool_read cls
    | LargeInteger => LargeInteger_read cls
    | Integer => Integer_read cls
    | Enum => Enum_read K cls
    | RawData => RawData_read cls
    | _ => raise NotImplementedError
    end.
Proof. reflexivity. Qed.

Lemma read_fuel_step K fuel :
  forall cls s,
    read K fuel cls s <> OutOfFuel ->
    read K (S fuel) cls s = read K fuel cls s.
Proof.
  induction fuel as [|fuel IH]; intros cls s H; [now contradiction H|].
  rewrite (read_unfold K (S fuel)), (read_unfold K fuel) in *.
  destruct (method_owner cls); try reflexivity.
  - now apply Descriptor_read_stable.
  - now apply List_read_stable.
Qed.

(** The decode of [frombytes] is the decode under any larger bound: the
    bound stands for no limit at all. *)
Theorem frombytes_any_fuel :
  forall (K : constants) (cls : pyclass) (data : bytes) (extra : nat),
    read K (S (length data) + extra) cls (data, [])
    = frombytes_log K cls data.
Proof.
  intros K cls data extra. unfold frombytes_log.
  induction extra as [|extra IH]; [now rewrite Nat.add_0_r|].
  rewrite Nat.add_succ_r, read_fuel_step; [exact IH|].
  rewrite IH. apply frombytes_total.
Qed.


(** ** Children written under their own tag *)

Lemma write_length_and_key_ok k out :
  key_fits k = true ->
  write_length_and_key k out = Ok (len (key_form k), out ++ key_form k).
Proof.
  intros H.
  assert (L : forall v, len (be_bytes 4 v) = 4)
    by (intros v; unfold len; now rewrite be_bytes_length).
  destruct k as [code|b]; cbn [key_form].
  - rewrite write_length_and_key_member. unfold compact_form.
    now rewrite len_app, L.
  - apply Z.ltb_lt in H. rewrite write_length_and_key_bytes by exact H.
    unfold long_form. now rewrite len_app, L.
Qed.

Lemma write_at K e n body out :
  write K e [] = Ok (n, body) -> write K e out = Ok (n, out ++ body).
Proof. intros H. rewrite (uniform_write K e out), H. reflexivity. Qed.

Lemma List_write_loop_child K e t n body :
  element_ostype e = Some t -> write K e [] = Ok (n, body) ->
  forall rest written out,
    List_write_loop K element_ostype (write K) (e :: rest) written out
    = List_write_loop K element_ostype (write K) rest
        (written + len (OSType_value K t) + n)
        (out ++ OSType_value K t ++ body).
Proof.
  intros Ht Hw rest written out. cbn [List_write_loop].
  unfold bind, ostype_value. rewrite Ht. unfold ret, write_bytes.
  rewrite (write_at K e n body _ Hw). now rewrite <- app_assoc.
Qed.

Lemma Descriptor_write_loop_child K e t n body :
  element_ostype e = Some t -> write K e [] = Ok (n, body) ->
  forall k rest written out,
    key_fits k = true ->
    Descriptor_write_loop K element_ostype (write K) ((k, e) :: rest)
      written out
    = Descriptor_write_loop K element_ostype (write K) rest
        (written + len (key_form k) + len (OSType_value K t) + n)
        (out ++ key_form k ++ OSType_value K t ++ body).
Proof.
  intros Ht Hw k rest written out Hk. cbn [Descriptor_write_loop].
  unfold bind. rewrite write_length_and_key_ok by exact Hk.
  unfold ostype_value. rewrite Ht. unfold ret, write_bytes.
  rewrite (write_at K e n body _ Hw). now rewrite <- !app_assoc.
Qed.

Lemma List_write_loop_layout K items :
  forall written out n out',
    List_write_loop K element_ostype (write K) items written out
    = Ok (n, out') ->
    out' = out ++ flat_map (item_bytes K) items.
Proof.
  induction items as [|v items IH]; intros written out n out' H;
    cbn [List_write_loop flat_map] in *.
  - apply ret_inv in H. destruct H as [_ ->]. now rewrite app_nil_r.
  - apply bind_Ok_inv in H. destruct H as (w1 & o1 & H1 & H).
    apply bind_Ok_inv in H. destruct H as (w3 & o4 & H4 & H).
    apply bind_Ok_inv in H1. destruct H1 as (tag & o2 & H2 & H3).
    unfold item_bytes. unfold ostype_value in H2.
    destruct (element_ostype v); [|discriminate H2].
    apply ret_inv in H2. destruct H2 as [-> ->].
    apply write_bytes_inv in H3. destruct H3 as [_ ->].
    apply write_body_bytes in H4. subst o4.
    apply IH in H. subst out'. now rewrite <- !app_assoc.
Qed.

(** C6: a class registered under its own tag with the body of another
    class reads and writes with that class's [read] and [write], builds
    instances of itself, and as the child of a container is written
    under its own tag, which is not the tag of the class it reuses: the
    step of the loop of [List.write] and of [Descriptor.write] on such a
    child appends that tag and then the body, a container with the one
    child is written as count, (key,) tag, body, and at any place among
    the children the bytes of the child start with its own tag. *)
Theorem aliases_reuse_parent_keep_tag :
  forall (K : constants) (a p : pyclass) (t : OSType),
    In (a, p, t) alias_table ->
    base a = Some p /\ defines_methods a = false
    /\ (forall fuel s, read K fuel a s = with_class a (read K fuel p s))
    /\ (forall fuel s e s',
           read K fuel a s = Ok (e, s') -> class_of e = a)
    /\ (forall e, write K (set_class a e) = write K e)
    /\ TYPES_get t = Some a
    /\ getattr_ostype a = Some t
    /\ getattr_ostype p <> Some t
    /\ (forall e out,
           class_of e = a ->
           (tag <- ostype_value K element_ostype e ;; write_bytes tag) out
           = Ok (len (OSType_value K t), out ++ OSType_value K t))
    /\ (constants_ok K ->
        forall t', getattr_ostype p = Some t' ->
                   OSType_value K t <> OSType_value K t')
    /\ (forall e n body,
           class_of e = a -> write K e [] = Ok (n, body) ->
           (forall rest written out,
               List_write_loop K element_ostype (write K) (e :: rest)
                 written out
               = List_write_loop K element_ostype (write K) rest
                   (written + len (OSType_value K t) + n)
                   (out ++ OSType_value K t ++ body))
           /\ (forall k rest written out,
                  key_fits k = true ->
                  Descriptor_write_loop K element_ostype (write K)
                    ((k, e) :: rest) written out
                  = Descriptor_write_loop K element_ostype (write K) rest
                      (written + len (key_form k)
                       + len (OSType_value K t) + n)
                      (out ++ key_form k ++ OSType_value K t ++ body))
           /\ (forall cls out,
                  write K (list_obj cls [e]) out
                  = Ok (4 + len (OSType_value K t) + n,
                        out ++ be_bytes 4 1 ++ OSType_value K t ++ body))
           /\ (forall cls name classID k out,
                  len name < 2 ^ 32 -> key_fits classID = true ->
                  key_fits k = true ->
                  write K (descriptor_obj cls name classID [(k, e)]) out
                  = Ok (len (ustr_block name true) + len (key_form classID)
                        + 4 + len (key_form k) + len (OSType_value K t) + n,
                        out ++ ustr_block name true ++ key_form classID
                          ++ be_bytes 4 1 ++ key_form k
                          ++ OSType_value K t ++ body)))
    /\ (forall e,
           class_of e = a ->
           (forall cls pre post out n out',
               write K (list_obj cls (pre ++ e :: post)) out
               = Ok (n, out') ->
               out' = out ++ be_bytes 4 (len (pre ++ e :: post))
                        ++ flat_map (item_bytes K) pre
                        ++ (OSType_value K t ++ body_bytes K e)
                        ++ flat_map (item_bytes K) post)
           /\ (forall cls name classID pre k post out n out',
                  write K (descriptor_obj cls name classID
                             (pre ++ (k, e) :: post)) out
                  = Ok (n, out') ->
                  out' = out ++ ustr_block name true ++ key_form classID
                           ++ be_bytes 4 (len (pre ++ (k, e) :: post))
                           ++ flat_map (entry_bytes K) pre
                           ++ (key_form k ++ OSType_value K t
                                 ++ body_bytes K e)
                           ++ flat_map (entry_bytes K) post)).
Proof.
  intros K a p t Hin.
  assert (Hown : method_owner a = method_owner p).
  { cbn in Hin.
    repeat (destruct Hin as [Hin|Hin]; [now inversion Hin|]).
    contradiction. }
  assert (Hread : forall fuel s,
             read K fuel a s = with_class a (read K fuel p s))
    by (intros; now apply read_same_owner).
  assert (Htag : getattr_ostype a = Some t
                 /\ getattr_ostype p <> Some t
                 /\ TYPES_get t = Some a
                 /\ base a = Some p /\ defines_methods a = false).
  { cbn in Hin.
    repeat (destruct Hin as [Hin|Hin];
            [inversion Hin; subst; vm_compute;
             repeat split; discriminate|]).
    contradiction. }
  destruct Htag as (Ha & Hp & Hreg & Hbase & Hdef).
  split; [exact Hbase|]. split; [exact Hdef|]. split; [exact Hread|].
  split.
  { intros fuel s e s' H. rewrite Hread in H.
    destruct (read K fuel p s) as [[e0 s0]| |]; try discriminate H.
    cbn in H. inversion H. now destruct e0. }
  split; [intros e; apply write_set_class|].
  split; [exact Hreg|]. split; [exact Ha|]. split; [exact Hp|].
  split.
  { intros e out He. unfold bind, ostype_value, element_ostype.
    rewrite He, Ha. reflexivity. }
  split.
  { intros HK t' Hp' E. apply (OSType_value_inj K HK) in E. congruence. }
  assert (Htagged : forall e, class_of e = a -> element_ostype e = Some t).
  { intros e He. unfold element_ostype. now rewrite He. }
  split.
  - intros e n body He Hw. specialize (Htagged e He).
    split; [now apply List_write_loop_child|].
    split; [intros; now apply Descriptor_write_loop_child|].
    split.
    + intros cls out. cbn [write]. unfold List_write, bind.
      change (len [e]) with 1. rewrite write_fmt_I_ok by lia.
      rewrite (List_write_loop_child K e t n body Htagged Hw).
      cbn [List_write_loop]. unfold ret. now rewrite <- !app_assoc.
    + intros cls name classID k out Hname HclassID Hk.
      cbn [write]. unfold Descriptor_write, bind.
      rewrite write_unicode_string_ok by exact Hname.
      rewrite write_length_and_key_ok by exact HclassID.
      change (len [(k, e)]) with 1. rewrite write_fmt_I_ok by lia.
      rewrite (Descriptor_write_loop_child K e t n body Htagged Hw)
        by exact Hk.
      cbn [Descriptor_write_loop]. unfold ret.
      rewrite <- !app_assoc. first [reflexivity|do 2 f_equal; lia].
  - intros e He. specialize (Htagged e He). split.
    + intros cls pre post out n out' H.
      cbn [write] in H. unfold List_write in H.
      apply bind_Ok_inv in H. destruct H as (w0 & o0 & H0 & H).
      apply write_fmt_I_inv in H0. destruct H0 as (_ & _ & ->).
      apply List_write_loop_layout in H. subst out'.
      rewrite flat_map_app. cbn [flat_map]. unfold item_bytes at 2.
      rewrite Htagged. now rewrite <- !app_assoc.
    + intros cls name classID pre k post out n out' H.
      apply Descriptor_write_layout in H. subst out'.
      unfold Descriptor_layout. rewrite flat_map_app. cbn [flat_map].
      unfold entry_bytes at 2. cbn [fst snd]. rewrite Htagged.
      now rewrite <- !app_assoc.
Qed.

Lemma aliases_reuse_parent_keep_tag_witness :
  OSType_value psd GLOBAL_OBJECT <> OSType_value psd DESCRIPTOR
  /\ class_of (descriptor_obj GlobalObject [] (ClassID (b4 "n" "u" "l" "l")) [])
     = GlobalObject
  /\ write psd
       (list_obj List
          [descriptor_obj GlobalObject [] (ClassID (b4 "n" "u" "l" "l")) []])
       []
     = Ok (24, be_bytes 4 1 ++ b4 "G" "l" "b" "O" ++ be_bytes 4 0
                 ++ compact_form (b4 "n" "u" "l" "l") ++ be_bytes 4 0)
  /\ write psd
       (descriptor_obj Descriptor [] (ClassID (b4 "n" "u" "l" "l"))
          [(RawKey (b4 "N" "m" " " " "),
            descriptor_obj GlobalObject [] (ClassID (b4 "n" "u" "l" "l"))
              [])])
       []
     = Ok (44, be_bytes 4 0 ++ compact_form (b4 "n" "u" "l" "l")
                 ++ be_bytes 4 1 ++ long_form (b4 "N" "m" " " " ")
                 ++ b4 "G" "l" "b" "O" ++ be_bytes 4 0
                 ++ compact_form (b4 "n" "u" "l" "l") ++ be_bytes 4 0).
Proof.
  destruct (aliases_reuse_parent_keep_tag psd GlobalObject Descriptor
              GLOBAL_OBJECT)
    as (_ & _ & _ & Hcls & _ & _ & _ & _ & _ & Hne & Hchild & _).
  - cbn. tauto.
  - destruct (Hchild
                (descriptor_obj GlobalObject []
                   (ClassID (b4 "n" "u" "l" "l")) [])
                16
                (be_bytes 4 0 ++ compact_form (b4 "n" "u" "l" "l")
                   ++ be_bytes 4 0)
                eq_refl)
      as (_ & _ & Hlist & Hdesc).
    { vm_compute. reflexivity. }
    split; [apply (Hne psd_ok DESCRIPTOR); reflexivity|].
    split.
    { apply (Hcls 2%nat
               (be_bytes 4 0 ++ compact_form (b4 "n" "u" "l" "l")
                  ++ be_bytes 4 0, [])
               _ ([], [])).
      vm_compute. reflexivity. }
    split.
    + exact (Hlist List []).
    + apply (Hdesc Descriptor [] (ClassID (b4 "n" "u" "l" "l"))
               (RawKey (b4 "N" "m" " " " ")) []);
        [reflexivity|reflexivity|reflexivity].
Defined.

(** * Further properties *)

(** ** Keys decoded, then encoded *)

Lemma byte_to_Z_range b : 0 <= byte_to_Z b < 256.
Proof.
  unfold byte_to_Z. pose proof (Byte.to_N_bounded b). lia.
Qed.

Lemma byte_of_to_Z b : byte_of_Z (byte_to_Z b) = b.
Proof.
  unfold byte_of_Z. rewrite Z.mod_small by apply byte_to_Z_range.
  unfold byte_to_Z. now rewrite N2Z.id, Byte.of_to_N.
Qed.

Lemma le_value_range bs : 0 <= le_value bs < 256 ^ Z.of_nat (length bs).
Proof.
  induction bs as [|b bs IH]; [cbn; lia|].
  cbn [le_value length]. rewrite Nat2Z.inj_succ, Z.pow_succ_r by lia.
  pose proof (byte_to_Z_range b). lia.
Qed.

Lemma le_bytes_le_value bs : le_bytes (length bs) (le_value bs) = bs.
Proof.
  induction bs as [|b bs IH]; [reflexivity|].
  cbn [length le_bytes le_value].
  pose proof (byte_to_Z_range b) as Hb.
  assert (Em : (byte_to_Z b + 256 * le_value bs) mod 256 = byte_to_Z b).
  { symmetry. apply Z.mod_unique with (q := le_value bs); lia. }
  assert (Ed : (byte_to_Z b + 256 * le_value bs) / 256 = le_value bs).
  { symmetry. apply Z.div_unique with (r := byte_to_Z b); lia. }
  rewrite Em, Ed, IH, byte_of_to_Z. reflexivity.
Qed.

Lemma be_value_range bs : 0 <= be_value bs < 256 ^ Z.of_nat (length bs).
Proof.
  unfold be_value. rewrite <- (length_rev bs). apply le_value_range.
Qed.

Lemma be_bytes_be_value bs n :
  length bs = n -> be_bytes n (be_value bs) = bs.
Proof.
  intros <-. unfold be_bytes, be_value.
  rewrite <- (length_rev bs), le_bytes_le_value. apply rev_involutive.
Qed.

(** A key that was read whole and without a diagnostic is written back
    as the very bytes that were read: a known 4-byte code in the compact
    form, a key with its length in the long form.  A 4-byte code that is
    no member's, read with a diagnostic from the compact form, is written
    back in the long form: the length field turns from 0 to 4. *)
Theorem key_read_then_written :
  forall (K : constants) (hdr key rest : bytes) (lg : list diagnostic)
         (out : ostream),
    length hdr = 4%nat ->
    (be_value hdr = 0 -> length key = 4%nat ->
     DescriptorClassID_has K key = true ->
     read_length_and_key K (hdr ++ key ++ rest, lg)
       = Ok (ClassID key, (rest, lg))
     /\ write_length_and_key (ClassID key) out = Ok (8, out ++ hdr ++ key))
    /\ (be_value hdr <> 0 -> length key = Z.to_nat (be_value hdr) ->
        read_length_and_key K (hdr ++ key ++ rest, lg)
          = Ok (RawKey key, (rest, lg))
        /\ write_length_and_key (RawKey key) out
           = Ok (4 + be_value hdr, out ++ hdr ++ key))
    /\ (be_value hdr = 0 -> length key = 4%nat ->
        DescriptorClassID_has K key = false ->
        read_length_and_key K (hdr ++ key ++ rest, lg)
          = Ok (RawKey key, (rest, lg ++ [UnknownClassID key]))
        /\ write_length_and_key (RawKey key) out
           = Ok (8, out ++ be_bytes 4 4 ++ key)
        /\ be_bytes 4 4 <> hdr).
Proof.
  intros K hdr key rest lg out Hhdr.
  pose proof (be_bytes_be_value hdr 4 Hhdr) as Ehdr.
  pose proof (be_value_range hdr) as Rhdr. rewrite Hhdr in Rhdr.
  change (256 ^ Z.of_nat 4) with (2 ^ 32) in Rhdr.
  split; [|split].
  - intros H0 Hkey Hhas.
    assert (Hz : hdr = be_bytes 4 0) by now rewrite <- Ehdr, H0.
    split.
    + rewrite Hz.
      now apply (read_length_and_key_compact K key rest lg).
    + rewrite write_length_and_key_member. unfold compact_form, len.
      now rewrite Hkey, Hz.
  - intros HL Hkey. split.
    + now apply read_length_and_key_sized.
    + assert (Elen : len key = be_value hdr)
        by (unfold len; rewrite Hkey; lia).
      rewrite write_length_and_key_bytes by lia.
      unfold long_form. now rewrite Elen, Ehdr.
  - intros H0 Hkey Hno. split; [|split].
    + now apply read_length_and_key_unknown.
    + assert (Elen : len key = 4) by (unfold len; rewrite Hkey; lia).
      rewrite write_length_and_key_bytes by lia.
      unfold long_form. now rewrite Elen.
    + intros E. rewrite <- E in H0. vm_compute in H0. discriminate H0.
Qed.

Lemma key_read_then_written_witness :
  write_length_and_key (ClassID (b4 "n" "u" "l" "l")) []
  = Ok (8, [] ++ be_bytes 4 0 ++ b4 "n" "u" "l" "l")
  /\ write_length_and_key (RawKey ["h"; "i"]%byte) []
     = Ok (4 + be_value (be_bytes 4 2), [] ++ be_bytes 4 2 ++ ["h"; "i"]%byte)
  /\ be_bytes 4 4 <> be_bytes 4 0.
Proof.
  destruct (key_read_then_written psd (be_bytes 4 0) (b4 "n" "u" "l" "l")
              [] [] [] eq_refl) as (Hknown & _ & _).
  destruct (key_read_then_written psd (be_bytes 4 2) ["h"; "i"]%byte
              [] [] [] eq_refl) as (_ & Hsized & _).
  destruct (key_read_then_written psd (be_bytes 4 0) (b4 "a" "b" "c" "d")
              [] [] [] eq_refl) as (_ & _ & Hunknown).
  split; [|split].
  - apply Hknown; reflexivity.
  - apply Hsized; [vm_compute; discriminate|reflexivity].
  - apply Hunknown; reflexivity.
Defined.

(** A key whose declared length runs past the end of the stream is not
    an error: [read_length_and_key] returns the bytes that are left, and
    leaves the stream empty. *)
Theorem key_cut_short_is_returned :
  forall (K : constants) (hdr rest : bytes) (lg : list diagnostic),
    length hdr = 4%nat ->
    be_value hdr <> 0 ->
    (length rest < Z.to_nat (be_value hdr))%nat ->
    read_length_and_key K (hdr ++ rest, lg) = Ok (RawKey rest, ([], lg)).
Proof.
  intros K hdr rest lg Hhdr HL Hshort.
  unfold read_length_and_key, bind.
  rewrite read_fmt_I_app by exact Hhdr.
  destruct (Z.eqb_spec (be_value hdr) 0); [contradiction|].
  unfold fp_read. cbn [fst snd].
  rewrite firstn_all2, skipn_all2 by lia. reflexivity.
Qed.

Lemma key_cut_short_is_returned_witness :
  read_length_and_key psd (be_bytes 4 5 ++ ["h"; "i"]%byte, [])
  = Ok (RawKey ["h"; "i"]%byte, ([], [])).
Proof.
  apply (key_cut_short_is_returned psd (be_bytes 4 5) ["h"; "i"]%byte []).
  - reflexivity.
  - vm_compute. discriminate.
  - vm_compute. lia.
Defined.

(** ** The registry built by the decorators *)

Lemma OSType_beq_eq a b : OSType_beq a b = true <-> a = b.
Proof.
  split; [apply internal_OSType_dec_bl|apply internal_OSType_dec_lb].
Qed.

Lemma pyclass_beq_iff a b : pyclass_beq a b = true <-> a = b.
Proof.
  split; [apply internal_pyclass_dec_bl|apply internal_pyclass_dec_lb].
Qed.

Lemma getattr_ostype_None cls : getattr_ostype cls = None <-> cls = Class.
Proof.
  destruct cls; vm_compute; split; intros H; try discriminate H;
    reflexivity.
Qed.

(** The decorators leave [TYPES] and the [ostype] attributes inverse to
    each other: every tag named in the module has a decoder, the decoder
    of a tag is the class that is written back under that tag, and
    [Class], which no decorator names, is the one class without a tag.
    A later [register] for a tag replaces the earlier one and touches no
    other tag. *)
Theorem registry_matches_tags :
  (forall t, exists cls, TYPES_get t = Some cls)
  /\ (forall t cls, TYPES_get t = Some cls <-> getattr_ostype cls = Some t)
  /\ (forall cls, getattr_ostype cls = None <-> cls = Class)
  /\ (forall t cls r t',
         dict_get OSType_beq t' (TYPES (register t cls r))
         = if OSType_beq t' t then Some cls
           else dict_get OSType_beq t' (TYPES r))
  /\ (forall t cls r cls',
         dict_get pyclass_beq cls' (ostype_attr (register t cls r))
         = if pyclass_beq cls' cls then Some t
           else dict_get pyclass_beq cls' (ostype_attr r)).
Proof.
  split; [|split; [|split; [|split]]].
  - intros t. destruct t; vm_compute; eauto.
  - intros t cls. split.
    + destruct t; vm_compute; intros H; inversion H; reflexivity.
    + apply TYPES_get_ostype.
  - apply getattr_ostype_None.
  - intros t cls r t'. cbn [register TYPES].
    apply dict_get_set, OSType_beq_eq.
  - intros t cls r cls'. cbn [register ostype_attr].
    apply dict_get_set, pyclass_beq_iff.
Qed.

(** ** Children that cannot be written *)

Section WriteLoopSplit.
Variable K : constants.
Context {V : Type}.
Variable item_ostype : V -> option OSType.
Variable item_write : V -> M ostream Z.

Lemma Descriptor_write_loop_app pre post :
  forall written out,
    Descriptor_write_loop K item_ostype item_write (pre ++ post) written out
    = match Descriptor_write_loop K item_ostype item_write pre written out
      with
      | Ok (n, o) =>
          Descriptor_write_loop K item_ostype item_write post n o
      | Raise e => Raise e
      | OutOfFuel => OutOfFuel
      end.
Proof.
  induction pre as [|[k v] pre IH]; intros written out; [reflexivity|].
  cbn [app Descriptor_write_loop]. unfold bind.
  destruct (write_length_and_key k out) as [[w1 o1]| |]; try reflexivity.
  destruct (ostype_value K item_ostype v o1) as [[tag o2]| |];
    try reflexivity.
  destruct (write_bytes tag o2) as [[w2 o3]| |]; try reflexivity.
  destruct (item_write v o3) as [[w3 o4]| |]; try reflexivity.
  apply IH.
Qed.

Lemma List_write_loop_app pre post :
  forall written out,
    List_write_loop K item_ostype item_write (pre ++ post) written out
    = match List_write_loop K item_ostype item_write pre written out with
      | Ok (n, o) => List_write_loop K item_ostype item_write post n o
      | Raise e => Raise e
      | OutOfFuel => OutOfFuel
      end.
Proof.
  induction pre as [|v pre IH]; intros written out; [reflexivity|].
  cbn [app List_write_loop]. unfold bind.
  destruct (ostype_value K item_ostype v out) as [[tag o2]| |];
    try reflexivity.
  destruct (write_bytes tag o2) as [[w2 o3]| |]; try reflexivity.
  destruct (item_write v o3) as [[w3 o4]| |]; try reflexivity.
  apply IH.
Qed.
End WriteLoopSplit.

(** An instance of [Class] itself has no [ostype]: when the loop of
    [Descriptor.write] or of [List.write] comes to such a child, after the
    children before it are written, it raises [AttributeError]. *)
Theorem child_of_class_Class_is_refused :
  forall (K : constants) (v : element),
    class_of v = Class ->
    (forall pre k post written out n o,
        Descriptor_write_loop K element_ostype (write K) pre written out
        = Ok (n, o) ->
        len (key_value k) < 2 ^ 32 ->
        Descriptor_write_loop K element_ostype (write K)
          (pre ++ (k, v) :: post) written out
        = Raise AttributeError)
    /\ (forall pre post written out n o,
           List_write_loop K element_ostype (write K) pre written out
           = Ok (n, o) ->
           List_write_loop K element_ostype (write K)
             (pre ++ v :: post) written out
           = Raise AttributeError).
Proof.
  intros K v Hcls.
  assert (Hno : element_ostype v = None)
    by (unfold element_ostype; rewrite Hcls; reflexivity).
  split.
  - intros pre k post written out n o Hpre Hk.
    rewrite Descriptor_write_loop_app, Hpre.
    cbn [Descriptor_write_loop]. unfold bind.
    assert (Hw : exists w1 o1, write_length_and_key k o = Ok (w1, o1)).
    { destruct k as [code|b]; cbn [key_value] in Hk.
      - rewrite write_length_and_key_member. eauto.
      - rewrite write_length_and_key_bytes by exact Hk. eauto. }
    destruct Hw as (w1 & o1 & ->).
    unfold ostype_value. now rewrite Hno.
  - intros pre post written out n o Hpre.
    rewrite List_write_loop_app, Hpre.
    cbn [List_write_loop]. unfold bind, ostype_value. now rewrite Hno.
Qed.

Lemma child_of_class_Class_is_refused_witness :
  List_write_loop psd element_ostype (write psd)
    ([integer_obj Integer 5] ++ class_obj Class [] (RawKey [x01]) :: [])
    4 (be_bytes 4 2)
  = Raise AttributeError.
Proof.
  eapply (proj2 (child_of_class_Class_is_refused psd
                   (class_obj Class [] (RawKey [x01])) eq_refl)).
  vm_compute. reflexivity.
Defined.

(** ** Lists *)

Lemma List_read_loop_length K {D V} (get : OSType -> option D)
  (rd : D -> M istream V) count :
  forall acc s items s',
    List_read_loop K get rd count acc s = Ok (items, s') ->
    length items = (length acc + count)%nat.
Proof.
  induction count as [|count IH]; intros acc s items s' H.
  - apply ret_inv in H. destruct H as [-> _]. lia.
  - cbn [List_read_loop] in H.
    apply bind_Ok_inv in H. destruct H as (tag & s2 & _ & H).
    apply bind_Ok_inv in H. destruct H as (t & s3 & _ & H).
    destruct (get t) as [d|]; [|discriminate H].
    apply bind_Ok_inv in H. destruct H as (v & s4 & _ & H).
    apply IH in H. rewrite length_app in H. cbn in H. lia.
Qed.

(** A List (or Reference) that [read] returns holds as many items as the
    stream declared: nothing is merged or dropped. *)
Theorem List_read_keeps_every_item :
  forall (K : constants) (fuel : nat) (cls : pyclass) (s s' : istream)
         (e : element),
    method_owner cls = List ->
    read K fuel cls s = Ok (e, s') ->
    exists count s1 items,
      read_fmt_I s = Ok (count, s1)
      /\ e = list_obj cls items
      /\ length items = Z.to_nat count.
Proof.
  intros K fuel cls s s' e Hown H.
  destruct fuel as [|fuel]; [discriminate H|].
  rewrite read_unfold, Hown in H. unfold List_read in H.
  apply bind_Ok_inv in H. destruct H as (count & s1 & H1 & H).
  apply bind_Ok_inv in H. destruct H as (items & s2 & H2 & H).
  apply ret_inv in H. destruct H as [-> _].
  apply List_read_loop_length in H2. cbn in H2.
  exists count, s1, items. auto.
Qed.

Lemma List_read_keeps_every_item_witness :
  exists count s1 items,
    read_fmt_I (be_bytes 4 2 ++ b4 "b" "o" "o" "l" ++ [x01]
                  ++ b4 "b" "o" "o" "l" ++ [x00], [])
    = Ok (count, s1)
    /\ list_obj Reference [bool_obj Bool true; bool_obj Bool false]
       = list_obj Reference items
    /\ length items = Z.to_nat count.
Proof.
  apply (List_read_keeps_every_item psd 2 Reference
           (be_bytes 4 2 ++ b4 "b" "o" "o" "l" ++ [x01]
              ++ b4 "b" "o" "o" "l" ++ [x00], [])
           ([], [])).
  - reflexivity.
  - vm_compute. reflexivity.
Defined.

(** What [List.write] appends is the item count and then, item by item,
    the tag of the item and its body; what it returns is the length of
    that. *)
Theorem List_write_layout :
  forall (K : constants) (cls : pyclass) (items : list element)
         (out out' : ostream) (n : Z),
    write K (list_obj cls items) out = Ok (n, out') ->
    out' = out ++ List_layout K items /\ n = len (List_layout K items).
Proof.
  intros K cls items out out' n H.
  pose proof H as H0.
  apply (uniform_Ok_inv _ _ _ _ (uniform_write K _)) in H.
  destruct H as (bs & H & ->). apply tally_write in H.
  assert (E : out ++ bs = out ++ List_layout K items).
  { cbn [write] in H0. unfold List_write in H0.
    apply bind_Ok_inv in H0. destruct H0 as (w0 & o0 & H1 & H0).
    apply write_fmt_I_inv in H1. destruct H1 as (_ & _ & ->).
    apply List_write_loop_layout in H0. rewrite H0.
    unfold List_layout. now rewrite <- app_assoc. }
  split; [exact E|]. apply app_inv_head in E. subst bs. lia.
Qed.

Lemma List_write_layout_witness :
  body_bytes psd (list_obj List [bool_obj Bool true])
  = [] ++ List_layout psd [bool_obj Bool true]
  /\ 9 = len (List_layout psd [bool_obj Bool true]).
Proof.
  apply (List_write_layout psd List [bool_obj Bool true] []).
  vm_compute. reflexivity.
Defined.

(** ** The order of the keys of a Descriptor *)

Lemma existsb_Key_eqb_In k (l : list Key) :
  existsb (Key_eqb k) l = true <-> In k l.
Proof.
  rewrite existsb_exists. split.
  - intros (x & Hx & E). apply Key_eqb_eq in E. now subst.
  - intros H. exists k. split; [exact H|now apply Key_eqb_eq].
Qed.

Lemma OrderedDict_snoc {B} (items : list (Key * B)) k v :
  OrderedDict Key_eqb (items ++ [(k, v)])
  = dict_set Key_eqb k v (OrderedDict Key_eqb items).
Proof. unfold OrderedDict. now rewrite fold_left_app. Qed.

Lemma OrderedDict_keys {B} (raw : list (Key * B)) :
  map fst (OrderedDict Key_eqb raw)
  = rev (nodup Key_eq_dec (rev (map fst raw))).
Proof.
  induction raw as [|[k v] raw IH] using rev_ind; [reflexivity|].
  rewrite OrderedDict_snoc, dict_set_keys, IH.
  rewrite map_app, rev_app_distr. cbn [map fst rev app nodup].
  destruct (in_dec Key_eq_dec k (rev (map fst raw))) as [Hin|Hout].
  - replace (existsb (Key_eqb k)
               (rev (nodup Key_eq_dec (rev (map fst raw))))) with true;
      [reflexivity|].
    symmetry. apply existsb_Key_eqb_In.
    apply (proj1 (in_rev _ _)), (proj2 (nodup_In _ _ _)), Hin.
  - replace (existsb (Key_eqb k)
               (rev (nodup Key_eq_dec (rev (map fst raw))))) with false;
      [reflexivity|].
    symmetry. apply not_true_is_false. intros H.
    apply existsb_Key_eqb_In in H.
    apply (proj2 (in_rev _ _)), (proj1 (nodup_In _ _ _)) in H.
    contradiction.
Qed.

(** The keys of a Descriptor built from a list of pairs, as [read]
    builds it from the entries of the stream, are the keys of the list in
    the order in which each first occurs; a repeated key keeps the place
    of its first entry.  When no key repeats the map is the list. *)
Theorem Descriptor_keys_in_first_occurrence_order :
  forall (cls : pyclass) (name : ustr) (classID : Key)
         (raw : list (Key * element)),
    exists items,
      new_Descriptor cls name classID raw
      = descriptor_obj cls name classID items
      /\ map fst items = rev (nodup Key_eq_dec (rev (map fst raw)))
      /\ (NoDup (map fst raw) -> items = raw).
Proof.
  intros cls name classID raw.
  exists (OrderedDict Key_eqb raw). split; [reflexivity|].
  split; [apply OrderedDict_keys|].
  intros H. apply OrderedDict_id; [apply Key_eqb_eq|exact H].
Qed.

Lemma Descriptor_keys_in_first_occurrence_order_witness :
  exists items,
    new_Descriptor Descriptor [] (RawKey [x01])
      [(RawKey [x02], bool_obj Bool true); (RawKey [x03], bool_obj Bool true)]
    = descriptor_obj Descriptor [] (RawKey [x01]) items
    /\ items
       = [(RawKey [x02], bool_obj Bool true);
          (RawKey [x03], bool_obj Bool true)].
Proof.
  destruct (Descriptor_keys_in_first_occurrence_order Descriptor []
              (RawKey [x01])
              [(RawKey [x02], bool_obj Bool true);
               (RawKey [x03], bool_obj Bool true)])
    as (items & H1 & _ & H3).
  exists items. split; [exact H1|]. apply H3.
  repeat constructor; cbn; intuition discriminate.
Defined.

(** ** No encoding is the start of another *)

(** Two trees of one class that encode, with no empty [bytes] key, have
    encodings neither of which is the start of the other, unless they are
    the same tree: the encoding tells the trees apart and tells where a
    tree ends. *)
Theorem encoding_is_prefix_free :
  forall (K : constants) (e1 e2 : element) (bs1 bs2 rest : bytes),
    constants_ok K ->
    valid K e1 = true -> keys_nonempty e1 = true ->
    valid K e2 = true -> keys_nonempty e2 = true ->
    class_of e1 = class_of e2 ->
    tobytes K e1 = Ok bs1 ->
    tobytes K e2 = Ok bs2 ->
    bs2 = bs1 ++ rest ->
    e1 = e2 /\ rest = [].
Proof.
  intros K e1 e2 bs1 bs2 rest HK V1 N1 V2 N2 Hcls T1 T2 ->.
  unfold tobytes in T1, T2.
  destruct (write K e1 []) as [[n1 o1]| |] eqn:W1; try discriminate T1.
  destruct (write K e2 []) as [[n2 o2]| |] eqn:W2; try discriminate T2.
  inversion T1; subst o1. inversion T2; subst o2. clear T1 T2.
  pose proof (depth_below_length K e1 n1 bs1 W1) as D1.
  pose proof (depth_below_length K e2 n2 _ W2) as D2.
  assert (F1 : (depth e1 <= S (length (bs1 ++ rest)))%nat)
    by (rewrite length_app; lia).
  pose proof (codec_element K e1 HK V1 N1 _ F1 n1 bs1 W1 rest []) as R1.
  pose proof (codec_element K e2 HK V2 N2 _ D2 n2 _ W2 [] []) as R2.
  rewrite app_nil_r, <- Hcls, R1 in R2.
  inversion R2. auto.
Qed.

Lemma encoding_is_prefix_free_witness :
  bool_obj Bool true = bool_obj Bool true /\ @nil byte = [].
Proof.
  apply (encoding_is_prefix_free psd (bool_obj Bool true)
           (bool_obj Bool true) [x01] [x01] [] psd_ok);
    reflexivity.
Defined.

(** ** Looking an entry up *)

Lemma encode_ascii_bytes (s : ustr) (b : bytes) :
  encode_ascii s = Some b -> length b = length s.
Proof.
  revert b. induction s as [|u s IH]; intros b H.
  - inversion H. reflexivity.
  - cbn [encode_ascii] in H.
    destruct ((0 <=? u) && (u <? 128)); [|discriminate H].
    destruct (encode_ascii s) as [b'|]; [|discriminate H].
    inversion H. cbn. f_equal. now apply IH.
Qed.

(** [Descriptor.__getitem__]: a [str] key finds what its ASCII bytes
    find, and a [str] with a character from 128 on raises
    [UnicodeEncodeError] whatever the map holds; the last pair given to
    the constructor under a [bytes] key is the one found; a key under
    which the map holds nothing raises [KeyError]. *)
Theorem Descriptor_getitem_finds_last :
  forall (items raw pre post : list (Key * element)) (b : bytes)
         (s : ustr) (v : element),
    (encode_ascii s = Some b ->
     Descriptor_getitem items (inr s) = Descriptor_getitem items (inl b))
    /\ (encode_ascii s = None ->
        Descriptor_getitem items (inr s) = inl UnicodeEncodeError)
    /\ (raw = pre ++ (RawKey b, v) :: post ->
        ~ In (RawKey b) (map fst post) ->
        Descriptor_getitem (OrderedDict Key_eqb raw) (inl b) = inr v)
    /\ (~ In (RawKey b) (map fst raw) ->
        Descriptor_getitem (OrderedDict Key_eqb raw) (inl b) = inl KeyError).
Proof.
  intros items raw pre post b s v. split; [|split; [|split]].
  - intros H. unfold Descriptor_getitem. now rewrite H.
  - intros H. unfold Descriptor_getitem. now rewrite H.
  - intros -> Hpost. unfold Descriptor_getitem.
    rewrite OrderedDict_last_wins; [reflexivity|apply Key_eqb_eq|exact Hpost].
  - intros Hout. unfold Descriptor_getitem, OrderedDict.
    rewrite OrderedDict_fold_get; [reflexivity|apply Key_eqb_eq|exact Hout].
Qed.

Lemma Descriptor_getitem_finds_last_witness :
  Descriptor_getitem
    [(RawKey (b4 "N" "m" " " " "), bool_obj Bool true)] (inr [78; 109; 32; 32])
  = Descriptor_getitem
      [(RawKey (b4 "N" "m" " " " "), bool_obj Bool true)]
      (inl (b4 "N" "m" " " " "))
  /\ Descriptor_getitem
       (OrderedDict Key_eqb
          ([(RawKey [x01], bool_obj Bool false)]
             ++ (RawKey [x01], bool_obj Bool true) :: []))
       (inl [x01])
     = inr (bool_obj Bool true)
  /\ Descriptor_getitem
       (OrderedDict Key_eqb [(RawKey [x01], bool_obj Bool true)])
       (inl [x02])
     = inl KeyError.
Proof.
  split; [|split].
  - apply (Descriptor_getitem_finds_last
             [(RawKey (b4 "N" "m" " " " "), bool_obj Bool true)]
             [] [] [] (b4 "N" "m" " " " ") [78; 109; 32; 32]
             (bool_obj Bool true)).
    reflexivity.
  - apply (Descriptor_getitem_finds_last []
             ([(RawKey [x01], bool_obj Bool false)]
                ++ (RawKey [x01], bool_obj Bool true) :: [])
             [(RawKey [x01], bool_obj Bool false)] [] [x01] []
             (bool_obj Bool true)).
    + reflexivity.
    + cbn. tauto.
  - apply (Descriptor_getitem_finds_last []
             [(RawKey [x01], bool_obj Bool true)]
             [] [] [x02] [] (bool_obj Bool true)).
    cbn. intros [H|[]]. discriminate H.
Defined.

(** ** The [write] of the base classes *)

Lemma sum_writes_layout K items :
  forall total out n out',
    sum_writes (write K) items total out = Ok (n, out') ->
    out' = out ++ flat_map (body_bytes K) items
    /\ n = total + len (flat_map (body_bytes K) items).
Proof.
  induction items as [|v items IH]; intros total out n out' H;
    cbn [sum_writes flat_map] in *.
  - apply ret_inv in H. destruct H as [-> ->].
    rewrite app_nil_r. cbn. split; [reflexivity|lia].
  - apply bind_Ok_inv in H. destruct H as (w & o & Hv & H).
    pose proof (write_body_bytes K v out w o Hv) as Eo.
    apply (uniform_Ok_inv _ _ _ _ (uniform_write K v)) in Hv.
    destruct Hv as (bs & Hv & Eo').
    assert (Ebs : bs = body_bytes K v).
    { rewrite Eo in Eo'. now apply app_inv_head in Eo'. }
    apply tally_write in Hv. subst o bs.
    apply IH in H. destruct H as [-> ->].
    rewrite <- app_assoc, len_app. split; [reflexivity|lia].
Qed.

(** [ListElement.write] and [DictElement.write], which the classes of the
    module override, write the bodies of the items one after the other,
    with no count and no tag, and return the number of bytes written. *)
Theorem base_write_is_the_sum_of_the_bodies :
  forall (K : constants) (out out' : ostream) (n : Z),
    (forall items,
        ListElement_write (write K) items out = Ok (n, out') ->
        out' = out ++ flat_map (body_bytes K) items
        /\ n = len (flat_map (body_bytes K) items))
    /\ (forall items : list (Key * element),
           DictElement_write (write K) items out = Ok (n, out') ->
           out' = out ++ flat_map (body_bytes K) (map snd items)
           /\ n = len (flat_map (body_bytes K) (map snd items))).
Proof.
  intros K out out' n. split.
  - intros items H. apply sum_writes_layout in H.
    destruct H as [-> ->]. split; [reflexivity|lia].
  - intros items H. apply sum_writes_layout in H.
    destruct H as [-> ->]. split; [reflexivity|lia].
Qed.

Lemma base_write_is_the_sum_of_the_bodies_witness :
  [x01; x00] = [] ++ flat_map (body_bytes psd)
                       [bool_obj Bool true; bool_obj Bool false]
  /\ 2 = len (flat_map (body_bytes psd)
                [bool_obj Bool true; bool_obj Bool false]).
Proof.
  apply (proj1 (base_write_is_the_sum_of_the_bodies psd [] [x01; x00] 2)).
  vm_compute. reflexivity.
Defined.

(** ** What a decode takes from the stream *)

Lemma consumes_weaken {A} k k' (m : M istream A) :
  consumes k m -> (k' <= k)%nat -> consumes k' m.
Proof.
  intros H Hk s a s' E. destruct (H s a s' E) as (c & d & H1 & H2 & H3).
  exists c, d. repeat split; try assumption. lia.
Qed.

Lemma consumes_ret {A} (a : A) : consumes 0 (ret a).
Proof.
  intros s b s' E. apply ret_inv in E. destruct E as [_ ->].
  exists [], []. cbn. rewrite app_nil_r. auto.
Qed.

Lemma consumes_raise {A} k e : consumes k (@raise istream A e).
Proof. intros s a s' E. discriminate E. Qed.

Lemma consumes_fp_read n : consumes 0 (fp_read n).
Proof.
  intros [b lg] a s' E. unfold fp_read in E. cbn [fst snd] in E.
  inversion E; subst. cbn [fst snd].
  exists (firstn n b), []. rewrite firstn_skipn, app_nil_r.
  repeat split. lia.
Qed.

Lemma consumes_logger_warning d : consumes 0 (logger_warning d).
Proof.
  intros [b lg] a s' E. unfold logger_warning in E. cbn [fst snd] in E.
  inversion E; subst. cbn [fst snd]. exists [], [d]. auto.
Qed.

Lemma consumes_bind {A B} k1 k2 (m : M istream A) (f : A -> M istream B) :
  consumes k1 m -> (forall a, consumes k2 (f a)) ->
  consumes (k1 + k2) (bind m f).
Proof.
  intros Hm Hf s b s' E. apply bind_Ok_inv in E.
  destruct E as (a & s1 & E1 & E2).
  destruct (Hm _ _ _ E1) as (c1 & d1 & P1 & L1 & G1).
  destruct (Hf a _ _ _ E2) as (c2 & d2 & P2 & L2 & G2).
  exists (c1 ++ c2), (d1 ++ d2).
  rewrite P1, P2, G2, G1, length_app, <- !app_assoc.
  repeat split. lia.
Qed.

Lemma consumes_bind_first {A B} k (m : M istream A) (f : A -> M istream B) :
  consumes k m -> (forall a, consumes 0 (f a)) -> consumes k (bind m f).
Proof.
  intros Hm Hf.
  apply (consumes_weaken (k + 0)); [apply consumes_bind; assumption|lia].
Qed.

Lemma consumes_if {A} k (b : bool) (m1 m2 : M istream A) :
  consumes k m1 -> consumes k m2 -> consumes k (if b then m1 else m2).
Proof. now destruct b. Qed.

Lemma consumes_read_exact n : consumes n (read_exact n).
Proof.
  intros [b lg] a s' E. unfold read_exact, bind, fp_read in E.
  cbn [fst snd] in E.
  destruct (Nat.eqb_spec (length (firstn n b)) n) as [L|L];
    [|discriminate E].
  apply ret_inv in E. destruct E as [-> ->]. cbn [fst snd].
  exists (firstn n b), []. rewrite firstn_skipn, app_nil_r.
  repeat split. lia.
Qed.

Create HintDb consumes.
#[local] Hint Resolve consumes_ret consumes_raise consumes_fp_read
  consumes_logger_warning consumes_if : consumes.
#[local] Hint Extern 2 (consumes 0 (bind _ _)) =>
  apply (consumes_bind 0 0); [ | intro ] : consumes.
#[local] Hint Extern 1 (consumes 0 (read_exact _)) =>
  apply (consumes_weaken _ 0 _ (consumes_read_exact _)), Nat.le_0_l
  : consumes.

Lemma consumes_read_block {A} n (f : bytes -> A) :
  consumes n (data <- read_exact n ;; ret (f data)).
Proof.
  apply consumes_bind_first; [apply consumes_read_exact|].
  intro. apply consumes_ret.
Qed.

Lemma consumes_read_fmt_I : consumes 4 read_fmt_I.
Proof. apply consumes_read_block. Qed.

Lemma consumes_read_unicode_string p : consumes 4 (read_unicode_string p).
Proof.
  unfold read_unicode_string.
  apply consumes_bind_first; [apply consumes_read_fmt_I|].
  intro. auto 12 with consumes.
Qed.

Lemma consumes_read_length_and_key K : consumes 4 (read_length_and_key K).
Proof.
  unfold read_length_and_key.
  apply consumes_bind_first; [apply consumes_read_fmt_I|].
  intro. auto 12 with consumes.
Qed.

Lemma consumes_OSType_call K tag : consumes 0 (OSType_call K tag).
Proof.
  unfold OSType_call. destruct (find _ all_OSType); auto with consumes.
Qed.

Lemma consumes_UnitFloatType_call K unit :
  consumes 0 (UnitFloatType_call K unit).
Proof. unfold UnitFloatType_call. auto with consumes. Qed.

#[local] Hint Resolve consumes_OSType_call consumes_UnitFloatType_call
  : consumes.
#[local] Hint Extern 1 (consumes 0 read_fmt_I) =>
  apply (consumes_weaken _ 0 _ consumes_read_fmt_I), Nat.le_0_l : consumes.
#[local] Hint Extern 1 (consumes 0 (read_unicode_string _)) =>
  apply (consumes_weaken _ 0 _ (consumes_read_unicode_string _)),
    Nat.le_0_l : consumes.
#[local] Hint Extern 1 (consumes 0 (read_length_and_key _)) =>
  apply (consumes_weaken _ 0 _ (consumes_read_length_and_key _)),
    Nat.le_0_l : consumes.

(** Reading a tag: when the 4 bytes are the value of a member, 4 bytes
    were there to read. *)
Lemma consumes_tag K {B} k (r : OSType -> M istream B) :
  constants_ok K -> (forall t, consumes k (r t)) ->
  consumes (4 + k) (tag <- fp_read 4 ;; ostype <- OSType_call K tag ;;
                    r ostype).
Proof.
  intros HK Hr [b lg] a s' E. unfold bind at 1 in E.
  unfold fp_read in E. cbn [fst snd] in E.
  apply bind_Ok_inv in E. destruct E as (t & s1 & Et & E).
  unfold OSType_call in Et.
  destruct (find _ all_OSType) as [t0|] eqn:F; [|discriminate Et].
  apply ret_inv in Et. destruct Et as [-> ->].
  apply find_some in F. destruct F as [_ F].
  apply bytes_eqb_eq in F.
  assert (L : length (firstn 4 b) = 4%nat)
    by (rewrite <- F; apply (OSType_value_length K HK)).
  destruct (Hr _ _ _ _ E) as (c & d & P & Lc & G). cbn [fst snd] in *.
  exists (firstn 4 b ++ c), d.
  rewrite <- app_assoc, <- P, firstn_skipn, length_app.
  repeat split; [lia|exact G].
Qed.

Lemma consumes_tag_any K {B} k (r : OSType -> M istream B) :
  (forall t, consumes k (r t)) ->
  consumes k (tag <- fp_read 4 ;; ostype <- OSType_call K tag ;; r ostype).
Proof.
  intros Hr.
  apply (consumes_weaken (0 + (0 + k))); [|lia].
  apply consumes_bind; [apply consumes_fp_read|]. intros tag.
  apply consumes_bind; [apply consumes_OSType_call|]. exact Hr.
Qed.

Section ContainerConsumes.
Variable K : constants.
Context {D V : Type}.
Variable TYPES_get' : OSType -> option D.
Variable decoder_read : D -> M istream V.
Variable is_None : V -> bool.
Variables tagk c : nat.
Hypothesis tag_consumes :
  forall B k (r : OSType -> M istream B),
    (forall t, consumes k (r t)) ->
    consumes (tagk + k)
      (tag <- fp_read 4 ;; ostype <- OSType_call K tag ;; r ostype).
Hypothesis decoder_consumes : forall d, consumes c (decoder_read d).

Lemma consumes_Descriptor_read_loop count :
  forall items,
    consumes (count * (4 + (tagk + c)))
      (Descriptor_read_loop K TYPES_get' decoder_read is_None count items).
Proof.
  induction count as [|count IH]; intros items; cbn [Descriptor_read_loop].
  - apply consumes_ret.
  - apply (consumes_weaken
             (4 + (tagk + (c + (0 + count * (4 + (tagk + c)))))));
      [|lia].
    apply consumes_bind; [apply consumes_read_length_and_key|].
    intros key. apply tag_consumes. intros t.
    destruct (TYPES_get' t) as [d|]; [|apply consumes_raise].
    apply consumes_bind; [apply decoder_consumes|]. intros v.
    apply consumes_bind; [auto with consumes|]. intros _. apply IH.
Qed.

Lemma consumes_List_read_loop count :
  forall items,
    consumes (count * (tagk + c))
      (List_read_loop K TYPES_get' decoder_read count items).
Proof.
  induction count as [|count IH]; intros items; cbn [List_read_loop].
  - apply consumes_ret.
  - apply (consumes_weaken (tagk + (c + count * (tagk + c)))); [|lia].
    apply tag_consumes. intros t.
    destruct (TYPES_get' t) as [d|]; [|apply consumes_raise].
    apply consumes_bind; [apply decoder_consumes|]. intros v. apply IH.
Qed.

Lemma consumes_Descriptor_read {E}
  (new : ustr -> Key -> list (Key * V) -> E) :
  consumes 12 (Descriptor_read K TYPES_get' decoder_read is_None new).
Proof.
  unfold Descriptor_read.
  apply (consumes_weaken (4 + (4 + (4 + (0 + 0))))); [|lia].
  apply consumes_bind; [apply consumes_read_unicode_string|]. intros name.
  apply consumes_bind; [apply consumes_read_length_and_key|]. intros cid.
  apply consumes_bind; [apply consumes_read_fmt_I|]. intros count.
  apply consumes_bind; [|intro; apply consumes_ret].
  eapply consumes_weaken; [apply consumes_Descriptor_read_loop|lia].
Qed.

Lemma consumes_List_read {E} (new : list V -> E) :
  consumes 4 (List_read K TYPES_get' decoder_read new).
Proof.
  unfold List_read.
  apply (consumes_weaken (4 + (0 + 0))); [|lia].
  apply consumes_bind; [apply consumes_read_fmt_I|]. intros count.
  apply consumes_bind; [|intro; apply consumes_ret].
  eapply consumes_weaken; [apply consumes_List_read_loop|lia].
Qed.
End ContainerConsumes.

Lemma consumes_read K fuel : forall cls, consumes 1 (read K fuel cls).
Proof.
  induction fuel as [|fuel IH]; intros cls.
  - intros s a s' E. discriminate E.
  - intros s a s' E. rewrite read_unfold in E. revert s a s' E.
    change (consumes 1
              match method_owner cls with
              | Descriptor =>
                  Descriptor_read K TYPES_get (read K fuel)
                    (fun _ => false) (new_Descriptor cls)
              | List => List_read K TYPES_get (read K fuel) (list_obj cls)
              | Property => Property_read K cls
              | UnitFloat => UnitFloat_read K cls
              | UnitFloats => UnitFloats_read K cls
              | Double => Double_read cls
              | Class => Class_read K cls
              | String => String_read cls
              | EnumeratedReference => EnumeratedReference_read K cls
              | Offset => Offset_read K cls
              | Bool => Bool_read cls
              | LargeInteger => LargeInteger_read cls
              | Integer => Integer_read cls
              | Enum => Enum_read K cls
              | RawData => RawData_read cls
              | _ => raise NotImplementedError
              end).
    destruct (method_owner cls); try apply consumes_raise.
    + eapply consumes_weaken;
        [apply (consumes_Descriptor_read K TYPES_get (read K fuel)
                  (fun _ => false) 0 1
                  (fun B k r => consumes_tag_any K k r) IH)|lia].
    + eapply consumes_weaken;
        [apply (consumes_List_read K TYPES_get (read K fuel) 0 1
                  (fun B k r => consumes_tag_any K k r) IH)|lia].
    + unfold Property_read.
      eapply consumes_weaken;
        [apply consumes_bind_first;
         [apply consumes_read_unicode_string|intro; auto 12 with consumes]
        |lia].
    + unfold UnitFloat_read, read_fmt_4sd.
      eapply consumes_weaken;
        [apply consumes_bind_first;
         [apply consumes_read_block|intro; auto 12 with consumes]|lia].
    + unfold UnitFloats_read, read_fmt_4sI.
      eapply consumes_weaken;
        [apply consumes_bind_first;
         [apply consumes_read_block
         |intro; unfold read_fmt_doubles; auto 12 with consumes]|lia].
    + unfold Double_read, read_fmt_d.
      eapply consumes_weaken;
        [apply consumes_bind_first;
         [apply consumes_read_block|intro; auto 12 with consumes]|lia].
    + unfold Class_read.
      eapply consumes_weaken;
        [apply consumes_bind_first;
         [apply consumes_read_unicode_string|intro; auto 12 with consumes]
        |lia].
    + unfold String_read.
      eapply consumes_weaken;
        [apply consumes_bind_first;
         [apply consumes_read_unicode_string|intro; auto 12 with consumes]
        |lia].
    + unfold EnumeratedReference_read.
      eapply consumes_weaken;
        [apply consumes_bind_first;
         [apply consumes_read_unicode_string|intro; auto 12 with consumes]
        |lia].
    + unfold Offset_read.
      eapply consumes_weaken;
        [apply consumes_bind_first;
         [apply consumes_read_unicode_string|intro; auto 12 with consumes]
        |lia].
    + unfold Bool_read, read_fmt_bool.
      eapply consumes_weaken;
        [apply consumes_bind_first;
         [apply consumes_read_block|intro; auto 12 with consumes]|lia].
    + unfold LargeInteger_read, read_fmt_q.
      eapply consumes_weaken;
        [apply consumes_bind_first;
         [apply consumes_read_block|intro; auto 12 with consumes]|lia].
    + unfold Integer_read, read_fmt_i.
      eapply consumes_weaken;
        [apply consumes_bind_first;
         [apply consumes_read_block|intro; auto 12 with consumes]|lia].
    + unfold Enum_read.
      eapply consumes_weaken;
        [apply consumes_bind_first;
         [apply consumes_read_length_and_key|intro; auto 12 with consumes]
        |lia].
    + unfold RawData_read, read_length_block.
      eapply consumes_weaken;
        [apply consumes_bind_first;
         [apply consumes_bind_first;
          [apply consumes_read_fmt_I|intro; auto 12 with consumes]
         |intro; auto 12 with consumes]|lia].
Qed.

Lemma consumes_remaining {A} k (m : M istream A) s a s' :
  consumes k m -> m s = Ok (a, s') ->
  (k + remaining s' <= remaining s)%nat.
Proof.
  intros H E. destruct (H _ _ _ E) as (c & d & P & L & _).
  unfold remaining. rewrite P, length_app. lia.
Qed.

(** Every [read] that returns has read at least one byte, off the front
    of the stream: what it leaves is what followed the bytes it read, and
    the log it leaves is the log it found with its own diagnostics
    after. *)
Theorem read_takes_a_prefix :
  forall (K : constants) (fuel : nat) (cls : pyclass) (s s' : istream)
         (e : element),
    read K fuel cls s = Ok (e, s') ->
    exists c d,
      fst s = c ++ fst s' /\ (1 <= length c)%nat /\ snd s' = snd s ++ d.
Proof.
  intros K fuel cls s s' e H. exact (consumes_read K fuel cls s e s' H).
Qed.

Lemma read_takes_a_prefix_witness :
  exists c d,
    [x01; x02] = c ++ [x02] /\ (1 <= length c)%nat
    /\ @nil diagnostic = [] ++ d.
Proof.
  apply (read_takes_a_prefix psd 1 Bool ([x01; x02], []) ([x02], [])
           (bool_obj Bool true)).
  vm_compute. reflexivity.
Defined.

(** The count that a Descriptor or a List declares is bounded by the
    stream when [read] returns: each entry of a Descriptor took at least
    9 bytes (a key, a tag, a body) after the 12 of the head, each item of
    a List at least 5 after the 4 of the count. *)
Theorem declared_count_fits_the_stream :
  forall (K : constants) (fuel : nat) (cls : pyclass) (s s' : istream)
         (e : element),
    constants_ok K ->
    read K fuel cls s = Ok (e, s') ->
    (method_owner cls = Descriptor ->
     exists name s1 classID s2 count s3,
       read_unicode_string true s = Ok (name, s1)
       /\ read_length_and_key K s1 = Ok (classID, s2)
       /\ read_fmt_I s2 = Ok (count, s3)
       /\ (12 + 9 * Z.to_nat count + remaining s' <= remaining s)%nat)
    /\ (method_owner cls = List ->
        exists count s1,
          read_fmt_I s = Ok (count, s1)
          /\ (4 + 5 * Z.to_nat count + remaining s' <= remaining s)%nat).
Proof.
  intros K fuel cls s s' e HK H.
  destruct fuel as [|fuel]; [discriminate H|].
  rewrite read_unfold in H. split; intros Hown; rewrite Hown in H.
  - unfold Descriptor_read in H.
    apply bind_Ok_inv in H. destruct H as (name & s1 & H1 & H).
    apply bind_Ok_inv in H. destruct H as (classID & s2 & H2 & H).
    apply bind_Ok_inv in H. destruct H as (count & s3 & H3 & H).
    apply bind_Ok_inv in H. destruct H as (raw & s4 & H4 & H).
    apply ret_inv in H. destruct H as [_ ->].
    exists name, s1, classID, s2, count, s3.
    repeat split; try assumption.
    pose proof (consumes_remaining _ _ _ _ _
                  (consumes_read_unicode_string true) H1).
    pose proof (consumes_remaining _ _ _ _ _
                  (consumes_read_length_and_key K) H2).
    pose proof (consumes_remaining _ _ _ _ _ consumes_read_fmt_I H3).
    pose proof (consumes_remaining _ _ _ _ _
                  (consumes_Descriptor_read_loop K TYPES_get
                     (read K fuel) (fun _ => false) 4 1
                     (fun B k r => consumes_tag K k r HK)
                     (consumes_read K fuel) (Z.to_nat count) []) H4).
    lia.
  - unfold List_read in H.
    apply bind_Ok_inv in H. destruct H as (count & s1 & H1 & H).
    apply bind_Ok_inv in H. destruct H as (items & s2 & H2 & H).
    apply ret_inv in H. destruct H as [_ ->].
    exists count, s1. split; [assumption|].
    pose proof (consumes_remaining _ _ _ _ _ consumes_read_fmt_I H1).
    pose proof (consumes_remaining _ _ _ _ _
                  (consumes_List_read_loop K TYPES_get (read K fuel) 4 1
                     (fun B k r => consumes_tag K k r HK)
                     (consumes_read K fuel) (Z.to_nat count) []) H2).
    lia.
Qed.

Lemma declared_count_fits_the_stream_witness :
  exists count s1,
    read_fmt_I (be_bytes 4 1 ++ b4 "b" "o" "o" "l" ++ [x01], [])
    = Ok (count, s1)
    /\ (4 + 5 * Z.to_nat count + remaining ([], []) <=
        remaining (be_bytes 4 1 ++ b4 "b" "o" "o" "l" ++ [x01], []))%nat.
Proof.
  apply (declared_count_fits_the_stream psd 2 List
           (be_bytes 4 1 ++ b4 "b" "o" "o" "l" ++ [x01], []) ([], [])
           (list_obj List [bool_obj Bool true]) psd_ok).
  - vm_compute. reflexivity.
  - reflexivity.
Defined.

(** ** What a decode builds *)

Lemma be_value_below n bs :
  (length bs <= n)%nat -> 0 <= be_value bs < 256 ^ Z.of_nat n.
Proof.
  intros H. pose proof (be_value_range bs) as R.
  assert (256 ^ Z.of_nat (length bs) <= 256 ^ Z.of_nat n)
    by (apply Z.pow_le_mono_r; lia).
  lia.
Qed.

Lemma ustr_ok_be_array count :
  forall data, ustr_ok (be_array_from_bytes count data) = true.
Proof.
  induction count as [|count IH]; intros data; [reflexivity|].
  cbn [be_array_from_bytes ustr_ok forallb].
  pose proof (be_value_below 2 (firstn 2 data)
                ltac:(rewrite length_firstn; lia)) as R.
  change (256 ^ Z.of_nat 2) with (2 ^ 16) in R.
  apply andb_true_intro. split; [|apply IH].
  apply andb_true_intro. split; [apply Z.leb_le|apply Z.ltb_lt]; lia.
Qed.

Lemma float_ok_be_value bs : (length bs <= 8)%nat -> float_ok (be_value bs) = true.
Proof.
  intros H. pose proof (be_value_below 8 bs H) as R.
  change (256 ^ Z.of_nat 8) with (2 ^ 64) in R. unfold float_ok.
  apply andb_true_intro. split; [apply Z.leb_le|apply Z.ltb_lt]; lia.
Qed.

Lemma float_ok_unpack_doubles count :
  forall data, forallb float_ok (unpack_doubles count data) = true.
Proof.
  induction count as [|count IH]; intros data; [reflexivity|].
  cbn [unpack_doubles forallb]. apply andb_true_intro. split; [|apply IH].
  apply float_ok_be_value. rewrite length_firstn. lia.
Qed.

Lemma read_unicode_string_ok p s v s' :
  read_unicode_string p s = Ok (v, s') -> ustr_ok v = true.
Proof.
  intros H. unfold read_unicode_string in H.
  apply bind_Ok_inv in H. destruct H as (n & s1 & _ & H).
  apply bind_Ok_inv in H. destruct H as (data & s2 & _ & H).
  apply bind_Ok_inv in H. destruct H as (pad & s3 & _ & H).
  apply ret_inv in H. destruct H as [-> _]. apply ustr_ok_be_array.
Qed.

Lemma read_length_and_key_member K s k s' :
  read_length_and_key K s = Ok (k, s') -> member_ok K k = true.
Proof.
  intros H. unfold read_length_and_key in H.
  apply bind_Ok_inv in H. destruct H as (n & s1 & _ & H).
  apply bind_Ok_inv in H. destruct H as (key & s2 & _ & H).
  destruct (n =? 0).
  - destruct (DescriptorClassID_has K key) eqn:E.
    + apply ret_inv in H. destruct H as [-> _]. exact E.
    + apply bind_Ok_inv in H. destruct H as (u & s3 & _ & H).
      apply ret_inv in H. destruct H as [-> _]. reflexivity.
  - apply ret_inv in H. destruct H as [-> _]. reflexivity.
Qed.

Lemma UnitFloatType_call_member K unit (s : istream) u s' :
  UnitFloatType_call K unit s = Ok (u, s') -> UnitFloatType_has K u = true.
Proof.
  unfold UnitFloatType_call.
  destruct (UnitFloatType_has K unit) eqn:E; [|discriminate].
  intros H. apply ret_inv in H. destruct H as [-> _]. exact E.
Qed.

Lemma read_block_float {A} n (f : bytes -> A) (g : A -> Z) s a s' :
  (data <- read_exact n ;; ret (f data)) s = Ok (a, s') ->
  (forall data, length data = n -> float_ok (g (f data)) = true) ->
  float_ok (g a) = true.
Proof.
  intros H Hf. apply bind_Ok_inv in H. destruct H as (data & s1 & H1 & H).
  apply ret_inv in H. destruct H as [-> _]. apply Hf.
  unfold read_exact in H1.
  apply bind_Ok_inv in H1. destruct H1 as (d0 & s0 & _ & H1).
  destruct (Nat.eqb_spec (length d0) n) as [L|L]; [|discriminate H1].
  apply ret_inv in H1. destruct H1 as [-> _]. exact L.
Qed.

Lemma NoDup_nodupb (l : list Key) : NoDup l -> nodupb Key_eqb l = true.
Proof.
  induction 1 as [|k l Hk _ IH]; [reflexivity|].
  cbn [nodupb]. rewrite IH, andb_true_r. apply negb_true_iff.
  apply not_true_is_false. intros H. now apply existsb_Key_eqb_In in H.
Qed.

Lemma dict_set_Forall {B} (P : Key * B -> Prop) k v d :
  (forall k' v', P (k', v') -> P (k', v)) ->
  P (k, v) -> Forall P d -> Forall P (dict_set Key_eqb k v d).
Proof.
  intros Hrep Hkv. induction 1 as [|[k' v'] d Hd Hall IH]; cbn.
  - now repeat constructor.
  - destruct (Key_eqb k k'); constructor; eauto.
Qed.

Lemma OrderedDict_Forall {B} (PK : Key -> Prop) (PV : B -> Prop) raw :
  Forall (fun kv => PK (fst kv) /\ PV (snd kv)) raw ->
  Forall (fun kv : Key * B => PK (fst kv) /\ PV (snd kv))
    (OrderedDict Key_eqb raw).
Proof.
  intros H. unfold OrderedDict.
  assert (G : forall d,
             Forall (fun kv : Key * B => PK (fst kv) /\ PV (snd kv)) d ->
             Forall (fun kv : Key * B => PK (fst kv) /\ PV (snd kv))
               (fold_left
                  (fun d kv => dict_set Key_eqb (fst kv) (snd kv) d) raw d)).
  { induction H as [|[k v] raw [Hk Hv] _ IH]; intros d Hd; [exact Hd|].
    cbn [fold_left fst snd] in *. apply IH.
    apply dict_set_Forall; [|now split|exact Hd].
    cbn. intros k' v' [Hk' _]. now split. }
  apply G. constructor.
Qed.

Section ContainerValid.
Variable K : constants.
Context {D : Type}.
Variable TYPES_get' : OSType -> option D.
Variable decoder_read : D -> M istream element.
Variable is_None : element -> bool.
Hypothesis decoder_valid :
  forall d s v s', decoder_read d s = Ok (v, s') -> valid K v = true.

Lemma Descriptor_read_loop_valid count :
  forall acc s items s',
    Forall (fun kv => member_ok K (fst kv) = true /\ valid K (snd kv) = true)
      acc ->
    Descriptor_read_loop K TYPES_get' decoder_read is_None count acc s
    = Ok (items, s') ->
    Forall (fun kv => member_ok K (fst kv) = true /\ valid K (snd kv) = true)
      items.
Proof.
  induction count as [|count IH]; intros acc s items s' Hacc H.
  - apply ret_inv in H. destruct H as [-> _]. exact Hacc.
  - cbn [Descriptor_read_loop] in H.
    apply bind_Ok_inv in H. destruct H as (key & s1 & Hkey & H).
    apply bind_Ok_inv in H. destruct H as (tag & s2 & _ & H).
    apply bind_Ok_inv in H. destruct H as (t & s3 & _ & H).
    destruct (TYPES_get' t) as [d|]; [|discriminate H].
    apply bind_Ok_inv in H. destruct H as (v & s4 & Hv & H).
    apply bind_Ok_inv in H. destruct H as (u & s5 & _ & H).
    apply IH in H; [exact H|].
    apply Forall_app. split; [exact Hacc|]. constructor; [|constructor].
    cbn. split; [now apply read_length_and_key_member in Hkey|eauto].
Qed.

Lemma List_read_loop_valid count :
  forall acc s items s',
    Forall (fun v => valid K v = true) acc ->
    List_read_loop K TYPES_get' decoder_read count acc s = Ok (items, s') ->
    Forall (fun v => valid K v = true) items.
Proof.
  induction count as [|count IH]; intros acc s items s' Hacc H.
  - apply ret_inv in H. destruct H as [-> _]. exact Hacc.
  - cbn [List_read_loop] in H.
    apply bind_Ok_inv in H. destruct H as (tag & s2 & _ & H).
    apply bind_Ok_inv in H. destruct H as (t & s3 & _ & H).
    destruct (TYPES_get' t) as [d|]; [|discriminate H].
    apply bind_Ok_inv in H. destruct H as (v & s4 & Hv & H).
    apply IH in H; [exact H|].
    apply Forall_app. split; [exact Hacc|]. constructor; [|constructor].
    eauto.
Qed.
End ContainerValid.

Ltac invert_reads H :=
  repeat (apply bind_Ok_inv in H;
          let a := fresh "a" in
          let s := fresh "s" in
          let E := fresh "E" in
          destruct H as (a & s & E & H));
  apply ret_inv in H; destruct H as [-> _].

Ltac valid_atoms :=
  repeat match goal with
    | |- andb _ _ = true => apply andb_true_intro; split
    end;
  eauto using read_unicode_string_ok, read_length_and_key_member,
    UnitFloatType_call_member, float_ok_unpack_doubles.

Lemma read_valid K fuel :
  forall cls s e s',
    read K fuel cls s = Ok (e, s') -> valid K e = true /\ class_of e = cls.
Proof.
  induction fuel as [|fuel IH]; intros cls s e s' H; [discriminate H|].
  rewrite read_unfold in H.
  destruct (method_owner cls) eqn:Hown; try discriminate H.
  - unfold Descriptor_read in H.
    apply bind_Ok_inv in H. destruct H as (name & s1 & H1 & H).
    apply bind_Ok_inv in H. destruct H as (classID & s2 & H2 & H).
    apply bind_Ok_inv in H. destruct H as (count & s3 & H3 & H).
    apply bind_Ok_inv in H. destruct H as (raw & s4 & H4 & H).
    apply ret_inv in H. destruct H as [-> _].
    split; [|reflexivity].
    apply (Descriptor_read_loop_valid K TYPES_get (read K fuel)
             (fun _ => false)) in H4;
      [|intros d s0 v s0' E; now apply (IH d s0 v s0')|constructor].
    apply (OrderedDict_Forall (fun k => member_ok K k = true)
             (fun v => valid K v = true)) in H4.
    unfold new_Descriptor. cbn [valid]. rewrite Hown.
    valid_atoms.
    + apply NoDup_nodupb, OrderedDict_NoDup, Key_eqb_eq.
    + apply forallb_forall. rewrite Forall_forall in H4.
      intros kv Hin. destruct (H4 kv Hin) as [Hk Hv].
      now rewrite Hk, Hv.
  - unfold List_read in H.
    apply bind_Ok_inv in H. destruct H as (count & s3 & H3 & H).
    apply bind_Ok_inv in H. destruct H as (items & s4 & H4 & H).
    apply ret_inv in H. destruct H as [-> _].
    split; [|reflexivity].
    apply (List_read_loop_valid K TYPES_get (read K fuel)) in H4;
      [|intros d s0 v s0' E; now apply (IH d s0 v s0')|constructor].
    cbn [valid]. rewrite Hown. cbn [pyclass_beq andb].
    apply forallb_forall. rewrite Forall_forall in H4. exact H4.
  - unfold Property_read in H. invert_reads H.
    split; [|reflexivity]. cbn [valid]. rewrite Hown. valid_atoms.
  - unfold UnitFloat_read in H.
    apply bind_Ok_inv in H. destruct H as (uv & s1 & H1 & H).
    apply bind_Ok_inv in H. destruct H as (unit & s2 & H2 & H).
    apply ret_inv in H. destruct H as [-> _].
    split; [|reflexivity]. cbn [valid]. rewrite Hown. valid_atoms.
    apply (read_block_float 12 _ snd _ _ _ H1).
    intros data L. cbn [snd]. apply float_ok_be_value.
    rewrite length_skipn. lia.
  - unfold UnitFloats_read in H.
    apply bind_Ok_inv in H. destruct H as (uc & s1 & H1 & H).
    apply bind_Ok_inv in H. destruct H as (values & s2 & H2 & H).
    apply bind_Ok_inv in H. destruct H as (unit & s3 & H3 & H).
    apply ret_inv in H. destruct H as [-> _].
    split; [|reflexivity]. cbn [valid]. rewrite Hown. valid_atoms.
    unfold read_fmt_doubles in H2.
    apply bind_Ok_inv in H2. destruct H2 as (data & s4 & _ & H2).
    apply ret_inv in H2. destruct H2 as [-> _].
    apply float_ok_unpack_doubles.
  - unfold Double_read in H.
    apply bind_Ok_inv in H. destruct H as (v & s1 & H1 & H).
    apply ret_inv in H. destruct H as [-> _].
    split; [|reflexivity]. cbn [valid]. rewrite Hown. valid_atoms.
    apply (read_block_float 8 _ (fun z => z) _ _ _ H1).
    intros data L. apply float_ok_be_value. lia.
  - unfold Class_read in H. invert_reads H.
    split; [|reflexivity]. cbn [valid]. rewrite Hown. valid_atoms.
  - unfold String_read in H. invert_reads H.
    split; [|reflexivity]. cbn [valid]. rewrite Hown. valid_atoms.
  - unfold EnumeratedReference_read in H. invert_reads H.
    split; [|reflexivity]. cbn [valid]. rewrite Hown. valid_atoms.
  - unfold Offset_read in H. invert_reads H.
    split; [|reflexivity]. cbn [valid]. rewrite Hown. valid_atoms.
  - unfold Bool_read in H. invert_reads H.
    split; [|reflexivity]. cbn [valid]. now rewrite Hown.
  - unfold LargeInteger_read in H. invert_reads H.
    split; [|reflexivity]. cbn [valid]. now rewrite Hown.
  - unfold Integer_read in H. invert_reads H.
    split; [|reflexivity]. cbn [valid]. now rewrite Hown.
  - unfold Enum_read in H. invert_reads H.
    split; [|reflexivity]. cbn [valid]. rewrite Hown. valid_atoms.
  - unfold RawData_read in H. invert_reads H.
    split; [|reflexivity]. cbn [valid]. now rewrite Hown.
Qed.

(** Every tree that a decode returns is an instance of the class that
    was asked for and keeps the invariants of the data model, whatever
    the bytes were: members of the enumerations are members, text and
    floats are in range, a map holds each key once, children are valid
    in turn.  Such a tree with no empty [bytes] key, once encoded,
    decodes to itself. *)
Theorem decoded_trees_are_valid :
  forall (K : constants) (cls : pyclass) (data : bytes) (e : element),
    frombytes K cls data = Ok e ->
    valid K e = true
    /\ class_of e = cls
    /\ (constants_ok K -> keys_nonempty e = true ->
        forall bs, tobytes K e = Ok bs -> frombytes K cls bs = Ok e).
Proof.
  intros K cls data e H. unfold frombytes, frombytes_log in H.
  destruct (read K (S (length data)) cls (data, [])) as [[e0 s0]| |] eqn:E;
    try discriminate H.
  inversion H; subst e0; clear H.
  destruct (read_valid K _ _ _ _ _ E) as [Hvalid Hcls].
  split; [exact Hvalid|]. split; [exact Hcls|].
  intros HK Hkeys bs Hto. unfold tobytes in Hto.
  destruct (write K e []) as [[n out]| |] eqn:Hw; try discriminate Hto.
  inversion Hto; subst out; clear Hto.
  pose proof (codec_element K e HK Hvalid Hkeys (S (length bs))
                (depth_below_length K e n bs Hw) n bs Hw [] []) as R.
  rewrite app_nil_r, Hcls in R.
  assert (E2 : frombytes_log K cls bs = Ok (e, ([], []))) by exact R.
  unfold frombytes. now rewrite E2.
Qed.

Lemma decoded_trees_are_valid_witness :
  valid psd (descriptor_obj Descriptor [] (ClassID (b4 "n" "u" "l" "l"))
               [(RawKey (b4 "N" "m" " " " "), bool_obj Bool true)]) = true.
Proof.
  apply (decoded_trees_are_valid psd Descriptor repeated_key_stream).
  vm_compute. reflexivity.
Defined.

(** ** Trees that can be written *)

Lemma succeeds_ret {A} (a : A) : succeeds (ret a).
Proof. exists a, []. reflexivity. Qed.

Lemma succeeds_write_bytes data : succeeds (write_bytes data).
Proof. eexists _, _. reflexivity. Qed.

Lemma succeeds_bind {A B} (m : M ostream A) (k : A -> M ostream B) :
  succeeds m -> (forall a, uniform (k a)) -> (forall a, succeeds (k a)) ->
  succeeds (bind m k).
Proof.
  intros (a & bs & Hm) U Hk. destruct (Hk a) as (b & cs & Hka).
  exists b, (bs ++ cs). unfold bind. rewrite Hm, (U a bs), Hka. reflexivity.
Qed.

Lemma succeeds_write_fmt_I v :
  0 <= v < 2 ^ 32 -> succeeds (write_fmt_I v).
Proof. intros H. eexists _, _. now apply write_fmt_I_ok. Qed.

Lemma succeeds_write_unicode_string v p :
  len v < 2 ^ 32 -> succeeds (write_unicode_string v p).
Proof.
  intros H. eexists _, _.
  now apply write_unicode_string_ok.
Qed.

Lemma succeeds_write_length_and_key k :
  key_fits k = true -> succeeds (write_length_and_key k).
Proof.
  intros H. destruct k as [code|b]; eexists _, _.
  - apply write_length_and_key_member.
  - apply write_length_and_key_bytes. now apply Z.ltb_lt.
Qed.

Lemma succeeds_write_length_block value :
  len value < 2 ^ 32 ->
  succeeds (write_length_block (write_bytes value)).
Proof.
  intros H. unfold succeeds, write_length_block.
  cbn [write_bytes]. unfold bind.
  rewrite write_fmt_I_ok by (pose proof (len_nonneg value); lia).
  eexists _, _. reflexivity.
Qed.

Create HintDb succeeds.
#[local] Hint Resolve succeeds_ret succeeds_write_bytes
  succeeds_write_unicode_string succeeds_write_length_and_key
  succeeds_write_length_block : succeeds.
#[local] Hint Extern 2 (succeeds (bind _ _)) =>
  apply succeeds_bind; [ | intro; auto 12 with uniform | intro ] : succeeds.
#[local] Hint Extern 1 (succeeds (write_fmt_I _)) =>
  apply succeeds_write_fmt_I; lia : succeeds.

Lemma succeeds_tag K v :
  has_tag v = true ->
  succeeds (tag <- ostype_value K element_ostype v ;; write_bytes tag).
Proof.
  unfold has_tag, ostype_value, succeeds, bind.
  destruct (element_ostype v); [|discriminate]. intros _.
  eexists _, _. reflexivity.
Qed.

Lemma succeeds_Descriptor_write_loop K items :
  Forall (fun kv => key_fits (fst kv) = true /\ has_tag (snd kv) = true
                    /\ succeeds (write K (snd kv))) items ->
  forall written,
    succeeds (Descriptor_write_loop K element_ostype (write K) items
                written).
Proof.
  induction 1 as [|[k v] items (Hk & Ht & Hv) _ IH]; intros written;
    cbn [Descriptor_write_loop fst snd] in *.
  - apply succeeds_ret.
  - apply succeeds_bind;
      [auto with succeeds|intro; auto 12 with uniform|intro w1].
    unfold has_tag in Ht. unfold ostype_value.
    destruct (element_ostype v) as [t|]; [|discriminate Ht].
    apply succeeds_bind;
      [apply succeeds_ret|intro; auto 12 with uniform|intro tag].
    apply succeeds_bind;
      [apply succeeds_write_bytes|intro; auto 12 with uniform|intro w2].
    apply succeeds_bind; [exact Hv|intro; auto 12 with uniform|intro w3].
    apply IH.
Qed.

Lemma succeeds_List_write_loop K items :
  Forall (fun v => has_tag v = true /\ succeeds (write K v)) items ->
  forall written,
    succeeds (List_write_loop K element_ostype (write K) items written).
Proof.
  induction 1 as [|v items (Ht & Hv) _ IH]; intros written;
    cbn [List_write_loop] in *.
  - apply succeeds_ret.
  - apply succeeds_bind;
      [now apply succeeds_tag|intro; auto 12 with uniform|intro w1].
    apply succeeds_bind; [exact Hv|intro; auto 12 with uniform|intro w3].
    apply IH.
Qed.

Lemma encodable_succeeds K e : encodable e = true -> succeeds (write K e).
Proof.
  induction e as [cls name classID items IH|cls items IH|e Hleaf]
    using element_nested_ind; intros H.
  - cbn [encodable] in H. split_andb. cbn [write]. unfold Descriptor_write.
    repeat match goal with
      | Hl : (_ <? _) = true |- _ => apply Z.ltb_lt in Hl
      end.
    pose proof (len_nonneg items).
    apply succeeds_bind;
      [auto with succeeds|intro; auto 12 with uniform|intro w0].
    apply succeeds_bind;
      [auto with succeeds|intro; auto 12 with uniform|intro w1].
    apply succeeds_bind;
      [auto with succeeds|intro; auto 12 with uniform|intro w2].
    apply succeeds_Descriptor_write_loop.
    rewrite Forall_forall in IH |- *. intros kv Hin.
    match goal with
    | Hf : forallb _ items = true |- _ =>
        rewrite forallb_forall in Hf; specialize (Hf kv Hin)
    end.
    split_andb. auto.
  - cbn [encodable] in H. split_andb. cbn [write]. unfold List_write.
    repeat match goal with
      | Hl : (_ <? _) = true |- _ => apply Z.ltb_lt in Hl
      end.
    pose proof (len_nonneg items).
    apply succeeds_bind;
      [auto with succeeds|intro; auto 12 with uniform|intro w2].
    apply succeeds_List_write_loop.
    rewrite Forall_forall in IH |- *. intros v Hin.
    match goal with
    | Hf : forallb _ items = true |- _ =>
        rewrite forallb_forall in Hf; specialize (Hf v Hin)
    end.
    split_andb. auto.
  - destruct e; try discriminate Hleaf; cbn [encodable] in H; split_andb;
      cbn [write];
      unfold Property_write, UnitFloat_write, UnitFloats_write,
        Double_write, Class_write, String_write,
        EnumeratedReference_write, Offset_write, Bool_write,
        LargeInteger_write, Integer_write, Enum_write, RawData_write,
        write_fmt_4sd, write_fmt_4sI_doubles, write_fmt_d, write_fmt_bool,
        write_fmt_q, write_fmt_i;
      repeat match goal with
        | Hl : (_ <? _) = true |- _ => apply Z.ltb_lt in Hl
        | Hl : (_ <=? _) = true |- _ => apply Z.leb_le in Hl
        end;
      try solve [auto 12 with succeeds].
    all: match goal with
         | |- succeeds (if ?c then _ else _) =>
             replace c with true
               by (symmetry; apply andb_true_intro; split;
                   [apply Z.leb_le; first [lia|apply len_nonneg]
                   |apply Z.ltb_lt; lia])
         end; apply succeeds_write_bytes.
Qed.

(** ** What a decode builds can be written *)

Lemma read_exact_length n s data s' :
  read_exact n s = Ok (data, s') -> length data = n.
Proof.
  unfold read_exact. intros H.
  apply bind_Ok_inv in H. destruct H as (d0 & s0 & _ & H).
  destruct (Nat.eqb_spec (length d0) n) as [L|L]; [|discriminate H].
  apply ret_inv in H. destruct H as [-> _]. exact L.
Qed.

Lemma be_value_4 data : length data = 4%nat -> 0 <= be_value data < 2 ^ 32.
Proof.
  intros L. pose proof (be_value_below 4 data ltac:(lia)) as R.
  change (256 ^ Z.of_nat 4) with (2 ^ 32) in R. exact R.
Qed.

Lemma read_fmt_I_range s n s' :
  read_fmt_I s = Ok (n, s') -> 0 <= n < 2 ^ 32.
Proof.
  unfold read_fmt_I. intros H.
  apply bind_Ok_inv in H. destruct H as (data & s1 & H1 & H).
  apply ret_inv in H. destruct H as [-> _].
  apply be_value_4. now apply read_exact_length in H1.
Qed.

Lemma length_be_array_from_bytes count :
  forall data, length (be_array_from_bytes count data) = count.
Proof.
  induction count as [|count IH]; intros data; [reflexivity|].
  cbn [be_array_from_bytes length]. now rewrite IH.
Qed.

Lemma length_unpack_doubles count :
  forall data, length (unpack_doubles count data) = count.
Proof.
  induction count as [|count IH]; intros data; [reflexivity|].
  cbn [unpack_doubles length]. now rewrite IH.
Qed.

Lemma read_unicode_string_fits p s v s' :
  read_unicode_string p s = Ok (v, s') -> (len v <? 2 ^ 32) = true.
Proof.
  intros H. unfold read_unicode_string in H.
  apply bind_Ok_inv in H. destruct H as (n & s1 & Hn & H).
  apply bind_Ok_inv in H. destruct H as (data & s2 & _ & H).
  apply bind_Ok_inv in H. destruct H as (pad & s3 & _ & H).
  apply ret_inv in H. destruct H as [-> _].
  apply read_fmt_I_range in Hn. apply Z.ltb_lt. unfold len.
  rewrite length_be_array_from_bytes. lia.
Qed.

Lemma fp_read_fits n (s : istream) key s' :
  fp_read n s = Ok (key, s') -> (Z.of_nat n < 2 ^ 32) ->
  (len key <? 2 ^ 32) = true.
Proof.
  unfold fp_read. intros H Hn. inversion H; subst key; clear H.
  apply Z.ltb_lt. unfold len. rewrite length_firstn. lia.
Qed.

Lemma read_length_and_key_fits K s k s' :
  read_length_and_key K s = Ok (k, s') -> key_fits k = true.
Proof.
  intros H. unfold read_length_and_key in H.
  apply bind_Ok_inv in H. destruct H as (n & s1 & Hn & H).
  apply bind_Ok_inv in H. destruct H as (key & s2 & Hkey & H).
  apply read_fmt_I_range in Hn.
  assert (Hfit : (len key <? 2 ^ 32) = true).
  { apply (fp_read_fits _ _ _ _ Hkey).
    destruct (n =? 0); [change (2 ^ 32) with 4294967296|]; lia. }
  destruct (n =? 0).
  - destruct (DescriptorClassID_has K key).
    + apply ret_inv in H. destruct H as [-> _]. reflexivity.
    + apply bind_Ok_inv in H. destruct H as (u & s3 & _ & H).
      apply ret_inv in H. destruct H as [-> _]. exact Hfit.
  - apply ret_inv in H. destruct H as [-> _]. exact Hfit.
Qed.

Lemma to_signed_range n u :
  0 < n -> 0 <= u < 2 ^ n -> - 2 ^ (n - 1) <= to_signed n u < 2 ^ (n - 1).
Proof.
  intros Hn Hu. unfold to_signed.
  assert (E : 2 ^ n = 2 * 2 ^ (n - 1)).
  { replace n with (Z.succ (n - 1)) at 1 by lia.
    apply Z.pow_succ_r. lia. }
  destruct (Z.ltb_spec u (2 ^ (n - 1))); lia.
Qed.

Lemma read_length_block_fits s v s' :
  read_length_block s = Ok (v, s') -> (len v <? 2 ^ 32) = true.
Proof.
  unfold read_length_block. intros H.
  apply bind_Ok_inv in H. destruct H as (n & s1 & Hn & H).
  apply read_fmt_I_range in Hn. apply read_exact_length in H.
  apply Z.ltb_lt. unfold len. rewrite H. lia.
Qed.

Lemma TYPES_get_tagged t cls :
  TYPES_get t = Some cls -> getattr_ostype cls = Some t.
Proof.
  destruct t; vm_compute; intros H; inversion H; reflexivity.
Qed.

Section ContainerEncodable.
Variable K : constants.
Context {D : Type}.
Variable TYPES_get' : OSType -> option D.
Variable decoder_read : D -> M istream element.
Variable is_None : element -> bool.
Hypothesis decoder_encodable :
  forall t d s v s',
    TYPES_get' t = Some d -> decoder_read d s = Ok (v, s') ->
    has_tag v = true /\ encodable v = true.

Lemma Descriptor_read_loop_encodable count :
  forall acc s items s',
    Forall (fun kv => key_fits (fst kv) = true
                      /\ (has_tag (snd kv) = true
                          /\ encodable (snd kv) = true)) acc ->
    Descriptor_read_loop K TYPES_get' decoder_read is_None count acc s
    = Ok (items, s') ->
    Forall (fun kv => key_fits (fst kv) = true
                      /\ (has_tag (snd kv) = true
                          /\ encodable (snd kv) = true)) items.
Proof.
  induction count as [|count IH]; intros acc s items s' Hacc H.
  - apply ret_inv in H. destruct H as [-> _]. exact Hacc.
  - cbn [Descriptor_read_loop] in H.
    apply bind_Ok_inv in H. destruct H as (key & s1 & Hkey & H).
    apply bind_Ok_inv in H. destruct H as (tag & s2 & _ & H).
    apply bind_Ok_inv in H. destruct H as (t & s3 & _ & H).
    destruct (TYPES_get' t) as [d|] eqn:Ht; [|discriminate H].
    apply bind_Ok_inv in H. destruct H as (v & s4 & Hv & H).
    apply bind_Ok_inv in H. destruct H as (u & s5 & _ & H).
    apply IH in H; [exact H|].
    apply Forall_app. split; [exact Hacc|]. constructor; [|constructor].
    cbn. split; [now apply read_length_and_key_fits in Hkey|eauto].
Qed.

Lemma List_read_loop_encodable count :
  forall acc s items s',
    Forall (fun v => has_tag v = true /\ encodable v = true) acc ->
    List_read_loop K TYPES_get' decoder_read count acc s = Ok (items, s') ->
    Forall (fun v => has_tag v = true /\ encodable v = true) items.
Proof.
  induction count as [|count IH]; intros acc s items s' Hacc H.
  - apply ret_inv in H. destruct H as [-> _]. exact Hacc.
  - cbn [List_read_loop] in H.
    apply bind_Ok_inv in H. destruct H as (tag & s2 & _ & H).
    apply bind_Ok_inv in H. destruct H as (t & s3 & _ & H).
    destruct (TYPES_get' t) as [d|] eqn:Ht; [|discriminate H].
    apply bind_Ok_inv in H. destruct H as (v & s4 & Hv & H).
    apply IH in H; [exact H|].
    apply Forall_app. split; [exact Hacc|]. constructor; [|constructor].
    eauto.
Qed.
End ContainerEncodable.

Lemma read_child_tagged K fuel t d s v s' :
  TYPES_get t = Some d -> read K fuel d s = Ok (v, s') -> has_tag v = true.
Proof.
  intros Ht H. apply read_valid in H. destruct H as [_ Hcls].
  apply TYPES_get_tagged in Ht. unfold has_tag, element_ostype.
  now rewrite Hcls, Ht.
Qed.

Ltac fits_atoms :=
  repeat match goal with
    | |- andb _ _ = true => apply andb_true_intro; split
    end;
  eauto using read_unicode_string_fits, read_length_and_key_fits,
    read_length_block_fits.

Lemma read_encodable K fuel :
  forall cls s e s', read K fuel cls s = Ok (e, s') -> encodable e = true.
Proof.
  induction fuel as [|fuel IH]; intros cls s e s' H; [discriminate H|].
  rewrite read_unfold in H.
  destruct (method_owner cls) eqn:Hown; try discriminate H.
  - unfold Descriptor_read in H.
    apply bind_Ok_inv in H. destruct H as (name & s1 & H1 & H).
    apply bind_Ok_inv in H. destruct H as (classID & s2 & H2 & H).
    apply bind_Ok_inv in H. destruct H as (count & s3 & H3 & H).
    apply bind_Ok_inv in H. destruct H as (raw & s4 & H4 & H).
    apply ret_inv in H. destruct H as [-> _].
    pose proof (Descriptor_read_loop_length _ _ _ _ _ _ _ _ _ H4) as Hlen.
    apply (Descriptor_read_loop_encodable K TYPES_get (read K fuel)
             (fun _ => false)) in H4;
      [|intros t d s0 v s0' Ht E; split;
        [now apply (read_child_tagged K fuel t d s0 v s0')
        |now apply (IH d s0 v s0')]
       |constructor].
    apply (OrderedDict_Forall (fun k => key_fits k = true)
             (fun v => has_tag v = true /\ encodable v = true)) in H4.
    apply read_fmt_I_range in H3.
    unfold new_Descriptor. cbn [encodable]. fits_atoms.
    + apply Z.ltb_lt. unfold len.
      pose proof (OrderedDict_length Key_eqb raw). cbn [length] in Hlen. lia.
    + apply forallb_forall. rewrite Forall_forall in H4.
      intros kv Hin. destruct (H4 kv Hin) as (Hk & Ht & Hv).
      now rewrite Hk, Ht, Hv.
  - unfold List_read in H.
    apply bind_Ok_inv in H. destruct H as (count & s3 & H3 & H).
    apply bind_Ok_inv in H. destruct H as (items & s4 & H4 & H).
    apply ret_inv in H. destruct H as [-> _].
    pose proof (List_read_loop_length _ _ _ _ _ _ _ _ H4) as Hlen.
    apply (List_read_loop_encodable K TYPES_get (read K fuel)) in H4;
      [|intros t d s0 v s0' Ht E; split;
        [now apply (read_child_tagged K fuel t d s0 v s0')
        |now apply (IH d s0 v s0')]
       |constructor].
    apply read_fmt_I_range in H3.
    cbn [encodable]. fits_atoms.
    + apply Z.ltb_lt. unfold len. cbn [length] in Hlen. lia.
    + apply forallb_forall. rewrite Forall_forall in H4.
      intros v Hin. destruct (H4 v Hin) as (Ht & Hv). now rewrite Ht, Hv.
  - unfold Property_read in H. invert_reads H. cbn [encodable]. fits_atoms.
  - unfold UnitFloat_read in H.
    apply bind_Ok_inv in H. destruct H as (uv & s1 & H1 & H).
    apply bind_Ok_inv in H. destruct H as (unit & s2 & H2 & H).
    apply ret_inv in H. destruct H as [-> _]. reflexivity.
  - unfold UnitFloats_read in H.
    apply bind_Ok_inv in H. destruct H as (uc & s1 & H1 & H).
    apply bind_Ok_inv in H. destruct H as (values & s2 & H2 & H).
    apply bind_Ok_inv in H. destruct H as (unit & s3 & H3 & H).
    apply ret_inv in H. destruct H as [-> _]. cbn [encodable].
    unfold read_fmt_doubles in H2.
    apply bind_Ok_inv in H2. destruct H2 as (data & s4 & _ & H2).
    apply ret_inv in H2. destruct H2 as [-> _].
    unfold read_fmt_4sI in H1.
    apply bind_Ok_inv in H1. destruct H1 as (blk & s5 & Hblk & H1).
    apply ret_inv in H1. destruct H1 as [-> _]. cbn [snd].
    apply read_exact_length in Hblk.
    pose proof (be_value_4 (skipn 4 blk)
                  ltac:(rewrite length_skipn; lia)) as R.
    apply Z.ltb_lt. unfold len. rewrite length_unpack_doubles. lia.
  - unfold Double_read in H.
    apply bind_Ok_inv in H. destruct H as (v & s1 & H1 & H).
    apply ret_inv in H. destruct H as [-> _]. reflexivity.
  - unfold Class_read in H. invert_reads H. cbn [encodable]. fits_atoms.
  - unfold String_read in H. invert_reads H. cbn [encodable]. fits_atoms.
  - unfold EnumeratedReference_read in H. invert_reads H.
    cbn [encodable]. fits_atoms.
  - unfold Offset_read in H. invert_reads H. cbn [encodable].
    match goal with
    | E : read_fmt_I _ = Ok _ |- _ => apply read_fmt_I_range in E
    end.
    fits_atoms; [apply Z.leb_le|apply Z.ltb_lt]; lia.
  - unfold Bool_read in H. invert_reads H. reflexivity.
  - unfold LargeInteger_read in H. invert_reads H. cbn [encodable].
    unfold read_fmt_q in *.
    match goal with
    | E : bind _ _ _ = Ok _ |- _ =>
        apply bind_Ok_inv in E; destruct E as (data & s1 & Hd & E);
        apply ret_inv in E; destruct E as [-> _]
    end.
    apply read_exact_length in Hd.
    pose proof (be_value_below 8 data ltac:(lia)) as R.
    change (256 ^ Z.of_nat 8) with (2 ^ 64) in R.
    pose proof (to_signed_range 64 (be_value data) ltac:(lia) R) as T.
    change (64 - 1) with 63 in T.
    apply andb_true_intro. split; [apply Z.leb_le|apply Z.ltb_lt]; lia.
  - unfold Integer_read in H. invert_reads H. cbn [encodable].
    unfold read_fmt_i in *.
    match goal with
    | E : bind _ _ _ = Ok _ |- _ =>
        apply bind_Ok_inv in E; destruct E as (data & s1 & Hd & E);
        apply ret_inv in E; destruct E as [-> _]
    end.
    apply read_exact_length in Hd.
    pose proof (be_value_4 data Hd) as R.
    pose proof (to_signed_range 32 (be_value data) ltac:(lia) R) as T.
    change (32 - 1) with 31 in T.
    apply andb_true_intro. split; [apply Z.leb_le|apply Z.ltb_lt]; lia.
  - unfold Enum_read in H. invert_reads H. cbn [encodable]. fits_atoms.
  - unfold RawData_read in H. invert_reads H. cbn [encodable]. fits_atoms.
Qed.

(** ** What was written was encodable *)

Lemma write_unicode_string_fits v p out n out' :
  write_unicode_string v p out = Ok (n, out') -> (len v <? 2 ^ 32) = true.
Proof.
  intros H. apply write_unicode_string_inv in H. now apply Z.ltb_lt.
Qed.

Lemma write_length_and_key_fits k out n out' :
  write_length_and_key k out = Ok (n, out') -> key_fits k = true.
Proof.
  intros H. apply write_length_and_key_inv in H. destruct H as [_ H].
  destruct k; [reflexivity|]. now apply Z.ltb_lt.
Qed.

Lemma write_fmt_I_fits v out n out' :
  write_fmt_I v out = Ok (n, out') ->
  ((0 <=? v) && (v <? 2 ^ 32)) = true.
Proof.
  unfold write_fmt_I. now destruct ((0 <=? v) && (v <? 2 ^ 32)).
Qed.

Lemma ostype_value_tagged K v out tag out' :
  ostype_value K element_ostype v out = Ok (tag, out') -> has_tag v = true.
Proof.
  unfold ostype_value, has_tag. now destruct (element_ostype v).
Qed.

Lemma Descriptor_write_loop_encodable K items :
  Forall (fun kv => forall out n out',
              write K (snd kv) out = Ok (n, out') ->
              encodable (snd kv) = true) items ->
  forall written out n out',
    Descriptor_write_loop K element_ostype (write K) items written out
    = Ok (n, out') ->
    forallb (fun kv => key_fits (fst kv)
                       && (has_tag (snd kv) && encodable (snd kv)))
      items = true.
Proof.
  induction 1 as [|[k v] items Hv _ IH]; intros written out n out' H;
    [reflexivity|].
  cbn [Descriptor_write_loop fst snd] in H.
  apply bind_Ok_inv in H. destruct H as (w1 & o1 & Hk & H).
  apply bind_Ok_inv in H. destruct H as (tag & o2 & Ht & H).
  apply bind_Ok_inv in H. destruct H as (w2 & o3 & _ & H).
  apply bind_Ok_inv in H. destruct H as (w3 & o4 & Hw & H).
  cbn [forallb fst snd]. cbn [snd] in Hv.
  rewrite (write_length_and_key_fits _ _ _ _ Hk),
    (ostype_value_tagged _ _ _ _ _ Ht), (Hv _ _ _ Hw).
  exact (IH _ _ _ _ H).
Qed.

Lemma List_write_loop_encodable K items :
  Forall (fun v => forall out n out',
              write K v out = Ok (n, out') -> encodable v = true) items ->
  forall written out n out',
    List_write_loop K element_ostype (write K) items written out
    = Ok (n, out') ->
    forallb (fun v => has_tag v && encodable v) items = true.
Proof.
  induction 1 as [|v items Hv _ IH]; intros written out n out' H;
    [reflexivity|].
  cbn [List_write_loop] in H.
  apply bind_Ok_inv in H. destruct H as (w1 & o1 & Ht & H).
  apply bind_Ok_inv in Ht. destruct Ht as (tag & o2 & Ht & _).
  apply bind_Ok_inv in H. destruct H as (w3 & o4 & Hw & H).
  cbn [forallb].
  rewrite (ostype_value_tagged _ _ _ _ _ Ht), (Hv _ _ _ Hw).
  exact (IH _ _ _ _ H).
Qed.

Ltac invert_writes H :=
  repeat (apply bind_Ok_inv in H;
          let a := fresh "a" in
          let s := fresh "s" in
          let E := fresh "E" in
          destruct H as (a & s & E & H)).

Ltac written_atoms :=
  repeat match goal with
    | |- andb _ _ = true => apply andb_true_intro; split
    end;
  eauto using write_unicode_string_fits, write_length_and_key_fits.

Lemma written_encodable K e :
  forall out n out', write K e out = Ok (n, out') -> encodable e = true.
Proof.
  induction e as [cls name classID items IH|cls items IH|e Hleaf]
    using element_nested_ind; intros out n out' H.
  - cbn [write] in H. unfold Descriptor_write in H.
    apply bind_Ok_inv in H. destruct H as (w0 & o0 & H0 & H).
    apply bind_Ok_inv in H. destruct H as (w1 & o1 & H1 & H).
    apply bind_Ok_inv in H. destruct H as (w2 & o2 & H2 & H).
    apply write_fmt_I_inv in H2. destruct H2 as (Hlen & _ & _).
    apply (Descriptor_write_loop_encodable K items IH) in H.
    cbn [encodable]. written_atoms. apply Z.ltb_lt. lia.
  - cbn [write] in H. unfold List_write in H.
    apply bind_Ok_inv in H. destruct H as (w2 & o2 & H2 & H).
    apply write_fmt_I_inv in H2. destruct H2 as (Hlen & _ & _).
    apply (List_write_loop_encodable K items IH) in H.
    cbn [encodable]. written_atoms. apply Z.ltb_lt. lia.
  - destruct e; try discriminate Hleaf; cbn [write] in H;
      cbn [encodable]; try reflexivity;
      unfold Property_write, UnitFloats_write, Class_write, String_write,
        EnumeratedReference_write, Offset_write, LargeInteger_write,
        Integer_write, Enum_write, RawData_write, write_fmt_4sI_doubles,
        write_fmt_q, write_fmt_i in H.
    + invert_writes H. written_atoms.
    + destruct (0 <=? len values); [|discriminate H].
      destruct (len values <? 2 ^ 32); [reflexivity|discriminate H].
    + invert_writes H. written_atoms.
    + written_atoms.
    + invert_writes H. written_atoms.
    + invert_writes H.
      match goal with
      | E : write_fmt_I _ _ = Ok _ |- _ =>
          apply write_fmt_I_fits, andb_true_iff in E; destruct E
      end.
      written_atoms.
    + now destruct ((- 2 ^ 63 <=? value) && (value <? 2 ^ 63)).
    + now destruct ((- 2 ^ 31 <=? value) && (value <? 2 ^ 31)).
    + invert_writes H. written_atoms.
    + unfold write_length_block in H. cbn [write_bytes] in H.
      apply bind_Ok_inv in H. destruct H as (w1 & o1 & H1 & _).
      apply write_fmt_I_inv in H1. apply Z.ltb_lt. lia.
Qed.

(** Whatever a decode returns can be encoded: [tobytes] of a tree that
    [frombytes] built raises nothing, whatever bytes the tree was
    decoded from and whichever class was asked for.  Every length and
    integer of such a tree fits the field it came from, and every child
    of a container is an instance of a registered class, so that
    [item.ostype] exists. *)
Theorem decoded_trees_can_be_encoded :
  forall (K : constants) (cls : pyclass) (data : bytes) (e : element),
    frombytes K cls data = Ok e ->
    encodable e = true /\ exists bs, tobytes K e = Ok bs.
Proof.
  intros K cls data e H. unfold frombytes, frombytes_log in H.
  destruct (read K (S (length data)) cls (data, [])) as [[e0 s0]| |] eqn:E;
    try discriminate H.
  inversion H; subst e0; clear H.
  apply read_encodable in E. split; [exact E|].
  destruct (encodable_succeeds K e E) as (n & bs & Hw).
  exists bs. unfold tobytes. now rewrite Hw.
Qed.

Lemma decoded_trees_can_be_encoded_witness :
  exists bs,
    tobytes psd
      (descriptor_obj Descriptor [] (ClassID (b4 "n" "u" "l" "l"))
         [(RawKey (b4 "N" "m" " " " "), bool_obj Bool true)]) = Ok bs.
Proof.
  apply (decoded_trees_can_be_encoded psd Descriptor repeated_key_stream).
  vm_compute. reflexivity.
Defined.

(** [tobytes] returns exactly on the trees in which every length fits
    its 4-byte field, every integer fits its signed field and every
    child of a container is an instance of a class that has an
    [ostype]; on every other tree it raises. *)
Theorem tobytes_returns_exactly_on_encodable :
  forall (K : constants) (e : element),
    (exists bs, tobytes K e = Ok bs) <-> encodable e = true.
Proof.
  intros K e. split.
  - intros [bs H]. unfold tobytes in H.
    destruct (write K e []) as [[n out]| |] eqn:Hw; try discriminate H.
    now apply written_encodable in Hw.
  - intros H. destruct (encodable_succeeds K e H) as (n & bs & Hw).
    exists bs. unfold tobytes. now rewrite Hw.
Qed.

(** ** Decoding ends within the length of the data *)

Lemma fold_max_bound {A} (f : A -> nat) (l : list A) (b : nat) :
  Forall (fun x => (f x <= b)%nat) l ->
  (fold_right (fun x d => Nat.max (f x) d) O l <= b)%nat.
Proof.
  induction 1 as [|x l Hx _ IH]; cbn [fold_right]; [lia|].
  apply Nat.max_lub; assumption.
Qed.

Section ContainerDepth.
Variable K : constants.
Context {D : Type}.
Variable TYPES_get' : OSType -> option D.
Variable decoder_read : D -> M istream element.
Variable is_None : element -> bool.
Variable bound : nat.
Hypothesis decoder_depth :
  forall d s v s',
    decoder_read d s = Ok (v, s') -> (depth v <= bound)%nat.

Lemma Descriptor_read_loop_depth count :
  forall acc s items s',
    Forall (fun kv : Key * element => True /\ (depth (snd kv) <= bound)%nat)
      acc ->
    Descriptor_read_loop K TYPES_get' decoder_read is_None count acc s
    = Ok (items, s') ->
    Forall (fun kv : Key * element => True /\ (depth (snd kv) <= bound)%nat)
      items.
Proof.
  induction count as [|count IH]; intros acc s items s' Hacc H.
  - apply ret_inv in H. destruct H as [-> _]. exact Hacc.
  - cbn [Descriptor_read_loop] in H.
    apply bind_Ok_inv in H. destruct H as (key & s1 & _ & H).
    apply bind_Ok_inv in H. destruct H as (tag & s2 & _ & H).
    apply bind_Ok_inv in H. destruct H as (t & s3 & _ & H).
    destruct (TYPES_get' t) as [d|]; [|discriminate H].
    apply bind_Ok_inv in H. destruct H as (v & s4 & Hv & H).
    apply bind_Ok_inv in H. destruct H as (u & s5 & _ & H).
    apply IH in H; [exact H|].
    apply Forall_app. split; [exact Hacc|]. constructor; [|constructor].
    cbn. split; [exact I|eauto].
Qed.

Lemma List_read_loop_depth count :
  forall acc s items s',
    Forall (fun v => (depth v <= bound)%nat) acc ->
    List_read_loop K TYPES_get' decoder_read count acc s = Ok (items, s') ->
    Forall (fun v => (depth v <= bound)%nat) items.
Proof.
  induction count as [|count IH]; intros acc s items s' Hacc H.
  - apply ret_inv in H. destruct H as [-> _]. exact Hacc.
  - cbn [List_read_loop] in H.
    apply bind_Ok_inv in H. destruct H as (tag & s2 & _ & H).
    apply bind_Ok_inv in H. destruct H as (t & s3 & _ & H).
    destruct (TYPES_get' t) as [d|]; [|discriminate H].
    apply bind_Ok_inv in H. destruct H as (v & s4 & Hv & H).
    apply IH in H; [exact H|].
    apply Forall_app. split; [exact Hacc|]. constructor; [|constructor].
    eauto.
Qed.
End ContainerDepth.

(** A tree read with [fuel] nested calls of [read] is nested no deeper
    than [fuel]. *)
Lemma read_depth K fuel :
  forall cls s e s',
    read K fuel cls s = Ok (e, s') -> (depth e <= fuel)%nat.
Proof.
  induction fuel as [|fuel IH]; intros cls s e s' H; [discriminate H|].
  rewrite read_unfold in H.
  destruct (method_owner cls) eqn:Hown; try discriminate H.
  - unfold Descriptor_read in H.
    apply bind_Ok_inv in H. destruct H as (name & s1 & H1 & H).
    apply bind_Ok_inv in H. destruct H as (classID & s2 & H2 & H).
    apply bind_Ok_inv in H. destruct H as (count & s3 & H3 & H).
    apply bind_Ok_inv in H. destruct H as (raw & s4 & H4 & H).
    apply ret_inv in H. destruct H as [-> _].
    apply (Descriptor_read_loop_depth K TYPES_get (read K fuel)
             (fun _ => false) fuel) in H4;
      [|intros d s0 v s0' E; now apply (IH d s0 v s0')|constructor].
    apply (OrderedDict_Forall (fun _ => True)
             (fun v => (depth v <= fuel)%nat)) in H4.
    unfold new_Descriptor. cbn [depth]. apply le_n_S.
    apply (fold_max_bound (fun kv : Key * element => depth (snd kv))).
    rewrite Forall_forall in H4 |- *. intros kv Hin.
    now destruct (H4 kv Hin).
  - unfold List_read in H.
    apply bind_Ok_inv in H. destruct H as (count & s3 & H3 & H).
    apply bind_Ok_inv in H. destruct H as (items & s4 & H4 & H).
    apply ret_inv in H. destruct H as [-> _].
    apply (List_read_loop_depth K TYPES_get (read K fuel) fuel) in H4;
      [|intros d s0 v s0' E; now apply (IH d s0 v s0')|constructor].
    cbn [depth]. apply le_n_S. now apply (fold_max_bound depth).
  - unfold Property_read in H. invert_reads H. cbn [depth]. lia.
  - unfold UnitFloat_read in H. invert_reads H. cbn [depth]. lia.
  - unfold UnitFloats_read in H. invert_reads H. cbn [depth]. lia.
  - unfold Double_read in H. invert_reads H. cbn [depth]. lia.
  - unfold Class_read in H. invert_reads H. cbn [depth]. lia.
  - unfold String_read in H. invert_reads H. cbn [depth]. lia.
  - unfold EnumeratedReference_read in H. invert_reads H. cbn [depth]. lia.
  - unfold Offset_read in H. invert_reads H. cbn [depth]. lia.
  - unfold Bool_read in H. invert_reads H. cbn [depth]. lia.
  - unfold LargeInteger_read in H. invert_reads H. cbn [depth]. lia.
  - unfold Integer_read in H. invert_reads H. cbn [depth]. lia.
  - unfold Enum_read in H. invert_reads H. cbn [depth]. lia.
  - unfold RawData_read in H. invert_reads H. cbn [depth]. lia.
Qed.

(** Decoding always ends, and needs no deeper recursion than the data
    is long: [Descriptor.read] and [List.read] call the [read] of a
    child only after they have consumed bytes, so on [n] bytes
    [frombytes] returns an element or raises within [n + 1] nested
    calls, whatever the bytes.  The element it returns is nested no
    deeper than that, and no larger bound on the nesting changes the
    result. *)
Theorem frombytes_ends_within_length :
  forall (K : constants) (cls : pyclass) (data : bytes),
    ((exists e, frombytes K cls data = Ok e
                /\ (depth e <= S (length data))%nat)
     \/ (exists x, frombytes K cls data = Raise x))
    /\ (forall fuel,
           (length data < fuel)%nat ->
           read K fuel cls (data, []) <> OutOfFuel
           /\ read K fuel cls (data, []) = frombytes_log K cls data).
Proof.
  intros K cls data.
  destruct (frombytes_total K cls data) as [Hlog _].
  split.
  - unfold frombytes. unfold frombytes_log in *.
    destruct (read K (S (length data)) cls (data, [])) as [[e s]|x|] eqn:E.
    + left. exists e. split; [reflexivity|]. now apply read_depth in E.
    + right. now exists x.
    + now contradiction Hlog.
  - intros fuel Hfuel.
    replace fuel with (S (length data) + (fuel - S (length data)))%nat
      by lia.
    rewrite frombytes_any_fuel. split; [exact Hlog|reflexivity].
Qed.

Lemma frombytes_ends_within_length_witness :
  read psd 100 Descriptor (repeated_key_stream, []) <> OutOfFuel
  /\ read psd 100 Descriptor (repeated_key_stream, [])
     = frombytes_log psd Descriptor repeated_key_stream.
Proof.
  apply (proj2 (frombytes_ends_within_length psd Descriptor
                  repeated_key_stream)).
  vm_compute. lia.
Defined.
